(** * Lorenz-Mie coefficient engine: truncation selector and layered recurrence

    A shallow embedding of [src/theory/Sphere.py] (the array-oriented
    implementation) and [src/theory/FastSphere.py] (the JIT-kernel
    implementation), and the properties of the specification proved or
    refuted on it; then the classes [Sphere] and [FastSphere] of the same
    files, the functions of [src/utilities/mtd.py] that prepare training
    data, and the sampling masks of [src/fitting/Mask.py], with properties
    read off their code.

    Numbers.  Python floats and numpy [float64]/[complex128] values are
    modelled as exact reals and exact complex numbers: rounding, overflow
    and underflow are not modelled, so no theorem below states that a
    computed float is exactly some value.  numpy does not raise on a
    division by zero, it yields [inf]/[nan]; for [Sphere.py] and for the
    array expressions of [FastSphere.py] the model uses the total division
    of [R] instead, and every theorem whose proof cancels such a quotient
    carries the hypothesis that the divisors involved are non-zero.  The
    Python-level float division of the entry points ([.../wavelength]) does
    raise, and is modelled so.

    Compiled code.  [wiscombe_yang] and [_mie_coefficients] of
    [FastSphere.py] are compiled with [@jit(nopython=True)].  There a
    division of scalars by zero raises [ZeroDivisionError] ([jit_div],
    [jit_fdiv]), array expressions keep the semantics of numpy, and an
    array is read without a bounds check: a read of [x] or [m] outside the
    array yields what the memory holds there ([unchecked], with the
    parameter [wild]).

    Errors.  Python exceptions are modelled by the [result] monad below.
    In interpreted code indexing follows Python: negative indices wrap
    once, anything else out of range raises [IndexError].

    Arrays.  numpy arrays and Python lists are [list]s; [np.empty] returns
    unspecified contents, which the model takes as a parameter [uninit]. *)

From Stdlib Require Import Reals Lra Lia ZArith List Bool Arith Sorted Classical.
From Stdlib Require String.
Import String.StringSyntax.
Import ListNotations.
Delimit Scope string_scope with string.
Open Scope R_scope.

(** ** Exceptions *)

Inductive pyerr : Type :=
| IndexError
| ValueError
| TypeError
| ZeroDivisionError
| AttributeError.

Inductive result (A : Type) : Type :=
| Ok (a : A)
| Raise (e : pyerr).
Arguments Ok {A} a.
Arguments Raise {A} e.

Definition bind {A B : Type} (c : result A) (k : A -> result B) : result B :=
  match c with
  | Ok a => k a
  | Raise e => Raise e
  end.

Notation "x <- c ;; k" := (bind c (fun x => k))
  (at level 61, c at next level, right associativity).
Notation "' p <- c ;; k" := (bind c (fun x => let 'p := x in k))
  (at level 61, p pattern, c at next level, right associativity).

Definition is_ok {A : Type} (c : result A) : Prop := exists a, c = Ok a.
Definition is_error {A : Type} (c : result A) : Prop := exists e, c = Raise e.

(** ** Complex numbers *)

Record C : Type := mkC { Re : R; Im : R }.

Definition RtoC (x : R) : C := mkC x 0.
Definition C0 : C := RtoC 0.
Definition C1 : C := RtoC 1.
(** [1j] *)
Definition Ci : C := mkC 0 1.

Definition Cadd (a b : C) : C := mkC (Re a + Re b) (Im a + Im b).
Definition Copp (a : C) : C := mkC (- Re a) (- Im a).
Definition Csub (a b : C) : C := mkC (Re a - Re b) (Im a - Im b).
Definition Cmul (a b : C) : C :=
  mkC (Re a * Re b - Im a * Im b) (Re a * Im b + Im a * Re b).
Definition Cnorm2 (a : C) : R := Re a * Re a + Im a * Im a.
Definition Cinv (a : C) : C := mkC (Re a / Cnorm2 a) (- Im a / Cnorm2 a).
Definition Cdiv (a b : C) : C := Cmul a (Cinv b).
(** [abs] of a complex number *)
Definition Cabs (a : C) : R := sqrt (Cnorm2 a).
(** [np.exp] of a complex number *)
Definition Cexp (a : C) : C := mkC (exp (Re a) * cos (Im a)) (exp (Re a) * sin (Im a)).
(** a Python [int] used in complex arithmetic *)
Definition NtoC (n : nat) : C := RtoC (INR n).

Declare Scope C_scope.
Delimit Scope C_scope with C.
Bind Scope C_scope with C.
Infix "+" := Cadd : C_scope.
Infix "-" := Csub : C_scope.
Infix "*" := Cmul : C_scope.
Infix "/" := Cdiv : C_scope.
Notation "- x" := (Copp x) : C_scope.

(** ** Python and numpy primitives *)

Section Sequences.
Context {A : Type}.

(** [l[i]] with Python's index convention. *)
Definition py_index (len : nat) (i : Z) : result nat :=
  if (0 <=? i)%Z then
    if (i <? Z.of_nat len)%Z then Ok (Z.to_nat i) else Raise IndexError
  else
    if (0 <=? i + Z.of_nat len)%Z then Ok (Z.to_nat (i + Z.of_nat len))
    else Raise IndexError.

Definition item (l : list A) (i : nat) : result A :=
  match nth_error l i with
  | Some a => Ok a
  | None => Raise IndexError
  end.

Fixpoint update (l : list A) (i : nat) (v : A) : list A :=
  match l, i with
  | [], _ => []
  | _ :: t, O => v :: t
  | a :: t, S i' => a :: update t i' v
  end.

(** [l[i] = v] for a non-negative [i] *)
Definition assign (l : list A) (i : nat) (v : A) : result (list A) :=
  if (i <? length l)%nat then Ok (update l i v) else Raise IndexError.

Definition getitem (l : list A) (i : Z) : result A :=
  j <- py_index (length l) i ;; item l j.

Definition setitem (l : list A) (i : Z) (v : A) : result (list A) :=
  j <- py_index (length l) i ;; assign l j v.

(** [np.roll(l, -1)] *)
Definition roll_left (l : list A) : list A :=
  match l with
  | [] => []
  | a :: t => t ++ [a]
  end.

(** [np.roll(l, 1)] *)
Definition roll_right (l : list A) : list A :=
  match rev l with
  | [] => []
  | a :: t => a :: rev t
  end.

(** [for n in ns: s = body n s] *)
Fixpoint foreach {S : Type} (ns : list nat) (body : nat -> S -> result S) (s : S)
  : result S :=
  match ns with
  | [] => Ok s
  | n :: ns' => s' <- body n s ;; foreach ns' body s'
  end.
End Sequences.

(** [range(n, 0, -1)] *)
Fixpoint range_down (n : nat) : list nat :=
  match n with
  | O => []
  | S n' => n :: range_down n'
  end.

(** [range(a, b)] *)
Definition range (a b : nat) : list nat := seq a (b - a).

(** Element by element application of [f] to two sequences *)
Definition zip_with {A B D : Type} (f : A -> B -> D) (a : list A) (b : list B)
  : list D :=
  map (fun p => f (fst p) (snd p)) (combine a b).

(** numpy broadcasting of two one-dimensional operands *)
Definition broadcast {A B D : Type} (f : A -> B -> D) (a : list A) (b : list B)
  : result (list D) :=
  if (length a =? length b)%nat then Ok (zip_with f a b)
  else match a, b with
       | [a0], _ => Ok (map (f a0) b)
       | _, [b0] => Ok (map (fun v => f v b0) a)
       | _, _ => Raise ValueError
       end.

(** [np.floor] of a float is the float [IZR (Zfloor r)]; [int(r)] truncates
    towards zero. *)
Definition np_floor (r : R) : R := IZR (Zfloor r).
Definition py_int (r : R) : Z :=
  if Rle_dec 0 r then Zfloor r else Zceil r.

(** [x ** y] for floats [x >= 0] and [y > 0] *)
Definition float_pow (x y : R) : R :=
  if Rle_dec x 0 then 0 else Rpower x y.

(** [array.max()] *)
Definition np_max (l : list R) : result R :=
  match l with
  | [] => Raise ValueError
  | a :: t => Ok (fold_left Rmax t a)
  end.

(** Values handed to Python's builtin [max] and [int]: a float or a
    one-dimensional float array. *)
Inductive pyval : Type :=
| PyFloat (r : R)
| NdArray (l : list R).

(** The outcome of [a > b]: a bool or an array of bools. *)
Inductive pycmp : Type :=
| PyBool (b : bool)
| BoolArray (l : list bool).

Definition Rgtb (a b : R) : bool := if Rgt_dec a b then true else false.

Definition py_gt (a b : pyval) : result pycmp :=
  match a, b with
  | PyFloat u, PyFloat v => Ok (PyBool (Rgtb u v))
  | NdArray l, PyFloat v => Ok (BoolArray (map (fun u => Rgtb u v) l))
  | PyFloat u, NdArray l => Ok (BoolArray (map (fun v => Rgtb u v) l))
  | NdArray l, NdArray l' => r <- broadcast Rgtb l l' ;; Ok (BoolArray r)
  end.

(** Truth value of a comparison: an array of one element has the truth value
    of that element, an empty array is false, and a longer one raises
    "The truth value of an array with more than one element is ambiguous". *)
Definition py_bool (c : pycmp) : result bool :=
  match c with
  | PyBool b => Ok b
  | BoolArray [] => Ok false
  | BoolArray [b] => Ok b
  | BoolArray _ => Raise ValueError
  end.

(** Python's builtin [max(first, *rest)]: keep the first item, replace it by
    each later item that compares greater. *)
Fixpoint py_max (cur : pyval) (rest : list pyval) : result pyval :=
  match rest with
  | [] => Ok cur
  | v :: rest' =>
      c <- py_gt v cur ;;
      b <- py_bool c ;;
      py_max (if b then v else cur) rest'
  end.

(** [int(v)]: only a float or an array of one element converts. *)
Definition py_int_of (v : pyval) : result Z :=
  match v with
  | PyFloat r => Ok (py_int r)
  | NdArray [r] => Ok (py_int r)
  | NdArray _ => Raise TypeError
  end.

(** The Wiscombe (1980) rule, the same text in both implementations. *)
Definition wiscombe (xl : R) : R :=
  if Rle_dec xl 8 then
    np_floor (xl + 4 * float_pow xl (1 / 3) + 1)
  else if Rle_dec xl 4200 then
    np_floor (xl + 4.05 * float_pow xl (1 / 3) + 2)
  else
    np_floor (xl + 4 * float_pow xl (1 / 3) + 2).

(** [abs(x * m)] for a real array (or list) [x] and a complex array [m] *)
Definition abs_prod (x : list R) (m : list C) : result (list R) :=
  broadcast (fun u v => Cabs (RtoC u * v)) x m.

(** [np.empty(n, complex)]: [n] cells of unspecified content *)
Definition np_empty (uninit : nat -> C) (n : Z) : result (list C) :=
  if (n <? 0)%Z then Raise ValueError else Ok (map uninit (seq 0 (Z.to_nat n))).

(** [np.empty([n, 2], complex)]: [n] rows [(a, b)] *)
Definition np_empty_rows (uninit : nat -> C) (n : Z) : result (list (C * C)) :=
  if (n <? 0)%Z then Raise ValueError
  else Ok (map (fun i => (uninit (2 * i)%nat, uninit (2 * i + 1)%nat)) (seq 0 (Z.to_nat n))).

(** [c * v] for a scalar [c] and an array [v] *)
Definition scale (c : C) (v : list C) : list C := map (fun a => (c * a)%C) v.

(** [ab[:, 0] = v] and [ab[:, 1] = v]: [v] has the length of [ab], or one
    element that is broadcast *)
Definition set_column_a (ab : list (C * C)) (v : list C) : result (list (C * C)) :=
  if (length v =? length ab)%nat
  then Ok (zip_with (fun row c => (c, snd row)) ab v)
  else match v with
       | [v0] => Ok (map (fun p => (v0, snd p)) ab)
       | _ => Raise ValueError
       end.

Definition set_column_b (ab : list (C * C)) (v : list C) : result (list (C * C)) :=
  if (length v =? length ab)%nat
  then Ok (zip_with (fun row c => (fst row, c)) ab v)
  else match v with
       | [v0] => Ok (map (fun p => (fst p, v0)) ab)
       | _ => Raise ValueError
       end.

(** ** Scalars and indexing in compiled code

    [FastSphere.wiscombe_yang] and [FastSphere._mie_coefficients] are
    compiled by numba ([@jit(nopython=True)]).  There the division of a
    scalar by a scalar raises [ZeroDivisionError] when the divisor is zero
    (a complex divisor is zero when both its parts are), whereas the
    division of arrays follows numpy and does not raise; and an element of
    an array is read without a bounds check. *)

Definition is_zero (b : C) : bool :=
  if Req_dec_T (Re b) 0 then (if Req_dec_T (Im b) 0 then true else false) else false.

(** [a / b] for complex scalars in compiled code *)
Definition jit_div (a b : C) : result C :=
  if is_zero b then Raise ZeroDivisionError else Ok (a / b)%C.

(** [a / b] for float scalars in compiled code *)
Definition jit_fdiv (a b : R) : result R :=
  if Req_dec_T b 0 then Raise ZeroDivisionError else Ok (a / b).

(** [l[i]] and [l[-1]] in compiled code: outside the array the read yields
    whatever the memory holds there, [wild i]. *)
Definition unchecked {A : Type} (wild : nat -> A) (l : list A) (i : nat) : A :=
  nth i l (wild i).

Definition unchecked_last {A : Type} (wild : nat -> A) (l : list A) : A :=
  last l (wild 0%nat).

(** ** The recurrences as Sphere.py runs them (numpy scalars and arrays) *)

(** Eq. (16b) for a complex argument:
    [d1[n-1] = n/z - 1./(d1[n] + n/z)] *)
Definition d1_step (z : C) (n : nat) (d1 : list C) : result (list C) :=
  d1n <- item d1 n ;;
  assign d1 (n - 1) (NtoC n / z - C1 / (d1n + NtoC n / z))%C.

(** Eq. (16b) in the medium, where [z1 = x[-1]] is a float:
    [d1_z1[n-1] = n/z1 - (1./(d1_z1[n] + n/z1))] *)
Definition d1_step_medium (z1 : R) (n : nat) (d1 : list C) : result (list C) :=
  d1n <- item d1 n ;;
  assign d1 (n - 1) (RtoC (INR n / z1) - C1 / (d1n + RtoC (INR n / z1)))%C.

(** The two statements of the layer loop's downward recurrence *)
Definition d1_step_pair (z1 z2 : C) (n : nat) (d : list C * list C)
  : result (list C * list C) :=
  d1_z1 <- d1_step z1 n (fst d) ;;
  d1_z2 <- d1_step z2 n (snd d) ;;
  Ok (d1_z1, d1_z2).

(** State of the upward recurrence in the medium *)
Record medium_state : Type := mkMedium {
  ms_psi : list C;
  ms_zeta : list C;
  ms_psizeta : C;
  ms_d3_z1 : list C
}.

(** Eqs. (20b), (21b), (18c), (18d): one pass of the loop
    [for n in range(1, nmax+1)] of the last phase *)
Definition medium_step (z1 : R) (d1_z1 : list C) (n : nat) (s : medium_state)
  : result medium_state :=
  let nz := RtoC (INR n / z1) in
  psi_p <- item (ms_psi s) (n - 1) ;;
  d1_p <- item d1_z1 (n - 1) ;;
  psi <- assign (ms_psi s) n (psi_p * (nz - d1_p))%C ;;
  zeta_p <- item (ms_zeta s) (n - 1) ;;
  d3_p <- item (ms_d3_z1 s) (n - 1) ;;
  zeta <- assign (ms_zeta s) n (zeta_p * (nz - d3_p))%C ;;
  let psizeta := (ms_psizeta s * ((nz - d1_p) * (nz - d3_p)))%C in
  d1_n <- item d1_z1 n ;;
  d3_z1 <- assign (ms_d3_z1 s) n (d1_n + Ci / psizeta)%C ;;
  Ok (mkMedium psi zeta psizeta d3_z1).

(** State of the upward recurrence of one layer *)
Record layer_up : Type := mkLayerUp {
  lu_psizeta_z1 : C;
  lu_psizeta_z2 : C;
  lu_d3_z1 : list C;
  lu_d3_z2 : list C;
  lu_q : list C
}.

(** Arrays carried from one layer to the next *)
Record layer_state : Type := mkLayer {
  ls_d1_z1 : list C;
  ls_d1_z2 : list C;
  ls_d3_z1 : list C;
  ls_d3_z2 : list C;
  ls_q : list C;
  ls_ha : list C;
  ls_hb : list C
}.

(** Eqs. (12), (13), (7b) and (14), (15), (8b):
    [g1 = ma * h - mb * d1_z2], [g2 = ma * h - mb * d3_z2],
    [h = (g2*d1_z1 - q*g1*d3_z1) / (g2 - q*g1)]; [qg] is the product of
    [q] and [g1] in the order the source writes it. *)
Definition h_update (qg : list C -> list C -> result (list C))
    (ma mb : C) (h d1_z1 d1_z2 d3_z1 d3_z2 q : list C) : result (list C) :=
  g1 <- broadcast Csub (scale ma h) (scale mb d1_z2) ;;
  g2 <- broadcast Csub (scale ma h) (scale mb d3_z2) ;;
  g2d1 <- broadcast Cmul g2 d1_z1 ;;
  qg1 <- qg q g1 ;;
  qg1d3 <- broadcast Cmul qg1 d3_z1 ;;
  num <- broadcast Csub g2d1 qg1d3 ;;
  qg1' <- qg q g1 ;;
  den <- broadcast Csub g2 qg1' ;;
  broadcast Cdiv num den.

(** Eqs. (5), (6): one column of the table,
    [(fac*psi - np.roll(psi, 1)) / (fac*zeta - np.roll(zeta, 1))] *)
Definition column (fac psi zeta : list C) : result (list C) :=
  fpsi <- broadcast Cmul fac psi ;;
  num <- broadcast Csub fpsi (roll_right psi) ;;
  fzeta <- broadcast Cmul fac zeta ;;
  den <- broadcast Csub fzeta (roll_right zeta) ;;
  broadcast Cdiv num den.

(** The last phase and the assembly of the table (Sphere.py, lines
    153-178); [top] is the index of the seed of [d1_z1], from which the
    downward loop starts ([range(top, 0, -1)]). *)
Definition into_medium (top : nat) (x : list R) (m : list C) (nmax : Z)
    (ab : list (C * C)) (d1_z1 d3_z1 psi zeta ha hb : list C)
  : result (list (C * C)) :=
  (* iterate into medium *)
  z1 <- getitem x (-1) ;;
  d1_z1 <- foreach (range_down top) (d1_step_medium z1) d1_z1 ;;
  (* upward recurrence for Psi, Zeta, PsiZeta and D3 *)
  psi <- assign psi 0 (RtoC (sin z1)) ;;
  zeta <- assign zeta 0 (- Ci * Cexp (Ci * RtoC z1))%C ;;
  let psizeta := (RtoC 0.5 * (C1 - Cexp (mkC 0 2 * RtoC z1)))%C in
  s <- foreach (range 1 (Z.to_nat (nmax + 1))) (medium_step z1 d1_z1)
         (mkMedium psi zeta psizeta d3_z1) ;;
  (* scattering coefficients *)
  let n := map (fun i => INR i) (seq 0 (Z.to_nat (nmax + 1))) in
  mlast <- getitem m (-1) ;;
  xlast <- getitem x (-1) ;;
  fac <- broadcast Cadd (map (fun h => h / mlast)%C ha)
                        (map (fun i => RtoC (i / xlast)) n) ;;
  col <- column fac (ms_psi s) (ms_zeta s) ;;
  ab <- set_column_a ab col ;;
  mlast <- getitem m (-1) ;;
  xlast <- getitem x (-1) ;;
  fac <- broadcast Cadd (map (fun h => h * mlast)%C hb)
                        (map (fun i => RtoC (i / xlast)) n) ;;
  col <- column fac (ms_psi s) (ms_zeta s) ;;
  ab <- set_column_b ab col ;;
  assign ab 0 (C0, C0).

Module Sphere.

(** [wiscombe_yang] of src/theory/Sphere.py *)
Definition wiscombe_yang (x : list R) (m : list C) : result Z :=
  xlast <- getitem x (-1) ;;
  let xl := Rabs xlast in
  let ns := wiscombe xl in
  xm <- abs_prod x m ;;
  xm_1 <- abs_prod (roll_left x) m ;;
  nstop <- py_max (PyFloat ns) [NdArray xm; NdArray xm_1] ;;
  py_int_of nstop.

(** "iterate outward from the sphere's core": the seed of Eq. (16a) is the
    last cell of an array of [nmax+2] cells, and [ha], [hb] are copies of
    all cells but the last. *)
Definition core (x : list R) (m : list C) (nmax : Z) (d1_z1 : list C)
  : result (list C * list C * list C) :=
  x0 <- item x 0 ;;
  m0 <- item m 0 ;;
  let z1 := (RtoC x0 * m0)%C in
  d1_z1 <- foreach (range_down (Z.to_nat (nmax + 1))) (d1_step z1) d1_z1 ;;
  let ha := removelast d1_z1 in
  let hb := removelast d1_z1 in
  Ok (d1_z1, ha, hb).

(** Lines 106-117: "initialization" and "iterate outward from the sphere's
    core", the first phase of [mie_coefficients]. *)
Definition phase_1 (x : list R) (m : list C) (nmax : Z)
    (d1_z1 d1_z2 d3_z1 d3_z2 : list C)
  : result (list C * list C * list C * list C * list C * list C) :=
  (* initialization *)
  d1_z1 <- setitem d1_z1 (-1) C0 ;;
  d1_z2 <- setitem d1_z2 (-1) C0 ;;
  d3_z1 <- assign d3_z1 0 Ci ;;
  d3_z2 <- assign d3_z2 0 Ci ;;
  (* iterate outward from the sphere's core *)
  '(d1_z1, ha, hb) <- core x m nmax d1_z1 ;;
  Ok (d1_z1, d1_z2, d3_z1, d3_z2, ha, hb).

(** One pass of the loop [for n in range(1, nmax+1)] of a layer:
    Eqs. (18c), (18d), (19b), the latter with [d3_z2[n]] and [d3_z1[n]] *)
Definition layer_up_step (x : list R) (ii : nat) (z1 z2 : C)
    (d1_z1 d1_z2 : list C) (n : nat) (s : layer_up) : result layer_up :=
  let nc := NtoC n in
  d1_z1_p <- item d1_z1 (n - 1) ;;
  d3_z1_p <- item (lu_d3_z1 s) (n - 1) ;;
  let psizeta_z1 := (lu_psizeta_z1 s * ((nc / z1 - d1_z1_p) * (nc / z1 - d3_z1_p)))%C in
  d1_z2_p <- item d1_z2 (n - 1) ;;
  d3_z2_p <- item (lu_d3_z2 s) (n - 1) ;;
  let psizeta_z2 := (lu_psizeta_z2 s * ((nc / z2 - d1_z2_p) * (nc / z2 - d3_z2_p)))%C in
  d1_z1_n <- item d1_z1 n ;;
  d3_z1 <- assign (lu_d3_z1 s) n (d1_z1_n + Ci / psizeta_z1)%C ;;
  d1_z2_n <- item d1_z2 n ;;
  d3_z2 <- assign (lu_d3_z2 s) n (d1_z2_n + Ci / psizeta_z2)%C ;;
  q_p <- item (lu_q s) (n - 1) ;;
  x_in <- item x (ii - 1) ;;
  x_out <- item x ii ;;
  d1_z2_n <- item d1_z2 n ;;
  d1_z1_n <- item d1_z1 n ;;
  d3_z2_n <- item d3_z2 n ;;
  d3_z1_n <- item d3_z1 n ;;
  q <- assign (lu_q s) n
         (q_p * RtoC ((x_in / x_out) ^ 2)
          * (z2 * d1_z2_n + nc) / (z1 * d1_z1_n + nc)
          * (nc - z2 * d3_z2_n) / (nc - z1 * d3_z1_n))%C ;;
  Ok (mkLayerUp psizeta_z1 psizeta_z2 d3_z1 d3_z2 q).

(** The body of [for ii in range(1, nlayers)] *)
Definition layer (x : list R) (m : list C) (nmax : Z) (ii : nat) (s : layer_state)
  : result layer_state :=
  x_out <- item x ii ;;
  m_out <- item m ii ;;
  let z1 := (RtoC x_out * m_out)%C in
  x_in <- item x (ii - 1) ;;
  m_out <- item m ii ;;
  let z2 := (RtoC x_in * m_out)%C in
  (* downward recurrence for D1 *)
  d <- foreach (range_down (Z.to_nat (nmax + 1))) (d1_step_pair z1 z2)
         (ls_d1_z1 s, ls_d1_z2 s) ;;
  let d1_z1 := fst d in
  let d1_z2 := snd d in
  (* upward recurrence for PsiZeta, D3, Q *)
  let psizeta_z1 := (RtoC 0.5 * (C1 - Cexp (mkC 0 2 * z1)))%C in
  let psizeta_z2 := (RtoC 0.5 * (C1 - Cexp (mkC 0 2 * z2)))%C in
  q <- assign (ls_q s) 0
         ((Cexp (- mkC 0 2 * z2) - C1) / (Cexp (- mkC 0 2 * z1) - C1))%C ;;
  u <- foreach (range 1 (Z.to_nat (nmax + 1))) (layer_up_step x ii z1 z2 d1_z1 d1_z2)
         (mkLayerUp psizeta_z1 psizeta_z2 (ls_d3_z1 s) (ls_d3_z2 s) q) ;;
  (* update Ha and Hb *)
  m_in <- item m (ii - 1) ;;
  ha <- h_update (fun q g1 => broadcast Cmul g1 q) m_out m_in (ls_ha s)
          d1_z1 d1_z2 (lu_d3_z1 u) (lu_d3_z2 u) (lu_q u) ;;
  hb <- h_update (fun q g1 => broadcast Cmul g1 q) m_in m_out (ls_hb s)
          d1_z1 d1_z2 (lu_d3_z1 u) (lu_d3_z2 u) (lu_q u) ;;
  Ok (mkLayer d1_z1 d1_z2 (lu_d3_z1 u) (lu_d3_z2 u) (lu_q u) ha hb).

(** [mie_coefficients] of src/theory/Sphere.py; [a_p] and [n_p] are the
    arrays that [np.atleast_1d] returns. *)
Definition mie_coefficients (uninit : nat -> C)
    (a_p : list R) (n_p : list C) (n_m : C) (wavelength : R)
  : result (list (C * C)) :=
  let nlayers := length a_p in
  (* size parameters for layers *)
  k <- (if Req_dec_T wavelength 0 then Raise ZeroDivisionError
        else Ok (2 * PI * Re n_m / wavelength)) ;;
  let x := map (fun a_j => k * a_j) a_p in
  let m := map (fun n_j => n_j / n_m)%C n_p in
  (* number of terms in partial-wave expansion *)
  nmax <- wiscombe_yang x m ;;
  (* storage for results *)
  ab <- np_empty_rows uninit (nmax + 1) ;;
  d1_z1 <- np_empty uninit (nmax + 2) ;;
  d1_z2 <- np_empty uninit (nmax + 2) ;;
  d3_z1 <- np_empty uninit (nmax + 1) ;;
  d3_z2 <- np_empty uninit (nmax + 1) ;;
  psi <- np_empty uninit (nmax + 1) ;;
  zeta <- np_empty uninit (nmax + 1) ;;
  q <- np_empty uninit (nmax + 1) ;;
  (* initialization; iterate outward from the sphere's core *)
  '(d1_z1, d1_z2, d3_z1, d3_z2, ha, hb) <- phase_1 x m nmax d1_z1 d1_z2 d3_z1 d3_z2 ;;
  (* iterate outward from layer 2 to layer L *)
  s <- foreach (range 1 nlayers) (layer x m nmax)
         (mkLayer d1_z1 d1_z2 d3_z1 d3_z2 q ha hb) ;;
  (* iterate into medium, scattering coefficients *)
  into_medium (Z.to_nat (nmax + 1)) x m nmax ab (ls_d1_z1 s) (ls_d3_z1 s) psi zeta
    (ls_ha s) (ls_hb s).

End Sphere.

Module FastSphere.

(** [wiscombe_yang] of src/theory/FastSphere.py, compiled.  [x[-1]] is read
    without a bounds check: of an empty [x] it is whatever lies before the
    array, and its value does not matter, as [xm.max()] then raises. *)
Definition wiscombe_yang (x : list R) (m : list C) : result Z :=
  let xl := Rabs (last x 0) in
  let ns := wiscombe xl in
  xm <- abs_prod x m ;;
  xm_1 <- abs_prod (roll_left x) m ;;
  xm_max <- np_max xm ;;
  xm_1_max <- np_max xm_1 ;;
  nstop <- py_max (PyFloat ns) [PyFloat xm_max; PyFloat xm_1_max] ;;
  py_int_of nstop.

(** Eq. (16b) for a complex argument,
    [d1[n-1] = n/z - 1./(d1[n] + n/z)]: the quotient [n/z], written twice,
    and the quotient [1./(...)] are divisions of scalars. *)
Definition d1_step (z : C) (n : nat) (d1 : list C) : result (list C) :=
  nz <- jit_div (NtoC n) z ;;
  d1n <- item d1 n ;;
  r <- jit_div C1 (d1n + nz)%C ;;
  assign d1 (n - 1) (nz - r)%C.

(** The two statements of the layer loop's downward recurrence *)
Definition d1_step_pair (z1 z2 : C) (n : nat) (d : list C * list C)
  : result (list C * list C) :=
  d1_z1 <- d1_step z1 n (fst d) ;;
  d1_z2 <- d1_step z2 n (snd d) ;;
  Ok (d1_z1, d1_z2).

(** Eq. (16b) in the medium, where [z1 = x[-1]] is a float:
    [d1_z1[n-1] = n/z1 - (1./(d1_z1[n] + n/z1))] *)
Definition d1_step_medium (z1 : R) (n : nat) (d1 : list C) : result (list C) :=
  nz <- jit_fdiv (INR n) z1 ;;
  d1n <- item d1 n ;;
  r <- jit_div C1 (d1n + RtoC nz)%C ;;
  assign d1 (n - 1) (RtoC nz - r)%C.

(** Eqs. (20b), (21b), (18c), (18d): one pass of the loop
    [for n in range(1, nmax+1)] of the last phase.  The quotient [n/z1]
    occurs four times; it raises, or not, the first time. *)
Definition medium_step (z1 : R) (d1_z1 : list C) (n : nat) (s : medium_state)
  : result medium_state :=
  psi_p <- item (ms_psi s) (n - 1) ;;
  q <- jit_fdiv (INR n) z1 ;;
  let nz := RtoC q in
  d1_p <- item d1_z1 (n - 1) ;;
  psi <- assign (ms_psi s) n (psi_p * (nz - d1_p))%C ;;
  zeta_p <- item (ms_zeta s) (n - 1) ;;
  d3_p <- item (ms_d3_z1 s) (n - 1) ;;
  zeta <- assign (ms_zeta s) n (zeta_p * (nz - d3_p))%C ;;
  let psizeta := (ms_psizeta s * ((nz - d1_p) * (nz - d3_p)))%C in
  d1_n <- item d1_z1 n ;;
  t <- jit_div Ci psizeta ;;
  d3_z1 <- assign (ms_d3_z1 s) n (d1_n + t)%C ;;
  Ok (mkMedium psi zeta psizeta d3_z1).

(** One pass of the loop [for n in range(1, nmax+1)] of a layer:
    Eqs. (18c), (18d), (19b), the latter with [d3_z2[n-1]] and
    [d3_z1[n-1]].  [x[ii-1]] and [x[ii]] are read unchecked. *)
Definition layer_up_step (wild : nat -> C) (x : list R) (ii : nat) (z1 z2 : C)
    (d1_z1 d1_z2 : list C) (n : nat) (s : layer_up) : result layer_up :=
  let nc := NtoC n in
  nz1 <- jit_div nc z1 ;;
  d1_z1_p <- item d1_z1 (n - 1) ;;
  d3_z1_p <- item (lu_d3_z1 s) (n - 1) ;;
  let psizeta_z1 := (lu_psizeta_z1 s * ((nz1 - d1_z1_p) * (nz1 - d3_z1_p)))%C in
  nz2 <- jit_div nc z2 ;;
  d1_z2_p <- item d1_z2 (n - 1) ;;
  d3_z2_p <- item (lu_d3_z2 s) (n - 1) ;;
  let psizeta_z2 := (lu_psizeta_z2 s * ((nz2 - d1_z2_p) * (nz2 - d3_z2_p)))%C in
  d1_z1_n <- item d1_z1 n ;;
  t1 <- jit_div Ci psizeta_z1 ;;
  d3_z1 <- assign (lu_d3_z1 s) n (d1_z1_n + t1)%C ;;
  d1_z2_n <- item d1_z2 n ;;
  t2 <- jit_div Ci psizeta_z2 ;;
  d3_z2 <- assign (lu_d3_z2 s) n (d1_z2_n + t2)%C ;;
  q_p <- item (lu_q s) (n - 1) ;;
  let x_in := unchecked (fun i => Re (wild i)) x (ii - 1) in
  let x_out := unchecked (fun i => Re (wild i)) x ii in
  r <- jit_fdiv x_in x_out ;;
  d1_z2_n <- item d1_z2 n ;;
  d1_z1_n <- item d1_z1 n ;;
  u <- jit_div (q_p * RtoC (r ^ 2) * (z2 * d1_z2_n + nc))%C (z1 * d1_z1_n + nc)%C ;;
  d3_z2_p <- item d3_z2 (n - 1) ;;
  d3_z1_p <- item d3_z1 (n - 1) ;;
  v <- jit_div (u * (nc - z2 * d3_z2_p))%C (nc - z1 * d3_z1_p)%C ;;
  q <- assign (lu_q s) n v ;;
  Ok (mkLayerUp psizeta_z1 psizeta_z2 d3_z1 d3_z2 q).

(** The body of [for ii in range(1, nlayers)]; [m[ii]], [x[ii]], [x[ii-1]]
    and [m[ii-1]] are read unchecked, and the update of [ha] and [hb] is
    made of array expressions. *)
Definition layer (wild : nat -> C) (x : list R) (m : list C) (nmax : Z) (ii : nat)
    (s : layer_state) : result layer_state :=
  let m_out := unchecked wild m ii in
  let x_out := unchecked (fun i => Re (wild i)) x ii in
  let z1 := (m_out * RtoC x_out)%C in
  let x_in := unchecked (fun i => Re (wild i)) x (ii - 1) in
  let z2 := (m_out * RtoC x_in)%C in
  (* downward recurrence for D1 (D1[nmax] = 0) *)
  d <- foreach (range_down (Z.to_nat nmax)) (d1_step_pair z1 z2)
         (ls_d1_z1 s, ls_d1_z2 s) ;;
  let d1_z1 := fst d in
  let d1_z2 := snd d in
  (* upward recurrence for PsiZeta, D3, Q *)
  let a1 := Re z1 in
  let b1 := Im z1 in
  let a2 := Re z2 in
  let b2 := Im z2 in
  let psizeta_z1 :=
    (RtoC 0.5 * (C1 - Cexp (mkC 0 2 * RtoC a1) * RtoC (exp (- 2 * b1))))%C in
  let psizeta_z2 :=
    (RtoC 0.5 * (C1 - Cexp (mkC 0 2 * RtoC a2) * RtoC (exp (- 2 * b2))))%C in
  q0 <- jit_div (Cexp (- mkC 0 2 * RtoC a1) - RtoC (exp (- 2 * b1)))%C
          (Cexp (- mkC 0 2 * RtoC a2) - RtoC (exp (- 2 * b2)))%C ;;
  q <- assign (ls_q s) 0 (q0 * RtoC (exp (- 2 * (b2 - b1))))%C ;;
  u <- foreach (range 1 (Z.to_nat (nmax + 1)))
         (layer_up_step wild x ii z1 z2 d1_z1 d1_z2)
         (mkLayerUp psizeta_z1 psizeta_z2 (ls_d3_z1 s) (ls_d3_z2 s) q) ;;
  (* update Ha and Hb *)
  let m_in := unchecked wild m (ii - 1) in
  ha <- h_update (fun q g1 => broadcast Cmul q g1) m_out m_in (ls_ha s)
          d1_z1 d1_z2 (lu_d3_z1 u) (lu_d3_z2 u) (lu_q u) ;;
  hb <- h_update (fun q g1 => broadcast Cmul q g1) m_in m_out (ls_hb s)
          d1_z1 d1_z2 (lu_d3_z1 u) (lu_d3_z2 u) (lu_q u) ;;
  Ok (mkLayer d1_z1 d1_z2 (lu_d3_z1 u) (lu_d3_z2 u) (lu_q u) ha hb).

(** Lines 134-146: "initialization" and "iterate outward from the sphere's
    core", the first phase of the kernel.  The seed of Eq. (16a) is cell
    [nmax] of an array of [nmax+1] cells, and [ha], [hb] are copies of the
    whole array. *)
Definition phase_1 (wild : nat -> C) (x : list R) (m : list C) (nmax : Z)
    (d1_z1 d1_z2 d3_z1 d3_z2 : list C)
  : result (list C * list C * list C * list C * list C * list C) :=
  (* initialization *)
  d1_z1 <- setitem d1_z1 nmax C0 ;;
  d1_z2 <- setitem d1_z2 nmax C0 ;;
  d3_z1 <- assign d3_z1 0 Ci ;;
  d3_z2 <- assign d3_z2 0 Ci ;;
  (* iterate outward from the sphere's core *)
  let z1 := (RtoC (unchecked (fun i => Re (wild i)) x 0) * unchecked wild m 0)%C in
  d1_z1 <- foreach (range_down (Z.to_nat nmax)) (d1_step z1) d1_z1 ;;
  let ha := d1_z1 in
  let hb := d1_z1 in
  Ok (d1_z1, d1_z2, d3_z1, d3_z2, ha, hb).

(** Lines 187-211: "iterate into medium" and "Scattering coefficients".
    The two loops divide scalars; the assembly of the table is made of
    array expressions. *)
Definition into_medium (wild : nat -> C) (x : list R) (m : list C) (nmax : Z)
    (ab : list (C * C)) (d1_z1 d3_z1 psi zeta ha hb : list C)
  : result (list (C * C)) :=
  (* iterate into medium (m = 1.) *)
  let z1 := unchecked_last (fun i => Re (wild i)) x in
  d1_z1 <- foreach (range_down (Z.to_nat nmax)) (d1_step_medium z1) d1_z1 ;;
  (* upward recurrence for Psi, Zeta, PsiZeta and D3 *)
  psi <- assign psi 0 (RtoC (sin z1)) ;;
  zeta <- assign zeta 0 (- Ci * Cexp (Ci * RtoC z1))%C ;;
  let psizeta := (RtoC 0.5 * (C1 - Cexp (mkC 0 2 * RtoC z1)))%C in
  s <- foreach (range 1 (Z.to_nat (nmax + 1))) (medium_step z1 d1_z1)
         (mkMedium psi zeta psizeta d3_z1) ;;
  (* scattering coefficients *)
  let n := map (fun i => INR i) (seq 0 (Z.to_nat (nmax + 1))) in
  let mlast := unchecked_last wild m in
  let xlast := unchecked_last (fun i => Re (wild i)) x in
  fac <- broadcast Cadd (map (fun h => h / mlast)%C ha)
                        (map (fun i => RtoC (i / xlast)) n) ;;
  col <- column fac (ms_psi s) (ms_zeta s) ;;
  ab <- set_column_a ab col ;;
  fac <- broadcast Cadd (map (fun h => h * mlast)%C hb)
                        (map (fun i => RtoC (i / xlast)) n) ;;
  col <- column fac (ms_psi s) (ms_zeta s) ;;
  ab <- set_column_b ab col ;;
  assign ab 0 (C0, C0).

(** [_mie_coefficients] of src/theory/FastSphere.py, compiled: the kernel
    works on the arrays its caller allocated.  [wild] is what the memory
    holds outside the arrays [x] and [m]; the work arrays are accessed
    within their bounds in every call that [mie_coefficients] makes. *)
Definition _mie_coefficients (wild : nat -> C) (a_p : list R) (n_p : list C)
    (k_p : list R) (n_m : C) (wavelength : R) (x : list R) (m : list C) (nmax : Z)
    (ab : list (C * C)) (d1_z1 d1_z2 d3_z1 d3_z2 psi zeta q : list C)
  : result (list (C * C)) :=
  (* initialization; iterate outward from the sphere's core *)
  '(d1_z1, d1_z2, d3_z1, d3_z2, ha, hb) <-
    phase_1 wild x m nmax d1_z1 d1_z2 d3_z1 d3_z2 ;;
  (* iterate outward from layer 2 to layer L *)
  let nlayers := length a_p in
  s <- foreach (range 1 nlayers) (layer wild x m nmax)
         (mkLayer d1_z1 d1_z2 d3_z1 d3_z2 q ha hb) ;;
  (* iterate into medium (m = 1.), scattering coefficients *)
  into_medium wild x m nmax ab (ls_d1_z1 s) (ls_d3_z1 s) psi zeta
    (ls_ha s) (ls_hb s).

(** [mie_coefficients] of src/theory/FastSphere.py; [a_p], [n_p] and
    [k_p] are the arrays that [np.atleast_1d] returns.  This function is
    not compiled: its arithmetic is numpy's. *)
Definition mie_coefficients (uninit : nat -> C)
    (a_p : list R) (n_p : list C) (k_p : list R) (n_m : C) (wavelength : R)
  : result (list (C * C)) :=
  (* size parameters for layers *)
  k <- (if Req_dec_T wavelength 0 then Raise ZeroDivisionError
        else Ok (2 * PI / wavelength)) ;;
  let k := k * Re n_m in
  let x := map (fun a_j => k * a_j) a_p in
  nk <- broadcast (fun n_j k_j => n_j + Ci * RtoC k_j)%C n_p k_p ;;
  let m := map (fun c => c / n_m)%C nk in
  (* number of terms in partial-wave expansion *)
  nmax <- wiscombe_yang x m ;;
  (* storage for results *)
  ab <- np_empty_rows uninit (nmax + 1) ;;
  d1_z1 <- np_empty uninit (nmax + 1) ;;
  d1_z2 <- np_empty uninit (nmax + 1) ;;
  d3_z1 <- np_empty uninit (nmax + 1) ;;
  d3_z2 <- np_empty uninit (nmax + 1) ;;
  psi <- np_empty uninit (nmax + 1) ;;
  zeta <- np_empty uninit (nmax + 1) ;;
  q <- np_empty uninit (nmax + 1) ;;
  _mie_coefficients uninit a_p n_p k_p n_m wavelength x m nmax
    ab d1_z1 d1_z2 d3_z1 d3_z2 psi zeta q.

End FastSphere.

(** ** The truncation rule in the words of the specification (section 4.1) *)

Definition spec_ns (xl : R) : Z :=
  if Rle_dec xl 8 then Zfloor (xl + 4 * float_pow xl (1 / 3) + 1)
  else if Rle_dec xl 4200 then Zfloor (xl + 4.05 * float_pow xl (1 / 3) + 2)
  else Zfloor (xl + 4 * float_pow xl (1 / 3) + 2).

(** [max] of a non-empty sequence *)
Definition maximum (l : list R) : R :=
  match l with
  | [] => 0
  | a :: t => fold_right Rmax a t
  end.

Definition spec_select (x : list R) (m : list C) : Z :=
  let L := length x in
  let xl := Rabs (last x 0) in
  let xm := map (fun j => Cabs (RtoC (nth j x 0) * nth j m C0)) (seq 0 L) in
  let xm' :=
    map (fun j => Cabs (RtoC (nth ((j + 1) mod L) x 0) * nth j m C0)) (seq 0 L) in
  Zfloor (Rmax (IZR (spec_ns xl)) (Rmax (maximum xm) (maximum xm'))).

(** ** Closed forms of the recurrences

    The values that the loops leave in their arrays, as functions of the
    index.  They are used to state which divisors a run meets. *)

(** [n/z] for a complex [z] and [n/z1] for a float [z1] *)
Definition over_complex (z : C) (n : nat) : C := (NtoC n / z)%C.
Definition over_float (z1 : R) (n : nat) : C := RtoC (INR n / z1).

(** Eq. (16b) with the quotient [n/z] given as [nz n] *)
Definition d1_update (nz : nat -> C) (n : nat) (d1 : list C) : result (list C) :=
  d1n <- item d1 n ;;
  assign d1 (n - 1) (nz n - C1 / (d1n + nz n))%C.

(** Cell [top - gap] after the downward loop [range(top, 0, -1)], cell
    [top] holding the seed [0] *)
Fixpoint D1_gap (nz : nat -> C) (top gap : nat) : C :=
  match gap with
  | O => C0
  | S g => let n := (top - g)%nat in (nz n - C1 / (D1_gap nz top g + nz n))%C
  end.

Definition D1 (nz : nat -> C) (top i : nat) : C := D1_gap nz top (top - i).

Definition D1_list (nz : nat -> C) (top : nat) : list C :=
  map (D1 nz top) (seq 0 (S top)).

(** [psi[n]], [zeta[n]], [psizeta] and [d3_z1[n]] after pass [n] of the
    upward loop in the medium *)
Record medium_point : Type := mkMediumPoint {
  mp_psi : C;
  mp_zeta : C;
  mp_psizeta : C;
  mp_d3 : C
}.

Fixpoint medium_at (z1 : R) (d1 : nat -> C) (n : nat) : medium_point :=
  match n with
  | O => mkMediumPoint (RtoC (sin z1)) (- Ci * Cexp (Ci * RtoC z1))%C
           (RtoC 0.5 * (C1 - Cexp (mkC 0 2 * RtoC z1)))%C Ci
  | S k =>
      let p := medium_at z1 d1 k in
      let nz := over_float z1 n in
      let psizeta := (mp_psizeta p * ((nz - d1 k) * (nz - mp_d3 p)))%C in
      mkMediumPoint (mp_psi p * (nz - d1 k))%C (mp_zeta p * (nz - mp_d3 p))%C
        psizeta (d1 n + Ci / psizeta)%C
  end.

(** Eqs. (5), (6) at index [n >= 1] for a given [fac] *)
Definition coefficient (z1 : R) (d1 : nat -> C) (fac : C) (n : nat) : C :=
  let p := medium_at z1 d1 n in
  let p' := medium_at z1 d1 (n - 1) in
  ((fac * mp_psi p - mp_psi p') / (fac * mp_zeta p - mp_zeta p'))%C.

Definition fac_a (xlast : R) (mlast : C) (ha : list C) (n : nat) : C :=
  (nth n ha C0 / mlast + RtoC (INR n / xlast))%C.

Definition fac_b (xlast : R) (mlast : C) (hb : list C) (n : nat) : C :=
  (nth n hb C0 * mlast + RtoC (INR n / xlast))%C.

(** The table that [into_medium] returns *)
Definition table (top N : nat) (xlast : R) (mlast : C) (ha hb : list C)
  : list (C * C) :=
  let d1 := D1 (over_float xlast) top in
  (C0, C0)
  :: map (fun n => (coefficient xlast d1 (fac_a xlast mlast ha n) n,
                    coefficient xlast d1 (fac_b xlast mlast hb n) n))
       (seq 1 N).

(** Every divisor met by the downward loop of the core is non-zero. *)
Definition core_defined (top : nat) (z : C) : Prop :=
  z <> C0
  /\ forall n, (1 <= n <= top)%nat ->
       (D1 (over_complex z) top n + over_complex z n)%C <> C0.

(** Invariant of the upward loop in the medium before pass [n] *)
Definition medium_inv (z1 : R) (d1 : nat -> C) (N n : nat) (s : medium_state) : Prop :=
  length (ms_psi s) = S N /\ length (ms_zeta s) = S N /\ length (ms_d3_z1 s) = S N
  /\ ms_psizeta s = mp_psizeta (medium_at z1 d1 (n - 1))
  /\ forall i, (i < n)%nat ->
       nth i (ms_psi s) C0 = mp_psi (medium_at z1 d1 i)
       /\ nth i (ms_zeta s) C0 = mp_zeta (medium_at z1 d1 i)
       /\ nth i (ms_d3_z1 s) C0 = mp_d3 (medium_at z1 d1 i).

(** ** The table of a single-layer run, in closed form *)

(** [ha = hb] after the core: [d1_z1[0:-1]] of an array seeded in cell
    [nmax+1] (Sphere.py), and the whole array seeded in cell [nmax]
    (FastSphere.py) *)
Definition Sphere_core_h (z : C) (N : nat) : list C :=
  map (D1 (over_complex z) (S N)) (seq 0 (S N)).

Definition FastSphere_core_h (z : C) (N : nat) : list C :=
  D1_list (over_complex z) N.

Definition Sphere_single_table (a_p : R) (n_p n_m : C) (wavelength : R)
  : list (C * C) :=
  let x0 := 2 * PI * Re n_m / wavelength * a_p in
  let m0 := (n_p / n_m)%C in
  let N := Z.to_nat (spec_select [x0] [m0]) in
  let h := Sphere_core_h (RtoC x0 * m0) N in
  table (S N) N x0 m0 h h.

(** The selector [sel] never lowers the truncation order when the outermost
    size parameter grows and everything else is kept. *)
Definition selector_monotone (sel : list R -> list C -> result Z) : Prop :=
  forall (pre : list R) (m : list C) (a b : R) (N N' : Z),
    length m = S (length pre) -> 0 <= a <= b ->
    sel (pre ++ [a]) m = Ok N -> sel (pre ++ [b]) m = Ok N' -> (N <= N')%Z.

(** ** A layer of the JIT kernel, in closed form *)

(** [psizeta_z1], [psizeta_z2], [d3_z1[n]], [d3_z2[n]] and [q[n]] after
    pass [n] of the upward loop of a layer *)
Record layer_point : Type := mkLayerPoint {
  lp_psizeta_z1 : C;
  lp_psizeta_z2 : C;
  lp_d3_z1 : C;
  lp_d3_z2 : C;
  lp_q : C
}.

Fixpoint FastSphere_layer_at (ratio z1 z2 : C) (d1_z1 d1_z2 : nat -> C)
    (start : layer_point) (n : nat) : layer_point :=
  match n with
  | O => start
  | S k =>
      let p := FastSphere_layer_at ratio z1 z2 d1_z1 d1_z2 start k in
      let nc := NtoC n in
      let psizeta_z1 :=
        (lp_psizeta_z1 p * ((nc / z1 - d1_z1 k) * (nc / z1 - lp_d3_z1 p)))%C in
      let psizeta_z2 :=
        (lp_psizeta_z2 p * ((nc / z2 - d1_z2 k) * (nc / z2 - lp_d3_z2 p)))%C in
      mkLayerPoint psizeta_z1 psizeta_z2
        (d1_z1 n + Ci / psizeta_z1)%C (d1_z2 n + Ci / psizeta_z2)%C
        (lp_q p * ratio
         * (z2 * d1_z2 n + nc) / (z1 * d1_z1 n + nc)
         * (nc - z2 * lp_d3_z2 p) / (nc - z1 * lp_d3_z1 p))%C
  end.

(** The values before the first pass: Eq. (18a) at both arguments, the
    seeds of Eq. (18b), and Eq. (19a) *)
Definition FastSphere_layer_start (z1 z2 : C) : layer_point :=
  let a1 := Re z1 in
  let b1 := Im z1 in
  let a2 := Re z2 in
  let b2 := Im z2 in
  mkLayerPoint
    (RtoC 0.5 * (C1 - Cexp (mkC 0 2 * RtoC a1) * RtoC (exp (- 2 * b1))))%C
    (RtoC 0.5 * (C1 - Cexp (mkC 0 2 * RtoC a2) * RtoC (exp (- 2 * b2))))%C
    Ci Ci
    ((Cexp (- mkC 0 2 * RtoC a1) - RtoC (exp (- 2 * b1)))
     / (Cexp (- mkC 0 2 * RtoC a2) - RtoC (exp (- 2 * b2)))
     * RtoC (exp (- 2 * (b2 - b1))))%C.

(** Eqs. (12), (13), (7b) at one index *)
Definition h_formula (ma mb h d1_z1 d1_z2 d3_z1 d3_z2 q : C) : C :=
  let g1 := (ma * h - mb * d1_z2)%C in
  let g2 := (ma * h - mb * d3_z2)%C in
  ((g2 * d1_z1 - q * g1 * d3_z1) / (g2 - q * g1))%C.

(** The layer between size parameters [x_in] and [x_out], of relative
    index [m_out], at index [n] *)
Definition FastSphere_layer_point (x_in x_out : R) (m_out : C) (N n : nat)
  : layer_point :=
  let z1 := (m_out * RtoC x_out)%C in
  let z2 := (m_out * RtoC x_in)%C in
  FastSphere_layer_at (RtoC ((x_in / x_out) ^ 2)) z1 z2
    (D1 (over_complex z1) N) (D1 (over_complex z2) N)
    (FastSphere_layer_start z1 z2) n.

Definition FastSphere_layer_h (x_in x_out : R) (ma mb m_out : C) (N : nat)
    (h : list C) : list C :=
  let z1 := (m_out * RtoC x_out)%C in
  let z2 := (m_out * RtoC x_in)%C in
  map (fun n =>
         let p := FastSphere_layer_point x_in x_out m_out N n in
         h_formula ma mb (nth n h C0)
           (D1 (over_complex z1) N n) (D1 (over_complex z2) N n)
           (lp_d3_z1 p) (lp_d3_z2 p) (lp_q p))
    (seq 0 (S N)).

(** Invariant of the upward loop of a layer before pass [n] *)
Definition layer_up_inv (at_ : nat -> layer_point) (N n : nat) (s : layer_up) : Prop :=
  length (lu_d3_z1 s) = S N /\ length (lu_d3_z2 s) = S N /\ length (lu_q s) = S N
  /\ lu_psizeta_z1 s = lp_psizeta_z1 (at_ (n - 1)%nat)
  /\ lu_psizeta_z2 s = lp_psizeta_z2 (at_ (n - 1)%nat)
  /\ forall i, (i < n)%nat ->
       nth i (lu_d3_z1 s) C0 = lp_d3_z1 (at_ i)
       /\ nth i (lu_d3_z2 s) C0 = lp_d3_z2 (at_ i)
       /\ nth i (lu_q s) C0 = lp_q (at_ i).

(** What one layer of the JIT kernel needs of the arrays it receives, and
    keeps *)
Definition layer_ready (N : nat) (s : layer_state) : Prop :=
  length (ls_d1_z1 s) = S N /\ length (ls_d1_z2 s) = S N
  /\ length (ls_d3_z1 s) = S N /\ length (ls_d3_z2 s) = S N
  /\ length (ls_q s) = S N /\ length (ls_ha s) = S N /\ length (ls_hb s) = S N
  /\ nth N (ls_d1_z1 s) C0 = C0 /\ nth N (ls_d1_z2 s) C0 = C0
  /\ nth 0 (ls_d3_z1 s) C0 = Ci /\ nth 0 (ls_d3_z2 s) C0 = Ci.

(** Malformed input in the sense of the specification (section 7) *)
Definition malformed (a_p : list R) (n_p : list C) (wavelength : R) : Prop :=
  length a_p <> length n_p \/ a_p = []
  \/ (exists a, In a a_p /\ a <= 0) \/ wavelength <= 0.

(** The divisor of Eqs. (7b), (8b) at one index *)
Definition h_divisor (ma mb h d1_z2 d3_z2 q : C) : C :=
  let g1 := (ma * h - mb * d1_z2)%C in
  let g2 := (ma * h - mb * d3_z2)%C in
  (g2 - q * g1)%C.

(** Every divisor met by a layer of the JIT kernel is non-zero. *)
Definition FastSphere_layer_defined (x_in x_out : R) (m_in m_out : C) (N : nat)
    (ha hb : list C) : Prop :=
  let z1 := (m_out * RtoC x_out)%C in
  let z2 := (m_out * RtoC x_in)%C in
  let p := FastSphere_layer_point x_in x_out m_out N in
  z1 <> C0 /\ z2 <> C0 /\ x_out <> 0
  /\ (Cexp (- mkC 0 2 * RtoC (Re z2)) - RtoC (exp (- 2 * Im z2)))%C <> C0
  /\ (forall n, (1 <= n <= N)%nat ->
        (D1 (over_complex z1) N n + over_complex z1 n)%C <> C0
        /\ (D1 (over_complex z2) N n + over_complex z2 n)%C <> C0
        /\ lp_psizeta_z1 (p n) <> C0 /\ lp_psizeta_z2 (p n) <> C0
        /\ (z1 * D1 (over_complex z1) N n + NtoC n)%C <> C0
        /\ (NtoC n - z1 * lp_d3_z1 (p (n - 1)%nat))%C <> C0)
  /\ (forall n, (n <= N)%nat ->
        h_divisor m_out m_in (nth n ha C0) (D1 (over_complex z2) N n)
          (lp_d3_z2 (p n)) (lp_q (p n)) <> C0
        /\ h_divisor m_in m_out (nth n hb C0) (D1 (over_complex z2) N n)
             (lp_d3_z2 (p n)) (lp_q (p n)) <> C0).

(** ** Any number of layers in the JIT kernel, in closed form *)

(** [ha] and [hb] after the core ([k = 0]) and after layer [k] of the loop
    [for ii in range(1, nlayers)] *)
Fixpoint FastSphere_layers_h (x : list R) (m : list C) (N k : nat) : list C * list C :=
  match k with
  | O => let h := FastSphere_core_h (RtoC (nth 0 x 0) * nth 0 m C0) N in (h, h)
  | S k' =>
      let hs := FastSphere_layers_h x m N k' in
      (FastSphere_layer_h (nth k' x 0) (nth k x 0) (nth k m C0) (nth k' m C0)
         (nth k m C0) N (fst hs),
       FastSphere_layer_h (nth k' x 0) (nth k x 0) (nth k' m C0) (nth k m C0)
         (nth k m C0) N (snd hs))
  end.

(** [x = k * a_p] and [m = (n_p + 1.j*k_p) / n_m] of FastSphere.py for
    arrays of one length *)
Definition FastSphere_x (a_p : list R) (n_m : C) (wavelength : R) : list R :=
  map (fun a_j => 2 * PI / wavelength * Re n_m * a_j) a_p.

Definition FastSphere_m (n_p : list C) (k_p : list R) (n_m : C) : list C :=
  map (fun c => (c / n_m)%C) (zip_with (fun n_j k_j => (n_j + Ci * RtoC k_j)%C) n_p k_p).

Definition FastSphere_table (a_p : list R) (n_p : list C) (k_p : list R) (n_m : C)
    (wavelength : R) : list (C * C) :=
  let x := FastSphere_x a_p n_m wavelength in
  let m := FastSphere_m n_p k_p n_m in
  let N := Z.to_nat (spec_select x m) in
  let hs := FastSphere_layers_h x m N (length a_p - 1) in
  table N N (last x 0) (last m C0) (fst hs) (snd hs).

(** ** The divisors of a run of the JIT kernel

    The scalar divisions of the compiled kernel raise on a zero divisor.
    In terms of the closed forms above, a run meets no zero divisor when
    the following hold. *)

(** the downward and the upward loop of the last phase *)
Definition FastSphere_medium_runs (N : nat) (xlast : R) : Prop :=
  let d1 := D1 (over_float xlast) N in
  xlast <> 0
  /\ (forall n, (1 <= n <= N)%nat -> (d1 n + over_float xlast n)%C <> C0)
  /\ (forall n, (1 <= n <= N)%nat -> mp_psizeta (medium_at xlast d1 n) <> C0).

(** the loops of the layer between [x_in] and [x_out], and Eq. (19a) *)
Definition FastSphere_layer_runs (x_in x_out : R) (m_out : C) (N : nat) : Prop :=
  let z1 := (m_out * RtoC x_out)%C in
  let z2 := (m_out * RtoC x_in)%C in
  let p := FastSphere_layer_point x_in x_out m_out N in
  z1 <> C0 /\ z2 <> C0 /\ x_out <> 0
  /\ (Cexp (- mkC 0 2 * RtoC (Re z2)) - RtoC (exp (- 2 * Im z2)))%C <> C0
  /\ (forall n, (1 <= n <= N)%nat ->
        (D1 (over_complex z1) N n + over_complex z1 n)%C <> C0
        /\ (D1 (over_complex z2) N n + over_complex z2 n)%C <> C0
        /\ lp_psizeta_z1 (p n) <> C0 /\ lp_psizeta_z2 (p n) <> C0
        /\ (z1 * D1 (over_complex z1) N n + NtoC n)%C <> C0
        /\ (NtoC n - z1 * lp_d3_z1 (p (n - 1)%nat))%C <> C0).

(** a whole run on size parameters [x] and relative indices [m] *)
Definition FastSphere_runs (x : list R) (m : list C) (N : nat) : Prop :=
  core_defined N (RtoC (nth 0 x 0) * nth 0 m C0)
  /\ (forall ii, (1 <= ii < length x)%nat ->
        FastSphere_layer_runs (nth (ii - 1) x 0) (nth ii x 0) (nth ii m C0) N)
  /\ FastSphere_medium_runs N (last x 0).

(** ** The classes [Sphere] and [FastSphere]

    A value handed to a property setter, or returned by a getter, is a
    Python number or an array; [np.asarray] turns a number into a
    zero-dimensional array and leaves a flat sequence one-dimensional.
    The base class [Particle] is not part of [src/]; of an object only the
    two attributes that the class [Sphere] itself stores are modelled. *)

Inductive ndarray (A : Type) : Type :=
| Scalar (a : A)
| Vector (l : list A).
Arguments Scalar {A} a.
Arguments Vector {A} l.

Inductive pyobj (A : Type) : Type :=
| PyNumber (a : A)
| PyArray (v : ndarray A).
Arguments PyNumber {A} a.
Arguments PyArray {A} v.

(** [np.asarray(v, dtype=...)] *)
Definition asarray {A : Type} (v : pyobj A) : ndarray A :=
  match v with
  | PyNumber a => Scalar a
  | PyArray w => w
  end.

(** [v.size] *)
Definition size {A : Type} (v : ndarray A) : nat :=
  match v with
  | Scalar _ => 1
  | Vector l => length l
  end.

(** [np.asscalar(v)]: the element of an array of size 1 *)
Definition asscalar {A : Type} (v : ndarray A) : result A :=
  match v with
  | Scalar a => Ok a
  | Vector [a] => Ok a
  | Vector _ => Raise ValueError
  end.

(** [np.atleast_1d(v)] *)
Definition atleast_1d {A : Type} (v : ndarray A) : list A :=
  match v with
  | Scalar a => [a]
  | Vector l => l
  end.

Module SphereClass.

Record Sphere : Type := mkSphere {
  _a_p : ndarray R;
  _n_p : ndarray C
}.

(** [@property a_p] *)
Definition a_p (self : Sphere) : result (pyobj R) :=
  if (size (_a_p self) =? 1)%nat then
    a <- asscalar (_a_p self) ;; Ok (PyNumber a)
  else Ok (PyArray (_a_p self)).

(** [@a_p.setter] *)
Definition set_a_p (self : Sphere) (v : pyobj R) : Sphere :=
  mkSphere (asarray v) (_n_p self).

(** [@property n_p] *)
Definition n_p (self : Sphere) : result (pyobj C) :=
  if (size (_n_p self) =? 1)%nat then
    n <- asscalar (_n_p self) ;; Ok (PyNumber n)
  else Ok (PyArray (_n_p self)).

(** [@n_p.setter] *)
Definition set_n_p (self : Sphere) (v : pyobj C) : Sphere :=
  mkSphere (_a_p self) (asarray v).

(** [Sphere.ab]: [mie_coefficients(self.a_p, self.n_p, n_m, wavelength)],
    whose first statements pass both arguments through
    [np.atleast_1d(np.asarray(...))] *)
Definition ab (uninit : nat -> C) (self : Sphere) (n_m : C) (wavelength : R)
  : result (list (C * C)) :=
  a <- a_p self ;;
  n <- n_p self ;;
  Sphere.mie_coefficients uninit (atleast_1d (asarray a)) (atleast_1d (asarray n))
    n_m wavelength.

End SphereClass.

Module FastSphereClass.

(** An object of class [FastSphere] is a [Sphere] with the attributes that
    were assigned to it.  The method [ab] reads [self.k_p]; no method of
    the two classes assigns this attribute, so it is present only once
    something else has set it. *)
Record FastSphere : Type := mkFastSphere {
  sphere : SphereClass.Sphere;
  _k_p : option (pyobj R)
}.

(** [self.k_p] *)
Definition k_p (self : FastSphere) : result (pyobj R) :=
  match _k_p self with
  | Some k => Ok k
  | None => Raise AttributeError
  end.

(** [self.k_p = k] *)
Definition set_k_p (self : FastSphere) (k : pyobj R) : FastSphere :=
  mkFastSphere (sphere self) (Some k).

(** [FastSphere.ab]:
    [mie_coefficients(self.a_p, self.n_p, self.k_p, n_m, wavelength)] *)
Definition ab (uninit : nat -> C) (self : FastSphere) (n_m : C) (wavelength : R)
  : result (list (C * C)) :=
  a <- SphereClass.a_p (sphere self) ;;
  n <- SphereClass.n_p (sphere self) ;;
  k <- k_p self ;;
  FastSphere.mie_coefficients uninit (atleast_1d (asarray a)) (atleast_1d (asarray n))
    (atleast_1d (asarray k)) n_m wavelength.

End FastSphereClass.

(** ** Training data: [src/utilities/mtd.py]

    A configuration value is a number or a list of numbers, as [json.load]
    returns it.  The random generator is not modelled: a function that
    draws takes the sample [u] of [random_sample()], [0 <= u < 1], as an
    argument.  The hologram that [feature_extent] obtains from the class
    [LMHologram] (not part of [src/]) is an argument as well. *)

Inductive config_value : Type :=
| Number (r : R)
| Numbers (l : list R).

(** [np.rint]: the nearest integer, a tie going to the even one *)
Definition np_rint (r : R) : Z :=
  let f := Zfloor r in
  if Rlt_dec (r - IZR f) (1 / 2) then f
  else if Rlt_dec (1 / 2) (r - IZR f) then (f + 1)%Z
  else if Z.even f then f else (f + 1)%Z.

(** [np.around(value, decimals)] for [decimals >= 0]:
    [rint(value * 10**decimals) / 10**decimals] *)
Definition np_around (value : R) (decimals : nat) : R :=
  IZR (np_rint (value * 10 ^ decimals)) / 10 ^ decimals.

(** [np.random.uniform(low, high)] for the sample [u] *)
Definition np_random_uniform (low high u : R) : R := low + (high - low) * u.

Definition make_value (range : config_value) (decimals : nat) (u : R) : result R :=
  value <- match range with
           | Number r => Ok r
           | Numbers l =>
               r0 <- item l 0 ;;
               r1 <- item l 1 ;;
               if Req_dec_T r0 r1 then item l 0
               else
                 r0 <- item l 0 ;;
                 r1 <- item l 1 ;;
                 Ok (np_random_uniform r0 r1 u)
           end ;;
  Ok (np_around value decimals).

(** [np.sign] *)
Definition np_sign (r : R) : R :=
  if Rlt_dec r 0 then -1 else if Rlt_dec 0 r then 1 else 0.

(** [np.diff] of a one-dimensional array *)
Fixpoint np_diff (l : list R) : list R :=
  match l with
  | u :: ((v :: _) as t) => (v - u) :: np_diff t
  | _ => []
  end.

(** [np.where(l)[0]]: the indices of the non-zero entries, counted from [i] *)
Fixpoint nonzero_from (i : nat) (l : list R) : list nat :=
  match l with
  | [] => []
  | v :: t => if Req_dec_T v 0 then nonzero_from (S i) t else i :: nonzero_from (S i) t
  end.

Definition np_where (l : list R) : list nat := nonzero_from 0 l.

(** [feature_extent] from the statement [b = h.hologram() - 1.] on;
    [hologram] is the value of [h.hologram()].  The result is [maxrange] or
    [float(ndx[nfringes])], an integer in both cases. *)
Definition feature_extent (hologram : list R) (nfringes maxrange : nat) : nat :=
  let b := map (fun v => v - 1) hologram in
  let ndx := map (fun i => (i + 1)%nat) (np_where (np_diff (map np_sign b))) in
  if (length ndx <? nfringes + 1)%nat then maxrange
  else nth nfringes ndx 0%nat.

(** ** Sampling masks: [src/fitting/Mask.py]

    [coordinates] is the two-dimensional array of the constructor, a list
    of rows; the dictionary [settings] has the two keys of the constructor,
    modelled as two fields.  Division follows Python 3 ([1/2] is [0.5]).
    [np.random.choice] is not modelled: [initialize_sample] takes the draw
    as a function [choice]. *)

(** [np.sum] *)
Definition np_sum (l : list R) : R := fold_right Rplus 0 l.

(** [array.min()] *)
Definition np_min (l : list R) : result R :=
  match l with
  | [] => Raise ValueError
  | a :: t => Ok (fold_left Rmin t a)
  end.

(** [normalize]: rescale so that the sum is 1 *)
Definition normalize (distribution : list R) : list R :=
  let total := np_sum distribution in
  map (fun i => i / total) distribution.

(** [gaussian] *)
Definition gaussian (x mu sig : R) : R :=
  exp (- (x - mu) ^ 2 / (2 * sig ^ 2)).

(** [l[idx] = v] for a list [idx] of integer indices *)
Fixpoint assign_each (l : list R) (idx : list Z) (v : R) : result (list R) :=
  match idx with
  | [] => Ok l
  | i :: idx' => l' <- setitem l i v ;; assign_each l' idx' v
  end.

(** [[f(x) for x in l]] *)
Fixpoint traverse {A B : Type} (f : A -> result B) (l : list A) : result (list B) :=
  match l with
  | [] => Ok []
  | a :: t => b <- f a ;; bs <- traverse f t ;; Ok (b :: bs)
  end.

(** [np.sort] of a one-dimensional integer array *)
Fixpoint insert_sorted (z : Z) (l : list Z) : list Z :=
  match l with
  | [] => [z]
  | a :: t => if (z <=? a)%Z then z :: l else a :: insert_sorted z t
  end.

Definition np_sort (l : list Z) : list Z := fold_right insert_sorted [] l.

Record Mask : Type := mkMask {
  coordinates : list (list R);
  settings_percentpix : R;
  settings_distribution : String.string;
  _exclude : list Z;
  _sampled_index : list Z
}.

(** [Mask.__init__] for [coordinates] other than [None] *)
Definition Mask_init (coordinates : list (list R)) (exclude : list Z) : result Mask :=
  row0 <- item coordinates 0 ;;
  let img_size := length row0 in
  Ok (mkMask coordinates 0.1 "radial_gaussian"%string exclude
        (map Z.of_nat (seq 0 (Z.to_nat (py_int (0.1 * INR img_size)))))).

Definition uniform_distribution (self : Mask) : result (list R) :=
  row0 <- item (coordinates self) 0 ;;
  let img_size := length row0 in
  let distribution := repeat 1 img_size in
  distribution <- assign_each distribution (_exclude self) 0 ;;
  Ok (normalize distribution).

(** The statements that [radial_gaussian] and [donut_distribution] share:
    [ext_size] and [center] *)
Definition extent_and_center (self : Mask) (img_size : nat) : result (Z * (Z * Z)) :=
  let ext_size := py_int (sqrt (INR img_size)) in
  row1 <- item (coordinates self) 1 ;;
  numrows <- np_max row1 ;;
  row0 <- item (coordinates self) 0 ;;
  numcols <- np_max row0 ;;
  row0 <- item (coordinates self) 0 ;;
  left <- np_min row0 ;;
  let leftcorner := py_int left in
  row1 <- item (coordinates self) 1 ;;
  top <- np_min row1 ;;
  let topcorner := py_int top in
  Ok (ext_size, ((py_int (numcols / 2) + leftcorner)%Z, (py_int (numrows / 2) + topcorner)%Z)).

(** [np.linalg.norm(self.coordinates[:2,i] - center)] *)
Definition distance_to (self : Mask) (center : Z * Z) (i : nat) : result R :=
  row0 <- item (coordinates self) 0 ;;
  px <- item row0 i ;;
  row1 <- item (coordinates self) 1 ;;
  py <- item row1 i ;;
  Ok (sqrt ((px - IZR (fst center)) ^ 2 + (py - IZR (snd center)) ^ 2)).

Definition radial_gaussian (self : Mask) : result (list R) :=
  row0 <- item (coordinates self) 0 ;;
  let img_size := length row0 in
  let distribution := repeat 1 img_size in
  '(ext_size, center) <- extent_and_center self img_size ;;
  let mu_ := 0.6 in
  let sigma_ := 0.2 in
  let mu := IZR ext_size * 1 / 2 * mu_ in
  let sigma := IZR ext_size * 1 / 2 * sigma_ in
  distribution <-
    foreach (range 0 img_size)
      (fun i distribution =>
         dist <- distance_to self center i ;;
         d_i <- item distribution i ;;
         assign distribution i (d_i * gaussian dist mu sigma))
      distribution ;;
  distribution <- assign_each distribution (_exclude self) 0 ;;
  Ok (normalize distribution).

Definition donut_distribution (self : Mask) : result (list R) :=
  row0 <- item (coordinates self) 0 ;;
  let img_size := length row0 in
  let distribution := repeat 1 img_size in
  '(ext_size, center) <- extent_and_center self img_size ;;
  let outer := 0.1 in
  let inner := 0.3 in
  let radius1 := IZR ext_size * (1 / 2 - outer) in
  let radius2 := IZR ext_size * (1 / 2 - inner) in
  distribution <-
    foreach (range 0 img_size)
      (fun i distribution =>
         dist <- distance_to self center i ;;
         if Rgtb dist radius2 && Rgtb radius1 dist then
           d_i <- item distribution i ;;
           assign distribution i (d_i * 10)
         else Ok distribution)
      distribution ;;
  distribution <- assign_each distribution (_exclude self) 0 ;;
  Ok (normalize distribution).

Definition get_distribution (self : Mask) : result (list R) :=
  let d_name := settings_distribution self in
  if String.eqb d_name "uniform"%string then uniform_distribution self
  else if String.eqb d_name "donut"%string then donut_distribution self
  else if String.eqb d_name "radial_gaussian"%string then radial_gaussian self
  else Raise ValueError.

(** [initialize_sample]; [choice totalpix numpixels p_dist] stands for
    [np.random.choice(totalpix, numpixels, p=p_dist, replace=False)]. *)
Definition initialize_sample (choice : nat -> Z -> list R -> result (list Z))
    (self : Mask) : result Mask :=
  row0 <- item (coordinates self) 0 ;;
  let totalpix := length row0 in
  let percentpix := settings_percentpix self in
  if Req_dec_T percentpix 1 then
    Ok (mkMask (coordinates self) (settings_percentpix self) (settings_distribution self)
          (_exclude self)
          (filter (fun x => negb (existsb (Z.eqb x) (_exclude self)))
             (map Z.of_nat (seq 0 totalpix))))
  else if Rle_dec percentpix 0 then Raise ValueError
  else if Rgt_dec percentpix 1 then Raise ValueError
  else
    p_dist <- get_distribution self ;;
    let numpixels := py_int (INR totalpix * percentpix) in
    drawn <- choice totalpix numpixels p_dist ;;
    Ok (mkMask (coordinates self) (settings_percentpix self) (settings_distribution self)
          (_exclude self) (np_sort drawn)).

(** [masked_coords] *)
Definition masked_coords (self : Mask) : result (list (list R)) :=
  traverse (fun row => traverse (fun x => getitem row x) (_sampled_index self))
    (coordinates self).

(** Pixel [i] of [n] is named by an entry of [exclude], negative entries
    counting from the end. *)
Definition excluded (n : nat) (exclude : list Z) (i : nat) : Prop :=
  exists e, In e exclude /\ py_index n e = Ok i.

(** * Properties *)

(** ** Sequences *)

Section SequenceFacts.
Context {A : Type}.
Implicit Types (l : list A) (d v : A).

Lemma py_index_last (len : nat) :
  (0 < len)%nat -> py_index len (-1) = Ok (len - 1)%nat.
Proof.
  intros H. unfold py_index.
  replace (0 <=? -1)%Z with false by reflexivity.
  destruct (Z.leb_spec 0 (-1 + Z.of_nat len)) as [_ | Hlt]; [| lia].
  f_equal. lia.
Qed.

Lemma py_index_nonneg (len : nat) (i : Z) :
  (0 <= i < Z.of_nat len)%Z -> py_index len i = Ok (Z.to_nat i).
Proof.
  intros [H0 H1]. unfold py_index.
  destruct (Z.leb_spec 0 i); [| lia].
  destruct (Z.ltb_spec i (Z.of_nat len)); [reflexivity | lia].
Qed.

Lemma item_nth l (i : nat) d :
  (i < length l)%nat -> item l i = Ok (nth i l d).
Proof.
  intros H. unfold item.
  rewrite (nth_error_nth' l d H). reflexivity.
Qed.

Lemma item_out l (i : nat) :
  (length l <= i)%nat -> item l i = Raise IndexError.
Proof.
  intros H. unfold item.
  rewrite (proj2 (nth_error_None l i) H). reflexivity.
Qed.

Lemma nth_last l d :
  nth (length l - 1) l d = last l d.
Proof.
  induction l as [| a t IH]; [reflexivity |].
  destruct t as [| b t']; [reflexivity |].
  change (last (a :: b :: t') d) with (last (b :: t') d).
  rewrite <- IH. simpl. rewrite Nat.sub_0_r. reflexivity.
Qed.

Lemma getitem_last l d :
  l <> [] -> getitem l (-1) = Ok (last l d).
Proof.
  intros H. unfold getitem.
  assert (Hlen : (0 < length l)%nat) by (destruct l; [congruence | simpl; lia]).
  rewrite (py_index_last _ Hlen). simpl.
  rewrite (item_nth l _ d) by lia.
  rewrite nth_last. reflexivity.
Qed.

Lemma getitem_nil (i : Z) : getitem (@nil A) i = Raise IndexError.
Proof.
  unfold getitem, py_index. simpl.
  destruct (Z.leb_spec 0 i).
  - destruct (Z.ltb_spec i 0); [lia | reflexivity].
  - destruct (Z.leb_spec 0 (i + 0)); [lia | reflexivity].
Qed.

Lemma length_update l (i : nat) v : length (update l i v) = length l.
Proof.
  revert i. induction l as [| a t IH]; intros [| i]; simpl; auto.
Qed.

Lemma nth_update_eq l (i : nat) v d :
  (i < length l)%nat -> nth i (update l i v) d = v.
Proof.
  revert i. induction l as [| a t IH]; intros [| i]; simpl; intros H;
    try lia; auto. apply IH. lia.
Qed.

Lemma nth_update_neq l (i j : nat) v d :
  i <> j -> nth j (update l i v) d = nth j l d.
Proof.
  revert i j. induction l as [| a t IH]; intros [| i] [| j]; simpl; intros H;
    try congruence; auto.
Qed.

Lemma assign_ok l (i : nat) v :
  (i < length l)%nat -> assign l i v = Ok (update l i v).
Proof.
  intros H. unfold assign.
  destruct (Nat.ltb_spec i (length l)); [reflexivity | lia].
Qed.

Lemma assign_out l (i : nat) v :
  (length l <= i)%nat -> assign l i v = Raise IndexError.
Proof.
  intros H. unfold assign.
  destruct (Nat.ltb_spec i (length l)); [lia | reflexivity].
Qed.

Lemma length_roll_left l : length (roll_left l) = length l.
Proof.
  destruct l as [| a t]; simpl; [reflexivity |].
  rewrite length_app. simpl. lia.
Qed.

Lemma nth_roll_left l (j : nat) d :
  (j < length l)%nat -> nth j (roll_left l) d = nth ((j + 1) mod length l) l d.
Proof.
  destruct l as [| a t]; simpl length; intros H; [lia |].
  unfold roll_left.
  destruct (Nat.eq_dec j (length t)) as [-> | Hne].
  - rewrite app_nth2 by lia. rewrite Nat.sub_diag.
    replace (length t + 1)%nat with (S (length t)) by lia.
    rewrite Nat.Div0.mod_same. reflexivity.
  - rewrite app_nth1 by lia.
    rewrite Nat.mod_small by lia.
    replace (j + 1)%nat with (S j) by lia. reflexivity.
Qed.

Lemma length_roll_right l : length (roll_right l) = length l.
Proof.
  unfold roll_right. rewrite <- (length_rev l).
  destruct (rev l) as [| a t]; simpl; [reflexivity |].
  rewrite length_rev. reflexivity.
Qed.

Lemma nth_roll_right l (j : nat) d :
  (S j < length l)%nat -> nth (S j) (roll_right l) d = nth j l d.
Proof.
  intros H. unfold roll_right.
  destruct (rev l) as [| a t] eqn:E.
  - apply (f_equal (@length A)) in E. rewrite length_rev in E. simpl in E. lia.
  - simpl.
    assert (El : l = rev t ++ [a]).
    { rewrite <- (rev_involutive l), E. reflexivity. }
    rewrite El in H |- *. rewrite length_app in H. simpl in H.
    rewrite length_rev in H.
    rewrite app_nth1 by (rewrite length_rev; lia). reflexivity.
Qed.
End SequenceFacts.

(** ** Real and complex arithmetic *)

Lemma float_pow_nonneg (x y : R) : 0 <= float_pow x y.
Proof.
  unfold float_pow. destruct (Rle_dec x 0); [lra |].
  unfold Rpower. left. apply exp_pos.
Qed.

Lemma float_pow_mono (x x' y : R) :
  0 <= y -> 0 <= x <= x' -> float_pow x y <= float_pow x' y.
Proof.
  intros Hy [H0 Hle]. unfold float_pow.
  destruct (Rle_dec x 0) as [Hx | Hx]; destruct (Rle_dec x' 0) as [Hx' | Hx']; try lra.
  - left. apply exp_pos.
  - apply Rle_Rpower_l; lra.
Qed.

Lemma cube_root_of_cube (c : R) : 0 < c -> float_pow (c ^ 3) (1 / 3) = c.
Proof.
  intros Hc. unfold float_pow.
  assert (H3 : 0 < c ^ 3) by (apply pow_lt; exact Hc).
  destruct (Rle_dec (c ^ 3) 0); [lra |].
  rewrite <- (Rpower_pow 3 c Hc), Rpower_mult.
  replace (INR 3 * (1 / 3)) with 1 by (simpl; lra).
  apply Rpower_1. exact Hc.
Qed.

Lemma cube_root_lower (c x : R) : 0 < c -> c ^ 3 <= x -> c <= float_pow x (1 / 3).
Proof.
  intros Hc H.
  apply Rle_trans with (float_pow (c ^ 3) (1 / 3)).
  - rewrite cube_root_of_cube by exact Hc. lra.
  - apply float_pow_mono; [lra |]. split; [| exact H].
    left. apply pow_lt. exact Hc.
Qed.

Lemma cube_root_upper (c x : R) : 0 < c -> 0 <= x <= c ^ 3 -> float_pow x (1 / 3) <= c.
Proof.
  intros Hc H.
  apply Rle_trans with (float_pow (c ^ 3) (1 / 3)).
  - apply float_pow_mono; [lra | exact H].
  - rewrite cube_root_of_cube by exact Hc. lra.
Qed.

Lemma Cnorm2_nonneg (a : C) : 0 <= Cnorm2 a.
Proof. unfold Cnorm2. nra. Qed.

Lemma Cabs_nonneg (a : C) : 0 <= Cabs a.
Proof. apply sqrt_pos. Qed.

Lemma Cabs_scale (u : R) (v : C) : Cabs (RtoC u * v) = Rabs u * Cabs v.
Proof.
  unfold Cabs.
  replace (Cnorm2 (RtoC u * v)) with (Rsqr u * Cnorm2 v)
    by (unfold Cnorm2, Rsqr; simpl; ring).
  rewrite sqrt_mult; [| apply Rle_0_sqr | apply Cnorm2_nonneg].
  rewrite sqrt_Rsqr_abs. reflexivity.
Qed.

Lemma Cabs_scale_mono (u u' : R) (v : C) :
  Rabs u <= Rabs u' -> Cabs (RtoC u * v) <= Cabs (RtoC u' * v).
Proof.
  intros H. rewrite !Cabs_scale.
  apply Rmult_le_compat_r; [apply Cabs_nonneg | exact H].
Qed.

(** ** The truncation selector *)

Lemma broadcast_same {A B D : Type} (f : A -> B -> D) (a : list A) (b : list B) :
  length a = length b ->
  broadcast f a b = Ok (zip_with f a b).
Proof.
  intros H. unfold broadcast. rewrite H, Nat.eqb_refl. reflexivity.
Qed.

Lemma length_zip_with {A B D : Type} (f : A -> B -> D) (a : list A) (b : list B) :
  length (zip_with f a b) = Nat.min (length a) (length b).
Proof. unfold zip_with. rewrite length_map, length_combine. reflexivity. Qed.

Lemma nth_zip_with {A B D : Type} (f : A -> B -> D) (da : A) (db : B) (dd : D)
    (a : list A) (b : list B) (n : nat) :
  (n < length a)%nat -> (n < length b)%nat ->
  nth n (zip_with f a b) dd = f (nth n a da) (nth n b db).
Proof.
  unfold zip_with. revert b n.
  induction a as [| u a IH]; intros [| v b] [| n] Ha Hb; simpl in *; try lia;
    [reflexivity |].
  apply IH; lia.
Qed.

Lemma nth_map_in {A B : Type} (f : A -> B) (l : list A) (n : nat) (d : B) (d' : A) :
  (n < length l)%nat -> nth n (map f l) d = f (nth n l d').
Proof.
  intros H. rewrite (nth_indep _ d (f d')) by (rewrite length_map; exact H).
  apply map_nth.
Qed.

Lemma map_combine_nth {A B D : Type} (f : A -> B -> D) (da : A) (db : B)
    (a : list A) (b : list B) :
  length a = length b ->
  zip_with f a b
  = map (fun j => f (nth j a da) (nth j b db)) (seq 0 (length a)).
Proof.
  unfold zip_with.
  revert b. induction a as [| u a IH]; intros [| v b] H; simpl in *;
    try discriminate; [reflexivity |].
  f_equal. rewrite <- seq_shift, map_map. apply IH. lia.
Qed.

Lemma fold_left_Rmax (t : list R) (a : R) :
  fold_left Rmax t a = fold_right Rmax a t.
Proof.
  apply fold_symmetric.
  - intros u v w. apply Rmax_assoc.
  - intros u. apply Rmax_comm.
Qed.

Lemma np_max_maximum (l : list R) : l <> [] -> np_max l = Ok (maximum l).
Proof.
  destruct l as [| a t]; [congruence |]. intros _. simpl.
  rewrite fold_left_Rmax. reflexivity.
Qed.

Lemma Rgtb_max (a b : R) : (if Rgtb b a then b else a) = Rmax a b.
Proof.
  unfold Rgtb, Rmax.
  destruct (Rgt_dec b a), (Rle_dec a b); lra.
Qed.

Lemma py_max_floats (a b c : R) :
  py_max (PyFloat a) [PyFloat b; PyFloat c] = Ok (PyFloat (Rmax a (Rmax b c))).
Proof.
  simpl.
  replace (if Rgtb b a then PyFloat b else PyFloat a) with (PyFloat (Rmax a b))
    by (rewrite <- Rgtb_max; destruct (Rgtb b a); reflexivity).
  simpl.
  replace (if Rgtb c (Rmax a b) then PyFloat c else PyFloat (Rmax a b))
    with (PyFloat (Rmax (Rmax a b) c))
    by (rewrite <- (Rgtb_max (Rmax a b) c); destruct (Rgtb c (Rmax a b)); reflexivity).
  rewrite Rmax_assoc. reflexivity.
Qed.

Lemma py_int_nonneg (r : R) : 0 <= r -> py_int r = Zfloor r.
Proof.
  intros H. unfold py_int. destruct (Rle_dec 0 r); [reflexivity | lra].
Qed.

Lemma wiscombe_spec_ns (xl : R) : wiscombe xl = IZR (spec_ns xl).
Proof.
  unfold wiscombe, spec_ns, np_floor.
  destruct (Rle_dec xl 8); [reflexivity |].
  destruct (Rle_dec xl 4200); reflexivity.
Qed.

Lemma spec_ns_ge_1 (xl : R) : 0 <= xl -> (1 <= spec_ns xl)%Z.
Proof.
  intros H. unfold spec_ns.
  pose proof (float_pow_nonneg xl (1 / 3)) as Hp.
  destruct (Rle_dec xl 8); [| destruct (Rle_dec xl 4200)];
    apply Zfloor_lub; lra.
Qed.

Lemma wiscombe_ge_1 (xl : R) : 0 <= xl -> 1 <= wiscombe xl.
Proof.
  intros H. rewrite wiscombe_spec_ns. apply IZR_le, spec_ns_ge_1, H.
Qed.

(** The selector of the JIT-kernel implementation computes the truncation
    order of the specification on every non-empty input of matching
    lengths. *)
Lemma FastSphere_wiscombe_yang_spec (x : list R) (m : list C) :
  x <> [] -> length m = length x ->
  FastSphere.wiscombe_yang x m = Ok (spec_select x m).
Proof.
  intros Hx Hm. unfold FastSphere.wiscombe_yang, abs_prod. cbv zeta.
  rewrite broadcast_same by congruence. cbn [bind].
  rewrite broadcast_same by (rewrite length_roll_left; congruence). cbn [bind].
  assert (Hlen : (0 < length x)%nat) by (destruct x; [congruence | simpl; lia]).
  rewrite np_max_maximum.
  2:{ intros E. apply (f_equal (@length R)) in E.
      rewrite length_zip_with in E. simpl in E. lia. }
  cbn [bind].
  rewrite np_max_maximum.
  2:{ intros E. apply (f_equal (@length R)) in E.
      rewrite length_zip_with, length_roll_left in E. simpl in E. lia. }
  cbn [bind].
  rewrite py_max_floats. cbn [bind]. unfold py_int_of.
  rewrite py_int_nonneg.
  2:{ apply Rle_trans with (wiscombe (Rabs (last x 0))); [| apply Rmax_l].
      pose proof (wiscombe_ge_1 (Rabs (last x 0)) (Rabs_pos _)). lra. }
  f_equal. unfold spec_select.
  rewrite wiscombe_spec_ns.
  rewrite (map_combine_nth (fun u v => Cabs (RtoC u * v)) 0 C0 x m) by congruence.
  rewrite (map_combine_nth (fun u v => Cabs (RtoC u * v)) 0 C0 (roll_left x) m)
    by (rewrite length_roll_left; congruence).
  rewrite length_roll_left.
  do 4 f_equal. apply map_ext_in. intros j Hj. apply in_seq in Hj.
  rewrite nth_roll_left by lia. reflexivity.
Qed.

Lemma broadcast_long {A B D : Type} (f : A -> B -> D) (a : list A) (b : list B) :
  (2 <= length a)%nat ->
  broadcast f a b = Raise ValueError
  \/ exists r, broadcast f a b = Ok r /\ length r = length a.
Proof.
  intros Ha. unfold broadcast.
  destruct (Nat.eqb_spec (length a) (length b)) as [E | E].
  - right. eexists. split; [reflexivity |].
    rewrite length_zip_with. lia.
  - destruct a as [| a0 [| a1 a']]; simpl in Ha; try lia.
    destruct b as [| b0 [| b1 b']].
    + left. reflexivity.
    + right. eexists. split; [reflexivity |]. rewrite length_map. reflexivity.
    + left. reflexivity.
Qed.

Lemma py_max_long_array (ns : R) (xm : list R) (rest : list pyval) :
  (2 <= length xm)%nat ->
  py_max (PyFloat ns) (NdArray xm :: rest) = Raise ValueError.
Proof.
  intros H. destruct xm as [| a [| b t]]; simpl in H; try lia. reflexivity.
Qed.

(** The selector of the array-oriented implementation raises on every
    input of two or more size parameters. *)
Lemma Sphere_wiscombe_yang_multilayer (x : list R) (m : list C) :
  (2 <= length x)%nat -> Sphere.wiscombe_yang x m = Raise ValueError.
Proof.
  intros Hx. unfold Sphere.wiscombe_yang, abs_prod.
  assert (Hne : x <> []) by (destruct x; [simpl in Hx; lia | congruence]).
  rewrite (getitem_last x 0 Hne). cbn [bind].
  destruct (broadcast_long (fun u v => Cabs (RtoC u * v)) x m Hx)
    as [-> | [xm [-> Hxm]]]; [reflexivity |].
  cbn [bind].
  destruct (broadcast_long (fun u v => Cabs (RtoC u * v)) (roll_left x) m)
    as [-> | [xm1 [-> Hxm1]]]; [rewrite length_roll_left; exact Hx | reflexivity |].
  cbn [bind]. rewrite py_max_long_array by lia. reflexivity.
Qed.

Lemma Sphere_wiscombe_yang_empty (m : list C) :
  Sphere.wiscombe_yang [] m = Raise IndexError.
Proof. reflexivity. Qed.

Lemma Rgtb_spec (a b : R) : reflect (a > b) (Rgtb a b).
Proof.
  unfold Rgtb. destruct (Rgt_dec a b); constructor; assumption.
Qed.

Lemma py_max_single_arrays (ns a b : R) :
  exists v, py_max (PyFloat ns) [NdArray [a]; NdArray [b]] = Ok v
            /\ py_int_of v = Ok (py_int (Rmax ns (Rmax a b))).
Proof.
  cbn [py_max py_gt map bind py_bool].
  destruct (Rgtb_spec a ns) as [Ha | Ha];
    cbn [py_max py_gt map bind py_bool broadcast zip_with length Nat.eqb combine fst snd].
  - destruct (Rgtb_spec b a) as [Hb | Hb]; eexists; (split; [reflexivity |]);
      cbn [py_int_of]; do 2 f_equal; unfold Rmax;
      destruct (Rle_dec a b), (Rle_dec ns b), (Rle_dec ns a); lra.
  - destruct (Rgtb_spec b ns) as [Hb | Hb]; eexists; (split; [reflexivity |]);
      cbn [py_int_of]; do 2 f_equal; unfold Rmax;
      destruct (Rle_dec a b), (Rle_dec ns b), (Rle_dec ns a); lra.
Qed.

(** On a single layer the two selectors agree with the specification. *)
Lemma Sphere_wiscombe_yang_single (x0 : R) (m0 : C) :
  Sphere.wiscombe_yang [x0] [m0] = Ok (spec_select [x0] [m0]).
Proof.
  rewrite <- (FastSphere_wiscombe_yang_spec [x0] [m0]) by (congruence || reflexivity).
  unfold Sphere.wiscombe_yang, FastSphere.wiscombe_yang, abs_prod.
  rewrite (getitem_last [x0] 0) by congruence. cbn [bind].
  rewrite !broadcast_same by reflexivity.
  cbn [bind zip_with combine map roll_left app fst snd].
  destruct (py_max_single_arrays (wiscombe (Rabs (last [x0] 0)))
              (Cabs (RtoC x0 * m0)) (Cabs (RtoC x0 * m0))) as [v [-> Hv]].
  cbn [bind np_max fold_left]. rewrite py_max_floats. cbn [bind].
  rewrite Hv. reflexivity.
Qed.

Lemma Sphere_wiscombe_yang_ok_single (x : list R) (m : list C) (N : Z) :
  Sphere.wiscombe_yang x m = Ok N -> length x = 1%nat.
Proof.
  intros H. destruct x as [| x0 [| x1 x']]; [discriminate | reflexivity |].
  rewrite Sphere_wiscombe_yang_multilayer in H by (simpl; lia). discriminate.
Qed.

(** *** Monotonicity of the pieces *)

Lemma Rmax_mono (a a' b b' : R) : a <= a' -> b <= b' -> Rmax a b <= Rmax a' b'.
Proof.
  intros Ha Hb. unfold Rmax.
  destruct (Rle_dec a b), (Rle_dec a' b'); lra.
Qed.

Lemma maximum_map_mono (f g : nat -> R) (l : list nat) :
  (forall j, f j <= g j) -> maximum (map f l) <= maximum (map g l).
Proof.
  intros H. destruct l as [| j0 t]; simpl; [lra |].
  generalize (H j0). generalize (f j0) (g j0).
  induction t as [| j t IH]; intros u v Huv; simpl; [exact Huv |].
  apply Rmax_mono; [apply H | apply IH, Huv].
Qed.

Lemma spec_ns_mono_low (a b : R) :
  0 <= a <= b -> b <= 4200 -> (spec_ns a <= spec_ns b)%Z.
Proof.
  intros Hab Hb. unfold spec_ns.
  pose proof (float_pow_mono a b (1 / 3) ltac:(lra) Hab) as Hp.
  pose proof (float_pow_nonneg a (1 / 3)) as Hpa.
  destruct (Rle_dec a 8), (Rle_dec b 8), (Rle_dec a 4200), (Rle_dec b 4200);
    try lra; apply Zfloor_le; lra.
Qed.

Lemma spec_ns_mono_high (a b : R) :
  4200 < a <= b -> (spec_ns a <= spec_ns b)%Z.
Proof.
  intros Hab. unfold spec_ns.
  pose proof (float_pow_mono a b (1 / 3) ltac:(lra) ltac:(lra)) as Hp.
  destruct (Rle_dec a 8), (Rle_dec b 8), (Rle_dec a 4200), (Rle_dec b 4200);
    try lra; apply Zfloor_le; lra.
Qed.

Lemma Rabs_nth_last_mono (pre : list R) (a b : R) (j : nat) :
  Rabs a <= Rabs b -> Rabs (nth j (pre ++ [a]) 0) <= Rabs (nth j (pre ++ [b]) 0).
Proof.
  intros H. destruct (Nat.lt_ge_cases j (length pre)) as [Hj | Hj].
  - rewrite !app_nth1 by exact Hj. lra.
  - rewrite !app_nth2 by exact Hj.
    destruct (j - length pre)%nat as [| [| k]]; simpl; [exact H | lra | lra].
Qed.

Lemma spec_select_mono (pre : list R) (m : list C) (a b : R) :
  Rabs a <= Rabs b ->
  (spec_ns (Rabs a) <= spec_ns (Rabs b))%Z ->
  (spec_select (pre ++ [a]) m <= spec_select (pre ++ [b]) m)%Z.
Proof.
  intros Hab Hns. unfold spec_select.
  rewrite !last_last, !length_app. cbn [length].
  apply Zfloor_le. apply Rmax_mono; [apply IZR_le, Hns |].
  apply Rmax_mono; apply maximum_map_mono; intros j;
    apply Cabs_scale_mono, Rabs_nth_last_mono, Hab.
Qed.

Lemma spec_select_ge_1 (x : list R) (m : list C) : (1 <= spec_select x m)%Z.
Proof.
  unfold spec_select. apply Zfloor_lub.
  eapply Rle_trans; [| apply Rmax_l].
  apply IZR_le, spec_ns_ge_1, Rabs_pos.
Qed.

(** *** The rule around [xl = 4200] *)

Lemma Cabs_C1 : Cabs C1 = 1.
Proof.
  unfold Cabs, Cnorm2. simpl.
  replace (1 * 1 + 0 * 0) with 1 by ring. apply sqrt_1.
Qed.

Lemma spec_select_single_unit (x0 : R) :
  0 <= x0 -> spec_select [x0] [C1] = Zfloor (Rmax (IZR (spec_ns x0)) x0).
Proof.
  intros H. unfold spec_select. cbn [length seq map last].
  change ((0 + 1) mod 1)%nat with 0%nat. cbn [nth maximum fold_right].
  rewrite Cabs_scale, Cabs_C1, Rmult_1_r, Rabs_pos_eq by exact H.
  rewrite (Rmax_left x0 x0) by lra. reflexivity.
Qed.

Lemma spec_ns_4200 : spec_ns 4200 = 4267%Z.
Proof.
  unfold spec_ns.
  destruct (Rle_dec 4200 8); [lra |].
  destruct (Rle_dec 4200 4200); [| lra].
  pose proof (cube_root_lower 16.05 4200 ltac:(lra) ltac:(simpl; lra)) as Hlo.
  pose proof (cube_root_upper 16.29 4200 ltac:(lra) ltac:(simpl; lra)) as Hhi.
  apply Zfloor_eq. lra.
Qed.

Lemma spec_ns_4200_25 : spec_ns 4200.25 = 4266%Z.
Proof.
  unfold spec_ns.
  destruct (Rle_dec 4200.25 8); [lra |].
  destruct (Rle_dec 4200.25 4200); [lra |].
  pose proof (cube_root_lower 15.94 4200.25 ltac:(lra) ltac:(simpl; lra)) as Hlo.
  pose proof (cube_root_upper 16.18 4200.25 ltac:(lra) ltac:(simpl; lra)) as Hhi.
  apply Zfloor_eq. lra.
Qed.

Lemma spec_select_4200 : spec_select [4200] [C1] = 4267%Z.
Proof.
  rewrite spec_select_single_unit by lra. rewrite spec_ns_4200.
  rewrite Rmax_left by lra. apply ZfloorZ.
Qed.

Lemma spec_select_4200_25 : spec_select [4200.25] [C1] = 4266%Z.
Proof.
  rewrite spec_select_single_unit by lra. rewrite spec_ns_4200_25.
  rewrite Rmax_left by lra. apply ZfloorZ.
Qed.

(** ** The field of complex numbers *)

Lemma C_eq (a b : C) : Re a = Re b -> Im a = Im b -> a = b.
Proof. destruct a, b. simpl. intros -> ->. reflexivity. Qed.

Lemma Cnorm2_zero (a : C) : Cnorm2 a = 0 -> a = C0.
Proof.
  unfold Cnorm2. intros H. apply C_eq; simpl; nra.
Qed.

Lemma Cnorm2_nonzero (a : C) : a <> C0 -> Cnorm2 a <> 0.
Proof. intros H E. apply H, Cnorm2_zero, E. Qed.

Lemma C_ring_theory : ring_theory C0 C1 Cadd Cmul Csub Copp eq.
Proof.
  constructor; intros; apply C_eq; simpl; ring.
Qed.

Lemma C_field_theory : field_theory C0 C1 Cadd Cmul Csub Copp Cdiv Cinv eq.
Proof.
  constructor.
  - exact C_ring_theory.
  - intros E. apply (f_equal Re) in E. simpl in E. lra.
  - reflexivity.
  - intros p Hp. pose proof (Cnorm2_nonzero p Hp) as Hn.
    apply C_eq; simpl; unfold Cnorm2 in *; field; exact Hn.
Qed.

Add Field C_field : C_field_theory.

Lemma Cmul_nonzero (a b : C) : a <> C0 -> b <> C0 -> (a * b)%C <> C0.
Proof.
  intros Ha Hb E.
  assert (Hn : Cnorm2 (a * b) = Cnorm2 a * Cnorm2 b)
    by (unfold Cnorm2; simpl; ring).
  rewrite E in Hn. unfold Cnorm2 at 1 in Hn. simpl in Hn.
  pose proof (Cnorm2_nonzero a Ha). pose proof (Cnorm2_nonzero b Hb).
  pose proof (Cnorm2_nonneg a). pose proof (Cnorm2_nonneg b). nra.
Qed.

Lemma RtoC_div (a b : R) : (RtoC a / RtoC b)%C = RtoC (a / b).
Proof.
  destruct (Req_dec b 0) as [-> | Hb].
  - apply C_eq; simpl; unfold Cnorm2, Rdiv; simpl;
      rewrite ?Rmult_0_l, ?Rmult_0_r, ?Rplus_0_r, ?Rinv_0; ring.
  - apply C_eq; simpl; unfold Cnorm2; simpl; field; exact Hb.
Qed.

Lemma RtoC_add (a b : R) : (RtoC a + RtoC b)%C = RtoC (a + b).
Proof. apply C_eq; simpl; ring. Qed.

Lemma RtoC_sub (a b : R) : (RtoC a - RtoC b)%C = RtoC (a - b).
Proof. apply C_eq; simpl; ring. Qed.

Lemma RtoC_mul (a b : R) : (RtoC a * RtoC b)%C = RtoC (a * b).
Proof. apply C_eq; simpl; ring. Qed.

Lemma RtoC_inj (a b : R) : RtoC a = RtoC b -> a = b.
Proof. intros H. apply (f_equal Re) in H. exact H. Qed.

Lemma RtoC_nonzero (a : R) : a <> 0 -> RtoC a <> C0.
Proof. intros H E. apply H, RtoC_inj, E. Qed.

Lemma over_complex_real (x : R) (n : nat) : over_complex (RtoC x) n = over_float x n.
Proof. unfold over_complex, over_float, NtoC. apply RtoC_div. Qed.

(** ** Loop rules *)

Lemma foreach_seq_rule {S : Type} (body : nat -> S -> result S)
    (Inv : nat -> S -> Prop) (len a : nat) (s : S) :
  Inv a s ->
  (forall n t, (a <= n < a + len)%nat -> Inv n t ->
               exists t', body n t = Ok t' /\ Inv (Datatypes.S n) t') ->
  exists s', foreach (seq a len) body s = Ok s' /\ Inv (a + len)%nat s'.
Proof.
  revert a s. induction len as [| len IH]; intros a s H0 Hbody; simpl.
  - exists s. rewrite Nat.add_0_r. split; [reflexivity | exact H0].
  - destruct (Hbody a s ltac:(lia) H0) as [t [-> Ht]]. cbn [bind].
    destruct (IH (Datatypes.S a) t Ht) as [s' [Hs' Hinv]].
    + intros n u Hn. apply Hbody. lia.
    + exists s'. split; [exact Hs' |].
      replace (a + Datatypes.S len)%nat with (Datatypes.S a + len)%nat by lia.
      exact Hinv.
Qed.

Lemma foreach_down_rule {S : Type} (body : nat -> S -> result S)
    (Inv : nat -> S -> Prop) (n : nat) (s : S) :
  Inv n s ->
  (forall k t, (k < n)%nat -> Inv (Datatypes.S k) t ->
               exists t', body (Datatypes.S k) t = Ok t' /\ Inv k t') ->
  exists s', foreach (range_down n) body s = Ok s' /\ Inv 0%nat s'.
Proof.
  revert s. induction n as [| n IH]; intros s H0 Hbody; simpl.
  - exists s. split; [reflexivity | exact H0].
  - destruct (Hbody n s ltac:(lia) H0) as [t [-> Ht]]. cbn [bind].
    apply IH; [exact Ht |]. intros k u Hk. apply Hbody. lia.
Qed.

Lemma foreach_ext {S : Type} (body body' : nat -> S -> result S) (ns : list nat) (s : S) :
  (forall n t, body n t = body' n t) -> foreach ns body s = foreach ns body' s.
Proof.
  intros H. revert s. induction ns as [| n ns IH]; intros s; simpl; [reflexivity |].
  rewrite H. destruct (body' n s); simpl; [apply IH | reflexivity].
Qed.

(** ** The downward recurrence *)

Lemma D1_top (nz : nat -> C) (top : nat) : D1 nz top top = C0.
Proof. unfold D1. rewrite Nat.sub_diag. reflexivity. Qed.

Lemma D1_step (nz : nat -> C) (top n : nat) :
  (n < top)%nat ->
  D1 nz top n
  = (nz (S n) - C1 / (D1 nz top (S n) + nz (S n)))%C.
Proof.
  intros H. unfold D1.
  replace (top - n)%nat with (S (top - S n)) by lia.
  cbn [D1_gap].
  replace (top - (top - S n))%nat with (S n) by lia. reflexivity.
Qed.

Lemma length_D1_list (nz : nat -> C) (top : nat) : length (D1_list nz top) = S top.
Proof. unfold D1_list. rewrite length_map, length_seq. reflexivity. Qed.

Lemma nth_D1_list (nz : nat -> C) (top i : nat) :
  (i <= top)%nat -> nth i (D1_list nz top) C0 = D1 nz top i.
Proof.
  intros H. unfold D1_list.
  rewrite (nth_indep _ C0 (D1 nz top 0%nat)) by (rewrite length_map, length_seq; lia).
  rewrite map_nth, seq_nth by lia. reflexivity.
Qed.

Lemma d1_loop (nz : nat -> C) (top : nat) (d1 : list C) :
  length d1 = S top -> nth top d1 C0 = C0 ->
  foreach (range_down top) (d1_update nz) d1 = Ok (D1_list nz top).
Proof.
  intros Hlen Hseed.
  destruct (foreach_down_rule (d1_update nz)
              (fun n d => length d = S top
                          /\ forall i, (n <= i <= top)%nat -> nth i d C0 = D1 nz top i)
              top d1) as [d' [Hd' [Hl Hv]]].
  - split; [exact Hlen |]. intros i Hi. replace i with top by lia.
    rewrite Hseed, D1_top. reflexivity.
  - intros k d Hk [Hl Hv]. unfold d1_update.
    rewrite (item_nth d (S k) C0) by lia. cbn [bind].
    replace (S k - 1)%nat with k by lia.
    rewrite assign_ok by lia. eexists. split; [reflexivity |].
    split; [rewrite length_update; exact Hl |].
    intros i Hi. destruct (Nat.eq_dec i k) as [-> | Hne].
    + rewrite nth_update_eq by lia. rewrite Hv by lia.
      rewrite (D1_step nz top k) by lia. reflexivity.
    + rewrite nth_update_neq by lia. apply Hv. lia.
  - rewrite Hd'. f_equal.
    apply (nth_ext _ _ C0 C0); [rewrite length_D1_list; exact Hl |].
    intros i Hi. rewrite nth_D1_list by lia. apply Hv. lia.
Qed.

Lemma d1_step_loop (z : C) (top : nat) (d1 : list C) :
  length d1 = S top -> nth top d1 C0 = C0 ->
  foreach (range_down top) (d1_step z) d1 = Ok (D1_list (over_complex z) top).
Proof.
  intros Hlen Hseed. rewrite <- (d1_loop (over_complex z) top d1 Hlen Hseed).
  apply foreach_ext. reflexivity.
Qed.

Lemma d1_step_medium_loop (z1 : R) (top : nat) (d1 : list C) :
  length d1 = S top -> nth top d1 C0 = C0 ->
  foreach (range_down top) (d1_step_medium z1) d1 = Ok (D1_list (over_float z1) top).
Proof.
  intros Hlen Hseed. rewrite <- (d1_loop (over_float z1) top d1 Hlen Hseed).
  apply foreach_ext. reflexivity.
Qed.

(** ** The last phase and the assembly *)

Lemma medium_loop (z1 : R) (d1 : nat -> C) (N : nat) (d1_z1 : list C)
    (s : medium_state) :
  (N < length d1_z1)%nat ->
  (forall i, (i <= N)%nat -> nth i d1_z1 C0 = d1 i) ->
  medium_inv z1 d1 N 1 s ->
  exists s', foreach (seq 1 N) (medium_step z1 d1_z1) s = Ok s'
             /\ medium_inv z1 d1 N (S N) s'.
Proof.
  intros Hlen Hd1 H0.
  apply (foreach_seq_rule (medium_step z1 d1_z1) (medium_inv z1 d1 N) N 1 s H0).
  intros n t Hn (Hpsi & Hzeta & Hd3 & Hpz & Hv).
  destruct n as [| k]; [lia |].
  destruct (Hv k ltac:(lia)) as (Vpsi & Vzeta & Vd3).
  unfold medium_step. replace (S k - 1)%nat with k in * by lia.
  rewrite (item_nth (ms_psi t) k C0) by lia. cbn [bind].
  rewrite (item_nth d1_z1 k C0) by lia. cbn [bind].
  rewrite assign_ok by lia. cbn [bind].
  rewrite (item_nth (ms_zeta t) k C0) by lia. cbn [bind].
  rewrite (item_nth (ms_d3_z1 t) k C0) by lia. cbn [bind].
  rewrite assign_ok by lia. cbn [bind].
  rewrite (item_nth d1_z1 (S k) C0) by lia. cbn [bind].
  rewrite assign_ok by lia. cbn [bind].
  eexists. split; [reflexivity |].
  unfold medium_inv. cbn [ms_psi ms_zeta ms_psizeta ms_d3_z1].
  rewrite !length_update.
  replace (S (S k) - 1)%nat with (S k) by lia.
  rewrite Vpsi, Vzeta, Vd3, Hpz, !Hd1 by lia.
  repeat split; try assumption; try reflexivity.
  - destruct (Nat.eq_dec i (S k)) as [-> | Hne].
    + rewrite nth_update_eq by lia. reflexivity.
    + rewrite nth_update_neq by lia. apply Hv. lia.
  - destruct (Nat.eq_dec i (S k)) as [-> | Hne].
    + rewrite nth_update_eq by lia. reflexivity.
    + rewrite nth_update_neq by lia. apply Hv. lia.
  - destruct (Nat.eq_dec i (S k)) as [-> | Hne].
    + rewrite nth_update_eq by lia. reflexivity.
    + rewrite nth_update_neq by lia. apply Hv. lia.
Qed.

Lemma list_of_values (f : nat -> C) (l : list C) (n : nat) :
  length l = n -> (forall i, (i < n)%nat -> nth i l C0 = f i) ->
  l = map f (seq 0 n).
Proof.
  intros Hl Hv. apply (nth_ext _ _ C0 (f 0%nat)).
  - rewrite length_map, length_seq. exact Hl.
  - intros i Hi. rewrite map_nth, seq_nth by lia. apply Hv. lia.
Qed.

Lemma column_values (N : nat) (fac psi zeta : list C) :
  length fac = S N -> length psi = S N -> length zeta = S N ->
  exists col, column fac psi zeta = Ok col /\ length col = S N
    /\ forall j, (j < N)%nat ->
         nth (S j) col C0
         = ((nth (S j) fac C0 * nth (S j) psi C0 - nth j psi C0)
            / (nth (S j) fac C0 * nth (S j) zeta C0 - nth j zeta C0))%C.
Proof.
  intros Hf Hp Hz. unfold column.
  rewrite (broadcast_same Cmul fac psi) by congruence. cbn [bind].
  rewrite broadcast_same
    by (rewrite length_zip_with, length_roll_right; lia). cbn [bind].
  rewrite (broadcast_same Cmul fac zeta) by congruence. cbn [bind].
  rewrite (broadcast_same Csub (zip_with Cmul fac zeta))
    by (rewrite length_zip_with, length_roll_right; lia). cbn [bind].
  rewrite broadcast_same
    by (rewrite !length_zip_with, !length_roll_right; lia).
  eexists. split; [reflexivity |]. split.
  - rewrite !length_zip_with, !length_roll_right. lia.
  - intros j Hj.
    rewrite (nth_zip_with Cdiv C0 C0)
      by (rewrite !length_zip_with, !length_roll_right; lia).
    rewrite !(nth_zip_with Csub C0 C0)
      by (rewrite ?length_zip_with, ?length_roll_right; lia).
    rewrite !(nth_zip_with Cmul C0 C0) by lia.
    rewrite !nth_roll_right by lia. reflexivity.
Qed.

Lemma set_column_a_same (ab : list (C * C)) (v : list C) :
  length v = length ab ->
  set_column_a ab v = Ok (zip_with (fun row c => (c, snd row)) ab v).
Proof. intros H. unfold set_column_a. rewrite H, Nat.eqb_refl. reflexivity. Qed.

Lemma set_column_b_same (ab : list (C * C)) (v : list C) :
  length v = length ab ->
  set_column_b ab v = Ok (zip_with (fun row c => (fst row, c)) ab v).
Proof. intros H. unfold set_column_b. rewrite H, Nat.eqb_refl. reflexivity. Qed.

Lemma into_medium_table (top N : nat) (x : list R) (m : list C) (nmax : Z)
    (ab : list (C * C)) (d1_z1 d3_z1 psi zeta ha hb : list C) :
  nmax = Z.of_nat N -> (N <= top)%nat -> x <> [] -> m <> [] ->
  length ab = S N -> length d1_z1 = S top -> nth top d1_z1 C0 = C0 ->
  length d3_z1 = S N -> nth 0 d3_z1 C0 = Ci ->
  length psi = S N -> length zeta = S N -> length ha = S N -> length hb = S N ->
  into_medium top x m nmax ab d1_z1 d3_z1 psi zeta ha hb
  = Ok (table top N (last x 0) (last m C0) ha hb).
Proof.
  intros -> Htop Hx Hm Hab Hd1 Hseed Hd3 Hd30 Hpsi Hzeta Hha Hhb.
  unfold into_medium.
  rewrite (getitem_last x 0 Hx), (getitem_last m C0 Hm). cbn [bind].
  set (z1 := last x 0). set (mlast := last m C0).
  rewrite (d1_step_medium_loop z1 top d1_z1 Hd1 Hseed). cbn [bind].
  rewrite !assign_ok by lia. cbn [bind].
  replace (Z.to_nat (Z.of_nat N + 1)) with (S N) by lia.
  unfold range. replace (S N - 1)%nat with N by lia.
  set (d1 := D1 (over_float z1) top).
  destruct (medium_loop z1 d1 N (D1_list (over_float z1) top)
              (mkMedium (update psi 0 (RtoC (sin z1)))
                 (update zeta 0 (- Ci * Cexp (Ci * RtoC z1))%C)
                 (RtoC 0.5 * (C1 - Cexp (mkC 0 2 * RtoC z1)))%C d3_z1))
    as [s [-> (Lpsi & Lzeta & Ld3 & _ & Hv)]].
  - rewrite length_D1_list. lia.
  - intros i Hi. apply nth_D1_list. lia.
  - unfold medium_inv. cbn [ms_psi ms_zeta ms_psizeta ms_d3_z1].
    rewrite !length_update. repeat split; try assumption.
    + replace i with 0%nat by lia. apply nth_update_eq. lia.
    + replace i with 0%nat by lia. apply nth_update_eq. lia.
    + replace i with 0%nat by lia. exact Hd30.
  - cbn [bind].
    rewrite (broadcast_same Cadd) by (rewrite !length_map, length_seq; lia).
    cbn [bind].
    destruct (column_values N
                (zip_with Cadd (map (fun h => (h / mlast)%C) ha)
                   (map (fun i => RtoC (i / z1)) (map (fun i => INR i) (seq 0 (S N)))))
                (ms_psi s) (ms_zeta s)) as [ca [-> [Lca Vca]]]; try assumption.
    { rewrite length_zip_with, !length_map, length_seq. lia. }
    cbn [bind]. rewrite set_column_a_same by lia. cbn [bind].
    rewrite (broadcast_same Cadd) by (rewrite !length_map, length_seq; lia).
    cbn [bind].
    destruct (column_values N
                (zip_with Cadd (map (fun h => (h * mlast)%C) hb)
                   (map (fun i => RtoC (i / z1)) (map (fun i => INR i) (seq 0 (S N)))))
                (ms_psi s) (ms_zeta s)) as [cb [-> [Lcb Vcb]]]; try assumption.
    { rewrite length_zip_with, !length_map, length_seq. lia. }
    cbn [bind].
    rewrite set_column_b_same by (rewrite length_zip_with; lia). cbn [bind].
    rewrite assign_ok by (rewrite !length_zip_with; lia).
    f_equal. apply (nth_ext _ _ (C0, C0) (C0, C0)).
    + rewrite length_update, !length_zip_with. unfold table. cbn [length].
      rewrite length_map, length_seq. lia.
    + intros i Hi. rewrite length_update, !length_zip_with in Hi.
      destruct i as [| j].
      * rewrite nth_update_eq by (rewrite !length_zip_with; lia). reflexivity.
      * rewrite nth_update_neq by lia.
        rewrite (nth_zip_with _ (C0, C0) C0) by (rewrite ?length_zip_with; lia).
        rewrite (nth_zip_with _ (C0, C0) C0) by lia.
        cbn [fst snd]. rewrite Vca, Vcb by lia.
        rewrite !(nth_zip_with Cadd C0 C0) by (rewrite !length_map, ?length_seq; lia).
        unfold table. cbn [nth].
        rewrite (nth_map_in _ _ _ _ 0%nat) by (rewrite length_seq; lia).
        rewrite seq_nth by lia.
        destruct (Hv (S j) ltac:(lia)) as (-> & -> & _).
        destruct (Hv j ltac:(lia)) as (-> & -> & _).
        unfold coefficient, fac_a, fac_b.
        replace (1 + j - 1)%nat with j by lia.
        replace (1 + j)%nat with (S j) by lia.
        rewrite (nth_map_in (fun h => (h / mlast)%C) ha _ _ C0) by lia.
        rewrite (nth_map_in (fun h => (h * mlast)%C) hb _ _ C0) by lia.
        rewrite (nth_map_in (fun i => RtoC (i / z1)) _ _ _ 0)
          by (rewrite length_map, length_seq; lia).
        rewrite (nth_map_in (fun i => INR i) _ _ _ 0%nat) by (rewrite length_seq; lia).
        rewrite seq_nth by lia. reflexivity.
Qed.

(** ** Single-layer runs *)

Lemma np_empty_ok (uninit : nat -> C) (n : Z) :
  (0 <= n)%Z ->
  exists l, np_empty uninit n = Ok l /\ length l = Z.to_nat n.
Proof.
  intros H. unfold np_empty. destruct (Z.ltb_spec n 0); [lia |].
  eexists. split; [reflexivity |]. rewrite length_map, length_seq. reflexivity.
Qed.

Lemma np_empty_rows_ok (uninit : nat -> C) (n : Z) :
  (0 <= n)%Z ->
  exists l, np_empty_rows uninit n = Ok l /\ length l = Z.to_nat n.
Proof.
  intros H. unfold np_empty_rows. destruct (Z.ltb_spec n 0); [lia |].
  eexists. split; [reflexivity |]. rewrite length_map, length_seq. reflexivity.
Qed.

Lemma setitem_last_ok {A : Type} (l : list A) (v : A) :
  l <> [] -> setitem l (-1) v = Ok (update l (length l - 1) v).
Proof.
  intros H. unfold setitem.
  assert (Hlen : (0 < length l)%nat) by (destruct l; [congruence | simpl; lia]).
  rewrite (py_index_last _ Hlen). cbn [bind]. apply assign_ok. lia.
Qed.

Lemma setitem_nonneg_ok {A : Type} (l : list A) (i : Z) (v : A) :
  (0 <= i < Z.of_nat (length l))%Z -> setitem l i v = Ok (update l (Z.to_nat i) v).
Proof.
  intros H. unfold setitem. rewrite py_index_nonneg by exact H. cbn [bind].
  apply assign_ok. lia.
Qed.

Lemma removelast_D1_list (nz : nat -> C) (top : nat) :
  removelast (D1_list nz (S top)) = map (D1 nz (S top)) (seq 0 (S top)).
Proof.
  unfold D1_list.
  replace (seq 0 (S (S top))) with (seq 0 (S top) ++ [S top])
    by (rewrite (seq_S (S top) 0); reflexivity).
  rewrite map_app. cbn [map]. apply removelast_last.
Qed.

Lemma nonempty_of_length {A : Type} (l : list A) (n : nat) :
  length l = S n -> l <> [].
Proof. intros H E. rewrite E in H. discriminate. Qed.

(** The array-oriented implementation on one layer *)
Lemma Sphere_mie_coefficients_single (uninit : nat -> C) (a_p : R) (n_p n_m : C)
    (wavelength : R) :
  wavelength <> 0 ->
  Sphere.mie_coefficients uninit [a_p] [n_p] n_m wavelength
  = Ok (Sphere_single_table a_p n_p n_m wavelength).
Proof.
  intros Hw. unfold Sphere.mie_coefficients, Sphere_single_table.
  destruct (Req_dec_T wavelength 0) as [E | _]; [contradiction |].
  cbn [bind map length].
  set (x0 := 2 * PI * Re n_m / wavelength * a_p).
  set (m0 := (n_p / n_m)%C).
  rewrite Sphere_wiscombe_yang_single. cbn [bind].
  pose proof (spec_select_ge_1 [x0] [m0]) as HN.
  set (nmax := spec_select [x0] [m0]) in *.
  set (N := Z.to_nat nmax).
  assert (EN : nmax = Z.of_nat N) by (unfold N; lia).
  destruct (np_empty_rows_ok uninit (nmax + 1)) as [ab [-> Lab]]; [lia |].
  destruct (np_empty_ok uninit (nmax + 2)) as [d1_z1 [E1 L1]]; [lia |].
  destruct (np_empty_ok uninit (nmax + 1)) as [e [E2 L2]]; [lia |].
  rewrite E1, E2. cbn [bind].
  replace (Z.to_nat (nmax + 2)) with (S (S N)) in L1 by lia.
  replace (Z.to_nat (nmax + 1)) with (S N) in * by lia.
  unfold Sphere.phase_1.
  rewrite !setitem_last_ok by (apply (nonempty_of_length _ (S N)); exact L1).
  cbn [bind]. rewrite !assign_ok by lia. cbn [bind].
  unfold Sphere.core. cbn [item nth_error bind].
  replace (Z.to_nat (nmax + 1)) with (S N) by lia.
  rewrite d1_step_loop.
  2:{ rewrite length_update. exact L1. }
  2:{ rewrite L1. replace (S (S N) - 1)%nat with (S N) by lia.
      apply nth_update_eq. lia. }
  cbn [bind]. unfold range. cbn [length Nat.sub seq foreach bind].
  cbn [ls_d1_z1 ls_d3_z1 ls_ha ls_hb].
  rewrite removelast_D1_list.
  rewrite (into_medium_table (S N) N [x0] [m0] nmax ab); try assumption; try lia;
    try congruence; try reflexivity.
  - apply length_D1_list.
  - rewrite nth_D1_list by lia. apply D1_top.
  - rewrite length_update. exact L2.
  - apply nth_update_eq. lia.
  - rewrite length_map, length_seq. reflexivity.
  - rewrite length_map, length_seq. reflexivity.
Qed.

(** ** Rows of the table *)

Lemma length_table (top N : nat) (xlast : R) (mlast : C) (ha hb : list C) :
  length (table top N xlast mlast ha hb) = S N.
Proof. unfold table. cbn [length]. rewrite length_map, length_seq. reflexivity. Qed.

Lemma nth_table (top N : nat) (xlast : R) (mlast : C) (ha hb : list C) (d : C * C)
    (n : nat) :
  (1 <= n <= N)%nat ->
  nth n (table top N xlast mlast ha hb) d
  = (coefficient xlast (D1 (over_float xlast) top) (fac_a xlast mlast ha n) n,
     coefficient xlast (D1 (over_float xlast) top) (fac_b xlast mlast hb n) n).
Proof.
  intros Hn. unfold table. destruct n as [| j]; [lia |]. cbn [nth].
  rewrite (nth_map_in _ _ _ _ 0%nat) by (rewrite length_seq; lia).
  rewrite seq_nth by lia. reflexivity.
Qed.

Lemma D1_gap_ext (nz nz' : nat -> C) (top gap : nat) :
  (forall n, nz n = nz' n) -> D1_gap nz top gap = D1_gap nz' top gap.
Proof.
  intros H. induction gap as [| g IH]; simpl; [reflexivity |].
  rewrite IH, H. reflexivity.
Qed.

Lemma D1_real (x : R) (top i : nat) :
  D1 (over_complex (RtoC x)) top i = D1 (over_float x) top i.
Proof. apply D1_gap_ext. intros n. apply over_complex_real. Qed.

Lemma nth_FastSphere_core_h (z : C) (N n : nat) :
  (n <= N)%nat -> nth n (FastSphere_core_h z N) C0 = D1 (over_complex z) N n.
Proof. intros H. apply nth_D1_list. exact H. Qed.

(** ** The truncation selector: the claims *)

Lemma Sphere_mie_coefficients_multilayer (uninit : nat -> C) (a_p : list R)
    (n_p : list C) (n_m : C) (wavelength : R) :
  (2 <= length a_p)%nat ->
  is_error (Sphere.mie_coefficients uninit a_p n_p n_m wavelength).
Proof.
  intros H. unfold Sphere.mie_coefficients.
  destruct (Req_dec_T wavelength 0) as [E | E]; cbn [bind].
  - exists ZeroDivisionError. reflexivity.
  - rewrite Sphere_wiscombe_yang_multilayer by (rewrite length_map; exact H).
    exists ValueError. reflexivity.
Qed.

(** C1.  The truncation order of the specification (Wiscombe's three pieces
    on [xl = |x[-1]|], [xm_j = |x_j m_j|], [xm'_j = |x_(j+1 mod L) m_j|],
    floor of the maximum) is what the JIT-kernel selector returns on every
    non-empty input of matching lengths, and what the array-oriented
    selector returns on a single layer; the array-oriented selector hands
    the arrays [xm], [xm_1] themselves to [max] and, on the two-layer input
    [x = [1, 2]], [m = [1, 1]], raises [ValueError] where the sibling
    returns that order. *)
Theorem selector_divergence_on_two_layers :
  Sphere.wiscombe_yang [1; 2] [C1; C1] = Raise ValueError
  /\ FastSphere.wiscombe_yang [1; 2] [C1; C1] = Ok (spec_select [1; 2] [C1; C1])
  /\ (forall x m, x <> [] -> length m = length x ->
                  FastSphere.wiscombe_yang x m = Ok (spec_select x m))
  /\ (forall x0 m0, Sphere.wiscombe_yang [x0] [m0] = Ok (spec_select [x0] [m0])).
Proof.
  split; [| split; [| split]].
  - apply Sphere_wiscombe_yang_multilayer. simpl. lia.
  - apply FastSphere_wiscombe_yang_spec; [congruence | reflexivity].
  - exact FastSphere_wiscombe_yang_spec.
  - exact Sphere_wiscombe_yang_single.
Qed.

(** C10.  In the array-oriented implementation the selector raises on
    every input of two or more layers, and so does the entry point that
    calls it; the selector returns only on single-layer input, where it
    does return; the JIT-kernel selector accepts every non-empty input of
    matching lengths. *)
Theorem array_selector_rejects_multilayer :
  (forall x m, (2 <= length x)%nat -> Sphere.wiscombe_yang x m = Raise ValueError)
  /\ (forall uninit a_p n_p n_m wavelength,
         (2 <= length a_p)%nat ->
         is_error (Sphere.mie_coefficients uninit a_p n_p n_m wavelength))
  /\ (forall x m N, Sphere.wiscombe_yang x m = Ok N -> length x = 1%nat)
  /\ (forall x0 m0, is_ok (Sphere.wiscombe_yang [x0] [m0]))
  /\ (forall x m, x <> [] -> length m = length x ->
                  is_ok (FastSphere.wiscombe_yang x m)).
Proof.
  split; [exact Sphere_wiscombe_yang_multilayer |].
  split; [exact Sphere_mie_coefficients_multilayer |].
  split; [exact Sphere_wiscombe_yang_ok_single |].
  split.
  - intros x0 m0. eexists. apply Sphere_wiscombe_yang_single.
  - intros x m Hx Hm. eexists. apply FastSphere_wiscombe_yang_spec; assumption.
Qed.

Lemma array_selector_rejects_multilayer_witness :
  Sphere.wiscombe_yang [1; 2] [C1; C1] = Raise ValueError
  /\ is_error (Sphere.mie_coefficients (fun _ => C0) [1; 2] [C1; C1] C1 1)
  /\ is_ok (FastSphere.wiscombe_yang [1; 2] [C1; C1]).
Proof.
  split; [| split].
  - apply (proj1 array_selector_rejects_multilayer). simpl. lia.
  - apply (proj1 (proj2 array_selector_rejects_multilayer)). simpl. lia.
  - apply (proj2 (proj2 (proj2 (proj2 array_selector_rejects_multilayer)))).
    + discriminate.
    + reflexivity.
Defined.

(** Every order that a selector returns is at least 1. *)
Lemma selector_order_ge_1 (x : list R) (m : list C) :
  x <> [] -> length m = length x ->
  (exists N, FastSphere.wiscombe_yang x m = Ok N /\ (1 <= N)%Z)
  /\ (forall N, Sphere.wiscombe_yang x m = Ok N -> (1 <= N)%Z)
  /\ (length x = 1%nat -> exists N, Sphere.wiscombe_yang x m = Ok N /\ (1 <= N)%Z).
Proof.
  intros Hx Hm.
  assert (Hsingle : length x = 1%nat ->
                    Sphere.wiscombe_yang x m = Ok (spec_select x m)).
  { intros H1. destruct x as [| x0 [| ? ?]]; try discriminate.
    destruct m as [| m0 [| ? ?]]; try discriminate.
    apply Sphere_wiscombe_yang_single. }
  split; [| split].
  - exists (spec_select x m). split; [| apply spec_select_ge_1].
    apply FastSphere_wiscombe_yang_spec; assumption.
  - intros N HN.
    pose proof (Sphere_wiscombe_yang_ok_single x m N HN) as H1.
    rewrite (Hsingle H1) in HN. injection HN as <-. apply spec_select_ge_1.
  - intros H1. exists (spec_select x m). split; [apply Hsingle, H1 |].
    apply spec_select_ge_1.
Qed.

(** C7.  The truncation order is at least 1: the JIT-kernel selector
    returns such an order on every non-empty input of matching lengths, the
    array-oriented selector on every single layer, and no selector ever
    returns a smaller one; but on the two-layer input [x = [1, 2]],
    [m = [1, 1]], whose outermost size parameter is non-zero, the
    array-oriented selector raises [ValueError] and returns no order. *)
Theorem truncation_order_at_least_one :
  (0 < Rabs (last [1; 2] 0)
   /\ Sphere.wiscombe_yang [1; 2] [C1; C1] = Raise ValueError
   /\ exists N, FastSphere.wiscombe_yang [1; 2] [C1; C1] = Ok N /\ (1 <= N)%Z)
  /\ (forall x m, x <> [] -> length m = length x ->
                  exists N, FastSphere.wiscombe_yang x m = Ok N /\ (1 <= N)%Z)
  /\ (forall x m N, x <> [] -> length m = length x ->
                    Sphere.wiscombe_yang x m = Ok N -> (1 <= N)%Z)
  /\ (forall x0 m0, exists N, Sphere.wiscombe_yang [x0] [m0] = Ok N /\ (1 <= N)%Z).
Proof.
  split; [| split; [| split]].
  - split; [| split].
    + cbn [last]. rewrite Rabs_pos_eq; lra.
    + apply Sphere_wiscombe_yang_multilayer. simpl. lia.
    + apply (selector_order_ge_1 [1; 2] [C1; C1]); [discriminate | reflexivity].
  - intros x m Hx Hm. apply (selector_order_ge_1 x m Hx Hm).
  - intros x m N Hx Hm. apply (selector_order_ge_1 x m Hx Hm).
  - intros x0 m0.
    apply (selector_order_ge_1 [x0] [m0]); [discriminate | reflexivity | reflexivity].
Qed.

(** C6, as the code has it.  With the layer count, the relative indices
    and the inner size parameters kept, the truncation order does not
    decrease when the outermost size parameter grows from [a >= 0] to [b],
    provided both lie on the same side of 4200 (both at most 4200, which
    covers the boundary at 8, or both above 4200). *)
Theorem truncation_order_monotone_within_piece (pre : list R) (m : list C) (a b : R) :
  length m = S (length pre) -> 0 <= a <= b -> (b <= 4200 \/ 4200 < a) ->
  (exists N N', FastSphere.wiscombe_yang (pre ++ [a]) m = Ok N
                /\ FastSphere.wiscombe_yang (pre ++ [b]) m = Ok N' /\ (N <= N')%Z)
  /\ (pre = [] ->
      exists N N', Sphere.wiscombe_yang [a] m = Ok N
                   /\ Sphere.wiscombe_yang [b] m = Ok N' /\ (N <= N')%Z).
Proof.
  intros Hm Hab Hside.
  assert (Habs : Rabs a <= Rabs b) by (rewrite !Rabs_pos_eq; lra).
  assert (Hns : (spec_ns (Rabs a) <= spec_ns (Rabs b))%Z).
  { rewrite !Rabs_pos_eq by lra.
    destruct Hside; [apply spec_ns_mono_low | apply spec_ns_mono_high]; lra. }
  pose proof (spec_select_mono pre m a b Habs Hns) as Hmono.
  split.
  - exists (spec_select (pre ++ [a]) m), (spec_select (pre ++ [b]) m).
    repeat split; try exact Hmono;
      apply FastSphere_wiscombe_yang_spec;
      try (rewrite length_app; simpl; lia);
      intros E; apply (f_equal (@length R)) in E;
      rewrite length_app in E; simpl in E; lia.
  - intros ->. simpl in Hm. destruct m as [| m0 [| ? ?]]; try discriminate.
    exists (spec_select [a] [m0]), (spec_select [b] [m0]).
    repeat split; try exact Hmono; apply Sphere_wiscombe_yang_single.
Qed.

Lemma truncation_order_monotone_within_piece_witness :
  (exists N N', FastSphere.wiscombe_yang ([1] ++ [2]) [C1; C1] = Ok N
                /\ FastSphere.wiscombe_yang ([1] ++ [3]) [C1; C1] = Ok N'
                /\ (N <= N')%Z)
  /\ ([1] = [] ->
      exists N N', Sphere.wiscombe_yang [2] [C1; C1] = Ok N
                   /\ Sphere.wiscombe_yang [3] [C1; C1] = Ok N' /\ (N <= N')%Z).
Proof.
  apply (truncation_order_monotone_within_piece [1] [C1; C1] 2 3).
  - reflexivity.
  - lra.
  - left. lra.
Defined.

(** C6, as stated, fails: for a single layer of relative index 1 the order
    is 4267 at [x = 4200] and 4266 at [x = 4200.25], in both
    implementations. *)
Lemma truncation_order_drops_past_4200 :
  FastSphere.wiscombe_yang [4200] [C1] = Ok 4267%Z
  /\ FastSphere.wiscombe_yang [4200.25] [C1] = Ok 4266%Z
  /\ Sphere.wiscombe_yang [4200] [C1] = Ok 4267%Z
  /\ Sphere.wiscombe_yang [4200.25] [C1] = Ok 4266%Z
  /\ ~ selector_monotone FastSphere.wiscombe_yang
  /\ ~ selector_monotone Sphere.wiscombe_yang.
Proof.
  assert (F1 : FastSphere.wiscombe_yang [4200] [C1] = Ok 4267%Z).
  { rewrite FastSphere_wiscombe_yang_spec by (congruence || reflexivity).
    rewrite spec_select_4200. reflexivity. }
  assert (F2 : FastSphere.wiscombe_yang [4200.25] [C1] = Ok 4266%Z).
  { rewrite FastSphere_wiscombe_yang_spec by (congruence || reflexivity).
    rewrite spec_select_4200_25. reflexivity. }
  assert (S1 : Sphere.wiscombe_yang [4200] [C1] = Ok 4267%Z).
  { rewrite Sphere_wiscombe_yang_single, spec_select_4200. reflexivity. }
  assert (S2 : Sphere.wiscombe_yang [4200.25] [C1] = Ok 4266%Z).
  { rewrite Sphere_wiscombe_yang_single, spec_select_4200_25. reflexivity. }
  repeat split; try assumption.
  - intros H.
    pose proof (H [] [C1] 4200 4200.25 4267%Z 4266%Z eq_refl ltac:(lra) F1 F2).
    lia.
  - intros H.
    pose proof (H [] [C1] 4200 4200.25 4267%Z 4266%Z eq_refl ltac:(lra) S1 S2).
    lia.
Qed.

(** ** Scalar divisions of the compiled kernel *)

Lemma is_zero_spec (b : C) : is_zero b = true <-> b = C0.
Proof.
  unfold is_zero. destruct b as [r i]. cbn [Re Im].
  destruct (Req_dec_T r 0) as [-> | Hr]; [destruct (Req_dec_T i 0) as [-> | Hi] |].
  - split; reflexivity.
  - split; [discriminate |]. intros E. exfalso. apply Hi.
    apply (f_equal Im) in E. exact E.
  - split; [discriminate |]. intros E. exfalso. apply Hr.
    apply (f_equal Re) in E. exact E.
Qed.

Lemma jit_div_ok (a b : C) : b <> C0 -> jit_div a b = Ok (a / b)%C.
Proof.
  intros H. unfold jit_div. destruct (is_zero b) eqn:E; [| reflexivity].
  exfalso. apply H, is_zero_spec, E.
Qed.

Lemma jit_div_zero (a b : C) : b = C0 -> jit_div a b = Raise ZeroDivisionError.
Proof.
  intros H. unfold jit_div. apply is_zero_spec in H. rewrite H. reflexivity.
Qed.

Lemma jit_fdiv_ok (a b : R) : b <> 0 -> jit_fdiv a b = Ok (a / b).
Proof.
  intros H. unfold jit_fdiv. destruct (Req_dec_T b 0); [contradiction | reflexivity].
Qed.

Lemma jit_fdiv_zero (a b : R) : b = 0 -> jit_fdiv a b = Raise ZeroDivisionError.
Proof.
  intros H. unfold jit_fdiv. destruct (Req_dec_T b 0); [reflexivity | contradiction].
Qed.

Lemma C_zero_dec (b : C) : b = C0 \/ b <> C0.
Proof.
  destruct (is_zero b) eqn:E.
  - left. apply is_zero_spec, E.
  - right. intros H. apply is_zero_spec in H. congruence.
Qed.

Lemma last_indep {A : Type} (l : list A) (d d' : A) : l <> [] -> last l d = last l d'.
Proof.
  induction l as [| a [| b t] IH]; intros H; [congruence | reflexivity |].
  change (last (b :: t) d = last (b :: t) d'). apply IH. discriminate.
Qed.

Lemma unchecked_nth {A : Type} (wild : nat -> A) (l : list A) (i : nat) (d : A) :
  (i < length l)%nat -> unchecked wild l i = nth i l d.
Proof. intros H. unfold unchecked. apply nth_indep, H. Qed.

Lemma unchecked_last_last {A : Type} (wild : nat -> A) (l : list A) (d : A) :
  l <> [] -> unchecked_last wild l = last l d.
Proof. intros H. unfold unchecked_last. apply last_indep, H. Qed.

(** ** Loops whose passes may raise *)

Lemma foreach_seq_checked {S : Type} (body : nat -> S -> result S)
    (Inv : nat -> S -> Prop) (G : nat -> Prop) (e : pyerr) (len a : nat) (s : S) :
  Inv a s ->
  (forall n t, (a <= n < a + len)%nat -> Inv n t -> G n ->
               exists t', body n t = Ok t' /\ Inv (Datatypes.S n) t') ->
  (forall n t, (a <= n < a + len)%nat -> Inv n t -> ~ G n -> body n t = Raise e) ->
  ((forall n, (a <= n < a + len)%nat -> G n) ->
   exists s', foreach (seq a len) body s = Ok s' /\ Inv (a + len)%nat s')
  /\ (~ (forall n, (a <= n < a + len)%nat -> G n) ->
      foreach (seq a len) body s = Raise e).
Proof.
  revert a s. induction len as [| len IH]; intros a s H0 Hgood Hbad.
  - split.
    + intros _. exists s. rewrite Nat.add_0_r. split; [reflexivity | exact H0].
    + intros H. exfalso. apply H. intros n Hn. lia.
  - cbn [seq foreach]. destruct (classic (G a)) as [Ga | Ga].
    + destruct (Hgood a s ltac:(lia) H0 Ga) as [t [-> Ht]]. cbn [bind].
      destruct (IH (Datatypes.S a) t Ht) as [IH1 IH2].
      * intros n u Hn. apply Hgood. lia.
      * intros n u Hn. apply Hbad. lia.
      * split.
        -- intros Hall. destruct IH1 as [s' [Hs' Hinv]].
           { intros n Hn. apply Hall. lia. }
           exists s'. split; [exact Hs' |].
           replace (a + Datatypes.S len)%nat with (Datatypes.S a + len)%nat by lia.
           exact Hinv.
        -- intros Hnot. apply IH2. intros Hall. apply Hnot. intros n Hn.
           destruct (Nat.eq_dec n a) as [-> | Hne]; [exact Ga | apply Hall; lia].
    + rewrite (Hbad a s ltac:(lia) H0 Ga). cbn [bind]. split.
      * intros Hall. exfalso. apply Ga, Hall. lia.
      * intros _. reflexivity.
Qed.

Lemma foreach_down_checked {S : Type} (body : nat -> S -> result S)
    (Inv : nat -> S -> Prop) (G : nat -> Prop) (e : pyerr) (n : nat) (s : S) :
  Inv n s ->
  (forall k t, (k < n)%nat -> Inv (Datatypes.S k) t -> G (Datatypes.S k) ->
               exists t', body (Datatypes.S k) t = Ok t' /\ Inv k t') ->
  (forall k t, (k < n)%nat -> Inv (Datatypes.S k) t -> ~ G (Datatypes.S k) ->
               body (Datatypes.S k) t = Raise e) ->
  ((forall k, (1 <= k <= n)%nat -> G k) ->
   exists s', foreach (range_down n) body s = Ok s' /\ Inv 0%nat s')
  /\ (~ (forall k, (1 <= k <= n)%nat -> G k) ->
      foreach (range_down n) body s = Raise e).
Proof.
  revert s. induction n as [| n IH]; intros s H0 Hgood Hbad.
  - split.
    + intros _. exists s. split; [reflexivity | exact H0].
    + intros H. exfalso. apply H. intros k Hk. lia.
  - cbn [range_down foreach]. destruct (classic (G (Datatypes.S n))) as [Gn | Gn].
    + destruct (Hgood n s ltac:(lia) H0 Gn) as [t [-> Ht]]. cbn [bind].
      destruct (IH t Ht) as [IH1 IH2].
      * intros k u Hk. apply Hgood. lia.
      * intros k u Hk. apply Hbad. lia.
      * split.
        -- intros Hall. apply IH1. intros k Hk. apply Hall. lia.
        -- intros Hnot. apply IH2. intros Hall. apply Hnot. intros k Hk.
           destruct (Nat.eq_dec k (Datatypes.S n)) as [-> | Hne];
             [exact Gn | apply Hall; lia].
    + rewrite (Hbad n s ltac:(lia) H0 Gn). cbn [bind]. split.
      * intros Hall. exfalso. apply Gn, Hall. lia.
      * intros _. reflexivity.
Qed.

(** ** The downward recurrence in the compiled kernel *)

(** One pass of Eq. (16b) on an array whose cells above [k] hold the closed
    form: it fills cell [k], or raises when a divisor is zero. *)
Lemma d1_checked_pass (body : nat -> list C -> result (list C)) (nz : nat -> C)
    (ok : Prop) (top k : nat) (d : list C) :
  (forall n v, ok -> (nth n v C0 + nz n)%C <> C0 -> (n < length v)%nat ->
     body n v = assign v (n - 1) (nz n - C1 / (nth n v C0 + nz n))%C) ->
  (forall n v, (n < length v)%nat -> ~ (ok /\ (nth n v C0 + nz n)%C <> C0) ->
     body n v = Raise ZeroDivisionError) ->
  (k < top)%nat -> length d = S top ->
  (forall i, (S k <= i <= top)%nat -> nth i d C0 = D1 nz top i) ->
  (ok /\ (D1 nz top (S k) + nz (S k))%C <> C0 ->
   exists d', body (S k) d = Ok d' /\ length d' = S top
              /\ forall i, (k <= i <= top)%nat -> nth i d' C0 = D1 nz top i)
  /\ (~ (ok /\ (D1 nz top (S k) + nz (S k))%C <> C0) ->
      body (S k) d = Raise ZeroDivisionError).
Proof.
  intros Hgood Hbad Hk Hl Hv. split.
  - intros [Hok Hne]. rewrite Hgood; try assumption; try lia.
    2:{ rewrite Hv by lia. exact Hne. }
    replace (S k - 1)%nat with k by lia.
    rewrite assign_ok by lia. eexists. split; [reflexivity |].
    split; [rewrite length_update; exact Hl |].
    intros i Hi. destruct (Nat.eq_dec i k) as [-> | Hne'].
    + rewrite nth_update_eq by lia. rewrite Hv by lia.
      rewrite (D1_step nz top k) by lia. reflexivity.
    + rewrite nth_update_neq by lia. apply Hv. lia.
  - intros Hnot. apply Hbad; [lia |]. rewrite Hv by lia. exact Hnot.
Qed.

Lemma d1_checked_loop (body : nat -> list C -> result (list C)) (nz : nat -> C)
    (ok : Prop) (top : nat) (d1 : list C) :
  (forall n v, ok -> (nth n v C0 + nz n)%C <> C0 -> (n < length v)%nat ->
     body n v = assign v (n - 1) (nz n - C1 / (nth n v C0 + nz n))%C) ->
  (forall n v, (n < length v)%nat -> ~ (ok /\ (nth n v C0 + nz n)%C <> C0) ->
     body n v = Raise ZeroDivisionError) ->
  length d1 = S top -> nth top d1 C0 = C0 ->
  ((forall n, (1 <= n <= top)%nat -> ok /\ (D1 nz top n + nz n)%C <> C0) ->
   foreach (range_down top) body d1 = Ok (D1_list nz top))
  /\ (~ (forall n, (1 <= n <= top)%nat -> ok /\ (D1 nz top n + nz n)%C <> C0) ->
      foreach (range_down top) body d1 = Raise ZeroDivisionError).
Proof.
  intros Hgood Hbad Hlen Hseed.
  destruct (foreach_down_checked body
              (fun n d => length d = S top
                          /\ forall i, (n <= i <= top)%nat -> nth i d C0 = D1 nz top i)
              (fun n => ok /\ (D1 nz top n + nz n)%C <> C0)
              ZeroDivisionError top d1) as [H1 H2].
  - split; [exact Hlen |]. intros i Hi. replace i with top by lia.
    rewrite Hseed, D1_top. reflexivity.
  - intros k d Hk [Hl Hv] HG.
    destruct (d1_checked_pass body nz ok top k d Hgood Hbad Hk Hl Hv) as [P _].
    destruct (P HG) as [d' (E & L & V)]. exists d'. split; [exact E |]. split; assumption.
  - intros k d Hk [Hl Hv] HG.
    destruct (d1_checked_pass body nz ok top k d Hgood Hbad Hk Hl Hv) as [_ P].
    apply P, HG.
  - split; [| exact H2].
    intros Hall. destruct (H1 Hall) as [d' [Hd' [Hl Hv]]].
    rewrite Hd'. f_equal.
    apply (nth_ext _ _ C0 C0); [rewrite length_D1_list; exact Hl |].
    intros i Hi. rewrite nth_D1_list by lia. apply Hv. lia.
Qed.

Lemma FastSphere_d1_step_good (z : C) (n : nat) (v : list C) :
  z <> C0 -> (nth n v C0 + over_complex z n)%C <> C0 -> (n < length v)%nat ->
  FastSphere.d1_step z n v
  = assign v (n - 1) (over_complex z n - C1 / (nth n v C0 + over_complex z n))%C.
Proof.
  intros Hz Hne Hn. unfold FastSphere.d1_step, over_complex in *.
  rewrite jit_div_ok by exact Hz. cbn [bind].
  rewrite (item_nth v n C0) by exact Hn. cbn [bind].
  rewrite jit_div_ok by exact Hne. reflexivity.
Qed.

Lemma FastSphere_d1_step_bad (z : C) (n : nat) (v : list C) :
  (n < length v)%nat -> ~ (z <> C0 /\ (nth n v C0 + over_complex z n)%C <> C0) ->
  FastSphere.d1_step z n v = Raise ZeroDivisionError.
Proof.
  intros Hn Hnot. unfold FastSphere.d1_step, over_complex in *.
  destruct (C_zero_dec z) as [Hz | Hz]; [rewrite jit_div_zero by exact Hz; reflexivity |].
  rewrite jit_div_ok by exact Hz. cbn [bind].
  rewrite (item_nth v n C0) by exact Hn. cbn [bind].
  destruct (C_zero_dec (nth n v C0 + NtoC n / z)%C) as [H0 | H0];
    [rewrite jit_div_zero by exact H0; reflexivity |].
  exfalso. apply Hnot. split; assumption.
Qed.

Lemma FastSphere_d1_step_medium_good (z1 : R) (n : nat) (v : list C) :
  z1 <> 0 -> (nth n v C0 + over_float z1 n)%C <> C0 -> (n < length v)%nat ->
  FastSphere.d1_step_medium z1 n v
  = assign v (n - 1) (over_float z1 n - C1 / (nth n v C0 + over_float z1 n))%C.
Proof.
  intros Hz Hne Hn. unfold FastSphere.d1_step_medium, over_float in *.
  rewrite jit_fdiv_ok by exact Hz. cbn [bind].
  rewrite (item_nth v n C0) by exact Hn. cbn [bind].
  rewrite jit_div_ok by exact Hne. reflexivity.
Qed.

Lemma FastSphere_d1_step_medium_bad (z1 : R) (n : nat) (v : list C) :
  (n < length v)%nat -> ~ (z1 <> 0 /\ (nth n v C0 + over_float z1 n)%C <> C0) ->
  FastSphere.d1_step_medium z1 n v = Raise ZeroDivisionError.
Proof.
  intros Hn Hnot. unfold FastSphere.d1_step_medium, over_float in *.
  destruct (Req_dec z1 0) as [Hz | Hz]; [rewrite jit_fdiv_zero by exact Hz; reflexivity |].
  rewrite jit_fdiv_ok by exact Hz. cbn [bind].
  rewrite (item_nth v n C0) by exact Hn. cbn [bind].
  destruct (C_zero_dec (nth n v C0 + RtoC (INR n / z1))%C) as [H0 | H0];
    [rewrite jit_div_zero by exact H0; reflexivity |].
  exfalso. apply Hnot. split; assumption.
Qed.

(** The downward loop of the core and of a layer: it returns the closed
    form when [z] and every divisor [D1[n] + n/z] are non-zero, and raises
    [ZeroDivisionError] otherwise. *)
Lemma FastSphere_d1_loop (z : C) (top : nat) (d1 : list C) :
  length d1 = S top -> nth top d1 C0 = C0 ->
  ((forall n, (1 <= n <= top)%nat ->
      z <> C0 /\ (D1 (over_complex z) top n + over_complex z n)%C <> C0) ->
   foreach (range_down top) (FastSphere.d1_step z) d1 = Ok (D1_list (over_complex z) top))
  /\ (~ (forall n, (1 <= n <= top)%nat ->
           z <> C0 /\ (D1 (over_complex z) top n + over_complex z n)%C <> C0) ->
      foreach (range_down top) (FastSphere.d1_step z) d1 = Raise ZeroDivisionError).
Proof.
  apply d1_checked_loop.
  - intros n v. apply FastSphere_d1_step_good.
  - intros n v. apply FastSphere_d1_step_bad.
Qed.

Lemma FastSphere_d1_medium_loop (z1 : R) (top : nat) (d1 : list C) :
  length d1 = S top -> nth top d1 C0 = C0 ->
  ((forall n, (1 <= n <= top)%nat ->
      z1 <> 0 /\ (D1 (over_float z1) top n + over_float z1 n)%C <> C0) ->
   foreach (range_down top) (FastSphere.d1_step_medium z1) d1
   = Ok (D1_list (over_float z1) top))
  /\ (~ (forall n, (1 <= n <= top)%nat ->
           z1 <> 0 /\ (D1 (over_float z1) top n + over_float z1 n)%C <> C0) ->
      foreach (range_down top) (FastSphere.d1_step_medium z1) d1
      = Raise ZeroDivisionError).
Proof.
  apply d1_checked_loop.
  - intros n v. apply FastSphere_d1_step_medium_good.
  - intros n v. apply FastSphere_d1_step_medium_bad.
Qed.

(** The two recurrences of a layer, pass by pass *)
Lemma FastSphere_d1_pair_loop (z1 z2 : C) (top : nat) (d1_z1 d1_z2 : list C) :
  length d1_z1 = S top -> nth top d1_z1 C0 = C0 ->
  length d1_z2 = S top -> nth top d1_z2 C0 = C0 ->
  let G := fun n =>
    (z1 <> C0 /\ (D1 (over_complex z1) top n + over_complex z1 n)%C <> C0)
    /\ (z2 <> C0 /\ (D1 (over_complex z2) top n + over_complex z2 n)%C <> C0) in
  ((forall n, (1 <= n <= top)%nat -> G n) ->
   foreach (range_down top) (FastSphere.d1_step_pair z1 z2) (d1_z1, d1_z2)
   = Ok (D1_list (over_complex z1) top, D1_list (over_complex z2) top))
  /\ (~ (forall n, (1 <= n <= top)%nat -> G n) ->
      foreach (range_down top) (FastSphere.d1_step_pair z1 z2) (d1_z1, d1_z2)
      = Raise ZeroDivisionError).
Proof.
  intros L1 S1 L2 S2 G.
  pose (cells := fun (z : C) (n : nat) (d : list C) =>
          length d = S top
          /\ forall i, (n <= i <= top)%nat -> nth i d C0 = D1 (over_complex z) top i).
  destruct (foreach_down_checked (FastSphere.d1_step_pair z1 z2)
              (fun n p => cells z1 n (fst p) /\ cells z2 n (snd p))
              G ZeroDivisionError top (d1_z1, d1_z2)) as [H1 H2].
  - cbn [fst snd]. split; (split; [assumption |]); intros i Hi;
      replace i with top by lia; rewrite D1_top; assumption.
  - intros k [a b] Hk [[La Va] [Lb Vb]] [Ga Gb]. cbn [fst snd] in *.
    destruct (d1_checked_pass (FastSphere.d1_step z1) (over_complex z1) (z1 <> C0)
                top k a (FastSphere_d1_step_good z1) (FastSphere_d1_step_bad z1)
                Hk La Va) as [Pa _].
    destruct (d1_checked_pass (FastSphere.d1_step z2) (over_complex z2) (z2 <> C0)
                top k b (FastSphere_d1_step_good z2) (FastSphere_d1_step_bad z2)
                Hk Lb Vb) as [Pb _].
    destruct (Pa Ga) as [a' (Ea & La' & Va')]. destruct (Pb Gb) as [b' (Eb & Lb' & Vb')].
    exists (a', b'). unfold FastSphere.d1_step_pair. cbn [fst snd].
    rewrite Ea. cbn [bind]. rewrite Eb. cbn [bind].
    split; [reflexivity |]. split; split; assumption.
  - intros k [a b] Hk [[La Va] [Lb Vb]] HG. cbn [fst snd] in *.
    destruct (d1_checked_pass (FastSphere.d1_step z1) (over_complex z1) (z1 <> C0)
                top k a (FastSphere_d1_step_good z1) (FastSphere_d1_step_bad z1)
                Hk La Va) as [Pa Qa].
    destruct (d1_checked_pass (FastSphere.d1_step z2) (over_complex z2) (z2 <> C0)
                top k b (FastSphere_d1_step_good z2) (FastSphere_d1_step_bad z2)
                Hk Lb Vb) as [_ Qb].
    unfold FastSphere.d1_step_pair. cbn [fst snd].
    destruct (classic (z1 <> C0
                       /\ (D1 (over_complex z1) top (S k) + over_complex z1 (S k))%C <> C0))
      as [Ga | Ga].
    + destruct (Pa Ga) as [a' (Ea & _)]. rewrite Ea. cbn [bind].
      rewrite Qb; [reflexivity |]. intros Gb. apply HG. split; assumption.
    + rewrite (Qa Ga). reflexivity.
  - split; [| exact H2].
    intros Hall. destruct (H1 Hall) as [[a b] [E [[La Va] [Lb Vb]]]].
    cbn [fst snd] in *. rewrite E. f_equal. f_equal.
    + apply (nth_ext _ _ C0 C0); [rewrite length_D1_list; exact La |].
      intros i Hi. rewrite nth_D1_list by lia. apply Va. lia.
    + apply (nth_ext _ _ C0 C0); [rewrite length_D1_list; exact Lb |].
      intros i Hi. rewrite nth_D1_list by lia. apply Vb. lia.
Qed.

(** ** The last phase of the compiled kernel *)

Lemma FastSphere_medium_pass (z1 : R) (d1 : nat -> C) (N : nat) (d1_z1 : list C)
    (k : nat) (t : medium_state) :
  (N < length d1_z1)%nat ->
  (forall i, (i <= N)%nat -> nth i d1_z1 C0 = d1 i) ->
  (1 <= S k < 1 + N)%nat -> medium_inv z1 d1 N (S k) t ->
  (z1 <> 0 /\ mp_psizeta (medium_at z1 d1 (S k)) <> C0 ->
   exists t', FastSphere.medium_step z1 d1_z1 (S k) t = Ok t'
              /\ medium_inv z1 d1 N (S (S k)) t')
  /\ (~ (z1 <> 0 /\ mp_psizeta (medium_at z1 d1 (S k)) <> C0) ->
      FastSphere.medium_step z1 d1_z1 (S k) t = Raise ZeroDivisionError).
Proof.
  intros Hlen Hd1 Hn (Hpsi & Hzeta & Hd3 & Hpz & Hv).
  destruct (Hv k ltac:(lia)) as (Vpsi & Vzeta & Vd3).
  unfold FastSphere.medium_step. replace (S k - 1)%nat with k in * by lia.
  rewrite (item_nth (ms_psi t) k C0) by lia. cbn [bind].
  destruct (Req_dec z1 0) as [Hz | Hz].
  { rewrite jit_fdiv_zero by exact Hz. cbn [bind]. split.
    - intros [H _]. contradiction.
    - intros _. reflexivity. }
  rewrite jit_fdiv_ok by exact Hz. cbn [bind].
  rewrite (item_nth d1_z1 k C0) by lia. cbn [bind].
  rewrite assign_ok by lia. cbn [bind].
  rewrite (item_nth (ms_zeta t) k C0) by lia. cbn [bind].
  rewrite (item_nth (ms_d3_z1 t) k C0) by lia. cbn [bind].
  rewrite assign_ok by lia. cbn [bind].
  rewrite (item_nth d1_z1 (S k) C0) by lia. cbn [bind].
  rewrite Vpsi, Vzeta, Vd3, Hpz, !Hd1 by lia.
  change (RtoC (INR (S k) / z1)) with (over_float z1 (S k)).
  assert (E : (mp_psizeta (medium_at z1 d1 k)
               * ((over_float z1 (S k) - d1 k)
                  * (over_float z1 (S k) - mp_d3 (medium_at z1 d1 k))))%C
              = mp_psizeta (medium_at z1 d1 (S k))) by reflexivity.
  rewrite E.
  destruct (C_zero_dec (mp_psizeta (medium_at z1 d1 (S k)))) as [H0 | H0].
  { rewrite jit_div_zero by exact H0. cbn [bind]. split.
    - intros [_ H]. contradiction.
    - intros _. reflexivity. }
  rewrite jit_div_ok by exact H0. cbn [bind].
  rewrite assign_ok by lia. cbn [bind]. split.
  2:{ intros Hnot. exfalso. apply Hnot. split; assumption. }
  intros _. eexists. split; [reflexivity |].
  unfold medium_inv. cbn [ms_psi ms_zeta ms_psizeta ms_d3_z1].
  rewrite !length_update.
  replace (S (S k) - 1)%nat with (S k) by lia.
  repeat split; try assumption; try reflexivity.
  - destruct (Nat.eq_dec i (S k)) as [-> | Hne].
    + rewrite nth_update_eq by lia. reflexivity.
    + rewrite nth_update_neq by lia. apply Hv. lia.
  - destruct (Nat.eq_dec i (S k)) as [-> | Hne].
    + rewrite nth_update_eq by lia. reflexivity.
    + rewrite nth_update_neq by lia. apply Hv. lia.
  - destruct (Nat.eq_dec i (S k)) as [-> | Hne].
    + rewrite nth_update_eq by lia. reflexivity.
    + rewrite nth_update_neq by lia. apply Hv. lia.
Qed.

Lemma FastSphere_medium_loop (z1 : R) (d1 : nat -> C) (N : nat) (d1_z1 : list C)
    (s : medium_state) :
  (N < length d1_z1)%nat ->
  (forall i, (i <= N)%nat -> nth i d1_z1 C0 = d1 i) ->
  medium_inv z1 d1 N 1 s ->
  ((forall n, (1 <= n < 1 + N)%nat ->
      z1 <> 0 /\ mp_psizeta (medium_at z1 d1 n) <> C0) ->
   exists s', foreach (seq 1 N) (FastSphere.medium_step z1 d1_z1) s = Ok s'
              /\ medium_inv z1 d1 N (1 + N) s')
  /\ (~ (forall n, (1 <= n < 1 + N)%nat ->
           z1 <> 0 /\ mp_psizeta (medium_at z1 d1 n) <> C0) ->
      foreach (seq 1 N) (FastSphere.medium_step z1 d1_z1) s = Raise ZeroDivisionError).
Proof.
  intros Hlen Hd1 H0.
  apply (foreach_seq_checked (FastSphere.medium_step z1 d1_z1) (medium_inv z1 d1 N)
           (fun n => z1 <> 0 /\ mp_psizeta (medium_at z1 d1 n) <> C0)
           ZeroDivisionError N 1 s H0).
  - intros n t Hn Ht HG. destruct n as [| k]; [lia |].
    apply (FastSphere_medium_pass z1 d1 N d1_z1 k t Hlen Hd1 Hn Ht). exact HG.
  - intros n t Hn Ht HG. destruct n as [| k]; [lia |].
    apply (FastSphere_medium_pass z1 d1 N d1_z1 k t Hlen Hd1 Hn Ht). exact HG.
Qed.

(** The assembly of the table from the arrays the loops have filled: array
    expressions only. *)
Lemma table_assembly (N : nat) (z1 : R) (mlast : C) (d1 : nat -> C)
    (ab : list (C * C)) (ha hb : list C) (s : medium_state) :
  length ab = S N -> length ha = S N -> length hb = S N ->
  medium_inv z1 d1 N (S N) s ->
  (fac <- broadcast Cadd (map (fun h => (h / mlast)%C) ha)
            (map (fun i => RtoC (i / z1)) (map (fun i => INR i) (seq 0 (S N)))) ;;
   col <- column fac (ms_psi s) (ms_zeta s) ;;
   ab <- set_column_a ab col ;;
   fac <- broadcast Cadd (map (fun h => (h * mlast)%C) hb)
            (map (fun i => RtoC (i / z1)) (map (fun i => INR i) (seq 0 (S N)))) ;;
   col <- column fac (ms_psi s) (ms_zeta s) ;;
   ab <- set_column_b ab col ;;
   assign ab 0 (C0, C0))
  = Ok ((C0, C0)
        :: map (fun n => (coefficient z1 d1 (fac_a z1 mlast ha n) n,
                          coefficient z1 d1 (fac_b z1 mlast hb n) n))
             (seq 1 N)).
Proof.
  intros Hab Hha Hhb (Lpsi & Lzeta & Ld3 & _ & Hv).
  rewrite (broadcast_same Cadd) by (rewrite !length_map, length_seq; lia).
  cbn [bind].
  destruct (column_values N
              (zip_with Cadd (map (fun h => (h / mlast)%C) ha)
                 (map (fun i => RtoC (i / z1)) (map (fun i => INR i) (seq 0 (S N)))))
              (ms_psi s) (ms_zeta s)) as [ca [-> [Lca Vca]]]; try assumption.
  { rewrite length_zip_with, !length_map, length_seq. lia. }
  cbn [bind]. rewrite set_column_a_same by lia. cbn [bind].
  rewrite (broadcast_same Cadd) by (rewrite !length_map, length_seq; lia).
  cbn [bind].
  destruct (column_values N
              (zip_with Cadd (map (fun h => (h * mlast)%C) hb)
                 (map (fun i => RtoC (i / z1)) (map (fun i => INR i) (seq 0 (S N)))))
              (ms_psi s) (ms_zeta s)) as [cb [-> [Lcb Vcb]]]; try assumption.
  { rewrite length_zip_with, !length_map, length_seq. lia. }
  cbn [bind].
  rewrite set_column_b_same by (rewrite length_zip_with; lia). cbn [bind].
  rewrite assign_ok by (rewrite !length_zip_with; lia).
  f_equal. apply (nth_ext _ _ (C0, C0) (C0, C0)).
  + rewrite length_update, !length_zip_with. cbn [length].
    rewrite length_map, length_seq. lia.
  + intros i Hi. rewrite length_update, !length_zip_with in Hi.
    destruct i as [| j].
    * rewrite nth_update_eq by (rewrite !length_zip_with; lia). reflexivity.
    * rewrite nth_update_neq by lia.
      rewrite (nth_zip_with _ (C0, C0) C0) by (rewrite ?length_zip_with; lia).
      rewrite (nth_zip_with _ (C0, C0) C0) by lia.
      cbn [fst snd]. rewrite Vca, Vcb by lia.
      rewrite !(nth_zip_with Cadd C0 C0) by (rewrite !length_map, ?length_seq; lia).
      cbn [nth].
      rewrite (nth_map_in _ _ _ _ 0%nat) by (rewrite length_seq; lia).
      rewrite seq_nth by lia.
      destruct (Hv (S j) ltac:(lia)) as (-> & -> & _).
      destruct (Hv j ltac:(lia)) as (-> & -> & _).
      unfold coefficient, fac_a, fac_b.
      replace (1 + j - 1)%nat with j by lia.
      replace (1 + j)%nat with (S j) by lia.
      rewrite (nth_map_in (fun h => (h / mlast)%C) ha _ _ C0) by lia.
      rewrite (nth_map_in (fun h => (h * mlast)%C) hb _ _ C0) by lia.
      rewrite (nth_map_in (fun i => RtoC (i / z1)) _ _ _ 0)
        by (rewrite length_map, length_seq; lia).
      rewrite (nth_map_in (fun i => INR i) _ _ _ 0%nat) by (rewrite length_seq; lia).
      rewrite seq_nth by lia. reflexivity.
Qed.

(** The last phase of the compiled kernel returns the table of the closed
    forms when no scalar divisor of its two loops is zero, and raises
    [ZeroDivisionError] otherwise. *)
Lemma FastSphere_into_medium_outcome (wild : nat -> C) (N : nat) (x : list R)
    (m : list C) (ab : list (C * C)) (d1_z1 d3_z1 psi zeta ha hb : list C) :
  (1 <= N)%nat -> x <> [] -> m <> [] ->
  length ab = S N -> length d1_z1 = S N -> nth N d1_z1 C0 = C0 ->
  length d3_z1 = S N -> nth 0 d3_z1 C0 = Ci ->
  length psi = S N -> length zeta = S N -> length ha = S N -> length hb = S N ->
  (FastSphere_medium_runs N (last x 0) ->
   FastSphere.into_medium wild x m (Z.of_nat N) ab d1_z1 d3_z1 psi zeta ha hb
   = Ok (table N N (last x 0) (last m C0) ha hb))
  /\ (~ FastSphere_medium_runs N (last x 0) ->
      FastSphere.into_medium wild x m (Z.of_nat N) ab d1_z1 d3_z1 psi zeta ha hb
      = Raise ZeroDivisionError).
Proof.
  intros HN Hx Hm Hab Hd1 Hseed Hd3 Hd30 Hpsi Hzeta Hha Hhb.
  unfold FastSphere.into_medium. cbv zeta.
  rewrite !(unchecked_last_last _ x 0 Hx), (unchecked_last_last _ m C0 Hm).
  set (z1 := last x 0). set (mlast := last m C0).
  rewrite Nat2Z.id.
  replace (Z.to_nat (Z.of_nat N + 1)) with (S N) by lia.
  unfold range. replace (S N - 1)%nat with N by lia.
  set (d1 := D1 (over_float z1) N).
  destruct (FastSphere_d1_medium_loop z1 N d1_z1 Hd1 Hseed) as [D1good D1bad].
  destruct (classic (forall n, (1 <= n <= N)%nat ->
                       z1 <> 0 /\ (D1 (over_float z1) N n + over_float z1 n)%C <> C0))
    as [G1 | G1].
  2:{ rewrite (D1bad G1). cbn [bind]. split; [| reflexivity].
      intros (R0 & R1 & _). exfalso. apply G1. intros n Hn.
      split; [exact R0 | apply R1, Hn]. }
  rewrite (D1good G1). cbn [bind].
  rewrite !assign_ok by lia. cbn [bind].
  destruct (FastSphere_medium_loop z1 d1 N (D1_list (over_float z1) N)
              (mkMedium (update psi 0 (RtoC (sin z1)))
                 (update zeta 0 (- Ci * Cexp (Ci * RtoC z1))%C)
                 (RtoC 0.5 * (C1 - Cexp (mkC 0 2 * RtoC z1)))%C d3_z1))
    as [Ugood Ubad].
  - rewrite length_D1_list. lia.
  - intros i Hi. apply nth_D1_list. lia.
  - unfold medium_inv. cbn [ms_psi ms_zeta ms_psizeta ms_d3_z1].
    rewrite !length_update. repeat split; try assumption.
    + replace i with 0%nat by lia. apply nth_update_eq. lia.
    + replace i with 0%nat by lia. apply nth_update_eq. lia.
    + replace i with 0%nat by lia. exact Hd30.
  - destruct (classic (forall n, (1 <= n < 1 + N)%nat ->
                         z1 <> 0 /\ mp_psizeta (medium_at z1 d1 n) <> C0)) as [G2 | G2].
    2:{ rewrite (Ubad G2). cbn [bind]. split; [| reflexivity].
        intros (R0 & _ & R2). exfalso. apply G2. intros n Hn.
        split; [exact R0 | apply R2; lia]. }
    destruct (Ugood G2) as [s [-> Hinv]]. cbn [bind].
    rewrite (table_assembly N z1 mlast d1 ab ha hb s Hab Hha Hhb Hinv).
    split; [reflexivity |].
    intros Hnot. exfalso. apply Hnot. unfold FastSphere_medium_runs. fold z1 d1.
    split; [apply (G1 1%nat); lia |].
    split; [intros n Hn; apply (G1 n Hn) | intros n Hn; apply (G2 n); lia].
Qed.

(** ** A layer of the compiled kernel *)

Lemma length_scale (c : C) (v : list C) : length (scale c v) = length v.
Proof. apply length_map. Qed.

Lemma nth_scale (c : C) (v : list C) (n : nat) :
  (n < length v)%nat -> nth n (scale c v) C0 = (c * nth n v C0)%C.
Proof. intros H. unfold scale. apply nth_map_in. exact H. Qed.

Lemma FastSphere_h_update (N : nat) (ma mb : C) (h d1_z1 d1_z2 d3_z1 d3_z2 q : list C) :
  length h = S N -> length d1_z1 = S N -> length d1_z2 = S N ->
  length d3_z1 = S N -> length d3_z2 = S N -> length q = S N ->
  exists l,
    h_update (fun q g1 => broadcast Cmul q g1) ma mb h d1_z1 d1_z2 d3_z1 d3_z2 q = Ok l
    /\ length l = S N
    /\ forall n, (n <= N)%nat ->
         nth n l C0
         = h_formula ma mb (nth n h C0) (nth n d1_z1 C0) (nth n d1_z2 C0)
             (nth n d3_z1 C0) (nth n d3_z2 C0) (nth n q C0).
Proof.
  intros Lh L1 L2 L3 L4 Lq. unfold h_update.
  repeat (rewrite broadcast_same
            by (rewrite ?length_zip_with, ?length_scale; lia); cbn [bind]).
  eexists. split; [reflexivity |]. split.
  - rewrite ?length_zip_with, ?length_scale. lia.
  - intros n Hn. unfold h_formula.
    repeat (rewrite (nth_zip_with _ C0 C0)
              by (rewrite ?length_zip_with, ?length_scale; lia)).
    rewrite !nth_scale by lia. reflexivity.
Qed.

Lemma FastSphere_layer_up_pass (wild : nat -> C) (x : list R) (ii : nat)
    (x_in x_out : R) (z1 z2 : C) (d1 d2 : nat -> C) (start : layer_point) (N : nat)
    (d1_z1 d1_z2 : list C) (k : nat) (s : layer_up) :
  unchecked (fun i => Re (wild i)) x (ii - 1) = x_in ->
  unchecked (fun i => Re (wild i)) x ii = x_out ->
  (N < length d1_z1)%nat -> (N < length d1_z2)%nat ->
  (forall i, (i <= N)%nat -> nth i d1_z1 C0 = d1 i) ->
  (forall i, (i <= N)%nat -> nth i d1_z2 C0 = d2 i) ->
  let at_ := FastSphere_layer_at (RtoC ((x_in / x_out) ^ 2)) z1 z2 d1 d2 start in
  let G := fun n =>
    z1 <> C0 /\ z2 <> C0
    /\ lp_psizeta_z1 (at_ n) <> C0 /\ lp_psizeta_z2 (at_ n) <> C0
    /\ x_out <> 0
    /\ (z1 * d1 n + NtoC n)%C <> C0
    /\ (NtoC n - z1 * lp_d3_z1 (at_ (n - 1)%nat))%C <> C0 in
  (1 <= S k < 1 + N)%nat -> layer_up_inv at_ N (S k) s ->
  (G (S k) ->
   exists s', FastSphere.layer_up_step wild x ii z1 z2 d1_z1 d1_z2 (S k) s = Ok s'
              /\ layer_up_inv at_ N (S (S k)) s')
  /\ (~ G (S k) ->
      FastSphere.layer_up_step wild x ii z1 z2 d1_z1 d1_z2 (S k) s
      = Raise ZeroDivisionError).
Proof.
  intros Hin Hout Hl1 Hl2 Hd1 Hd2 at_ G Hn (L3 & L4 & Lq & Hp1 & Hp2 & Hv).
  destruct (Hv k ltac:(lia)) as (V1 & V2 & Vq).
  unfold FastSphere.layer_up_step. cbv zeta. rewrite Hin, Hout.
  replace (S k - 1)%nat with k in * by lia.
  assert (Raised : forall c : result layer_up,
            c = Raise ZeroDivisionError -> ~ G (S k) ->
            (G (S k) -> exists s', c = Ok s' /\ layer_up_inv at_ N (S (S k)) s')
            /\ (~ G (S k) -> c = Raise ZeroDivisionError)).
  { intros c -> HnG. split; [intros HG; contradiction | intros _; reflexivity]. }
  (* n/z1 *)
  destruct (C_zero_dec z1) as [Z1 | Z1].
  { apply Raised; [rewrite jit_div_zero by exact Z1; reflexivity |].
    intros (H & _). contradiction. }
  rewrite (jit_div_ok _ z1 Z1). cbn [bind].
  rewrite (item_nth d1_z1 k C0) by lia. cbn [bind].
  rewrite (item_nth (lu_d3_z1 s) k C0) by lia. cbn [bind].
  (* n/z2 *)
  destruct (C_zero_dec z2) as [Z2 | Z2].
  { apply Raised; [rewrite jit_div_zero by exact Z2; reflexivity |].
    intros (_ & H & _). contradiction. }
  rewrite (jit_div_ok _ z2 Z2). cbn [bind].
  rewrite (item_nth d1_z2 k C0) by lia. cbn [bind].
  rewrite (item_nth (lu_d3_z2 s) k C0) by lia. cbn [bind].
  rewrite (item_nth d1_z1 (S k) C0) by lia. cbn [bind].
  rewrite V1, V2, Hp1, Hp2, !Hd1, !Hd2 by lia.
  assert (E1 : (lp_psizeta_z1 (at_ k)
                * ((NtoC (S k) / z1 - d1 k) * (NtoC (S k) / z1 - lp_d3_z1 (at_ k))))%C
               = lp_psizeta_z1 (at_ (S k))) by reflexivity.
  assert (E2 : (lp_psizeta_z2 (at_ k)
                * ((NtoC (S k) / z2 - d2 k) * (NtoC (S k) / z2 - lp_d3_z2 (at_ k))))%C
               = lp_psizeta_z2 (at_ (S k))) by reflexivity.
  rewrite E1, E2.
  (* 1.j/psizeta_z1 *)
  destruct (C_zero_dec (lp_psizeta_z1 (at_ (S k)))) as [P1 | P1].
  { apply Raised; [rewrite jit_div_zero by exact P1; reflexivity |].
    intros (_ & _ & H & _). contradiction. }
  rewrite (jit_div_ok _ _ P1). cbn [bind].
  rewrite assign_ok by lia. cbn [bind].
  rewrite (item_nth d1_z2 (S k) C0) by lia. cbn [bind].
  (* 1.j/psizeta_z2 *)
  destruct (C_zero_dec (lp_psizeta_z2 (at_ (S k)))) as [P2 | P2].
  { apply Raised; [rewrite jit_div_zero by exact P2; reflexivity |].
    intros (_ & _ & _ & H & _). contradiction. }
  rewrite (jit_div_ok _ _ P2). cbn [bind].
  rewrite assign_ok by lia. cbn [bind].
  rewrite (item_nth (lu_q s) k C0) by lia. cbn [bind].
  (* x[ii-1]/x[ii] *)
  destruct (Req_dec x_out 0) as [X0 | X0].
  { apply Raised; [rewrite jit_fdiv_zero by exact X0; reflexivity |].
    intros (_ & _ & _ & _ & H & _). contradiction. }
  rewrite (jit_fdiv_ok _ _ X0). cbn [bind].
  rewrite ?Vq, ?Hd1, ?Hd2 by lia.
  (* .../(z1*d1_z1[n] + n) *)
  destruct (C_zero_dec (z1 * d1 (S k) + NtoC (S k))%C) as [B0 | B0].
  { apply Raised; [rewrite jit_div_zero by exact B0; reflexivity |].
    intros (_ & _ & _ & _ & _ & H & _). contradiction. }
  rewrite (jit_div_ok _ _ B0). cbn [bind].
  rewrite (item_nth _ k C0) by (rewrite length_update; lia). cbn [bind].
  rewrite (item_nth _ k C0) by (rewrite length_update; lia). cbn [bind].
  rewrite !nth_update_neq by lia. rewrite V1, V2.
  (* .../(n - z1*d3_z1[n-1]) *)
  destruct (C_zero_dec (NtoC (S k) - z1 * lp_d3_z1 (at_ k))%C) as [D0 | D0].
  { apply Raised; [rewrite jit_div_zero by exact D0; reflexivity |].
    intros (_ & _ & _ & _ & _ & _ & H). apply H.
    replace (S k - 1)%nat with k by lia. exact D0. }
  rewrite (jit_div_ok _ _ D0). cbn [bind].
  rewrite assign_ok by lia. cbn [bind]. split.
  2:{ intros Hnot. exfalso. apply Hnot. unfold G.
      replace (S k - 1)%nat with k by lia. repeat split; assumption. }
  intros _. eexists. split; [reflexivity |].
  unfold layer_up_inv. cbn [lu_psizeta_z1 lu_psizeta_z2 lu_d3_z1 lu_d3_z2 lu_q].
  rewrite !length_update.
  replace (S (S k) - 1)%nat with (S k) by lia.
  repeat split; try assumption; try reflexivity.
  - destruct (Nat.eq_dec i (S k)) as [-> | Hne].
    + rewrite nth_update_eq by lia. reflexivity.
    + rewrite nth_update_neq by lia. apply Hv. lia.
  - destruct (Nat.eq_dec i (S k)) as [-> | Hne].
    + rewrite nth_update_eq by lia. reflexivity.
    + rewrite nth_update_neq by lia. apply Hv. lia.
  - destruct (Nat.eq_dec i (S k)) as [-> | Hne].
    + rewrite nth_update_eq by lia. reflexivity.
    + rewrite nth_update_neq by lia. apply Hv. lia.
Qed.

Lemma FastSphere_layer_up_loop (wild : nat -> C) (x : list R) (ii : nat)
    (x_in x_out : R) (z1 z2 : C) (d1 d2 : nat -> C) (start : layer_point) (N : nat)
    (d1_z1 d1_z2 : list C) (s : layer_up) :
  unchecked (fun i => Re (wild i)) x (ii - 1) = x_in ->
  unchecked (fun i => Re (wild i)) x ii = x_out ->
  (N < length d1_z1)%nat -> (N < length d1_z2)%nat ->
  (forall i, (i <= N)%nat -> nth i d1_z1 C0 = d1 i) ->
  (forall i, (i <= N)%nat -> nth i d1_z2 C0 = d2 i) ->
  let at_ := FastSphere_layer_at (RtoC ((x_in / x_out) ^ 2)) z1 z2 d1 d2 start in
  let G := fun n =>
    z1 <> C0 /\ z2 <> C0
    /\ lp_psizeta_z1 (at_ n) <> C0 /\ lp_psizeta_z2 (at_ n) <> C0
    /\ x_out <> 0
    /\ (z1 * d1 n + NtoC n)%C <> C0
    /\ (NtoC n - z1 * lp_d3_z1 (at_ (n - 1)%nat))%C <> C0 in
  layer_up_inv at_ N 1 s ->
  ((forall n, (1 <= n < 1 + N)%nat -> G n) ->
   exists s', foreach (seq 1 N) (FastSphere.layer_up_step wild x ii z1 z2 d1_z1 d1_z2) s
              = Ok s'
              /\ layer_up_inv at_ N (1 + N) s')
  /\ (~ (forall n, (1 <= n < 1 + N)%nat -> G n) ->
      foreach (seq 1 N) (FastSphere.layer_up_step wild x ii z1 z2 d1_z1 d1_z2) s
      = Raise ZeroDivisionError).
Proof.
  intros Hin Hout Hl1 Hl2 Hd1 Hd2 at_ G H0.
  apply (foreach_seq_checked (FastSphere.layer_up_step wild x ii z1 z2 d1_z1 d1_z2)
           (layer_up_inv at_ N) G ZeroDivisionError N 1 s H0).
  - intros n t Hn Ht HG. destruct n as [| k]; [lia |].
    apply (FastSphere_layer_up_pass wild x ii x_in x_out z1 z2 d1 d2 start N
             d1_z1 d1_z2 k t Hin Hout Hl1 Hl2 Hd1 Hd2 Hn Ht). exact HG.
  - intros n t Hn Ht HG. destruct n as [| k]; [lia |].
    apply (FastSphere_layer_up_pass wild x ii x_in x_out z1 z2 d1 d2 start N
             d1_z1 d1_z2 k t Hin Hout Hl1 Hl2 Hd1 Hd2 Hn Ht). exact HG.
Qed.

(** One layer of the compiled kernel: it returns, with [H_a] and [H_b] of
    Eqs. (7b), (8b), when no scalar divisor of its loops and of Eq. (19a)
    is zero, and raises [ZeroDivisionError] otherwise. *)
Lemma FastSphere_layer_outcome (wild : nat -> C) (x : list R) (m : list C)
    (N ii : nat) (x_in x_out : R) (m_in m_out : C) (s : layer_state) :
  unchecked (fun i => Re (wild i)) x (ii - 1) = x_in ->
  unchecked (fun i => Re (wild i)) x ii = x_out ->
  unchecked wild m (ii - 1) = m_in -> unchecked wild m ii = m_out ->
  (1 <= N)%nat -> layer_ready N s ->
  (FastSphere_layer_runs x_in x_out m_out N ->
   exists s', FastSphere.layer wild x m (Z.of_nat N) ii s = Ok s'
     /\ layer_ready N s'
     /\ ls_ha s' = FastSphere_layer_h x_in x_out m_out m_in m_out N (ls_ha s)
     /\ ls_hb s' = FastSphere_layer_h x_in x_out m_in m_out m_out N (ls_hb s))
  /\ (~ FastSphere_layer_runs x_in x_out m_out N ->
      FastSphere.layer wild x m (Z.of_nat N) ii s = Raise ZeroDivisionError).
Proof.
  intros Hxin Hxout Hmin Hmout HN
    (L1 & L2 & L3 & L4 & Lq & La & Lb & S1 & S2 & T1 & T2).
  unfold FastSphere.layer. cbv zeta. rewrite Hxin, Hxout, Hmin, Hmout.
  rewrite Nat2Z.id.
  set (z1 := (m_out * RtoC x_out)%C). set (z2 := (m_out * RtoC x_in)%C).
  pose (start := FastSphere_layer_start z1 z2).
  pose (p := FastSphere_layer_point x_in x_out m_out N).
  assert (Raised : forall c : result layer_state,
            c = Raise ZeroDivisionError -> ~ FastSphere_layer_runs x_in x_out m_out N ->
            (FastSphere_layer_runs x_in x_out m_out N ->
             exists s', c = Ok s'
               /\ layer_ready N s'
               /\ ls_ha s' = FastSphere_layer_h x_in x_out m_out m_in m_out N (ls_ha s)
               /\ ls_hb s' = FastSphere_layer_h x_in x_out m_in m_out m_out N (ls_hb s))
            /\ (~ FastSphere_layer_runs x_in x_out m_out N ->
                c = Raise ZeroDivisionError)).
  { intros c -> Hnot. split; [intros H; contradiction | intros _; reflexivity]. }
  (* downward recurrence for D1 *)
  destruct (FastSphere_d1_pair_loop z1 z2 N (ls_d1_z1 s) (ls_d1_z2 s) L1 S1 L2 S2)
    as [Dgood Dbad]. cbv zeta in Dgood, Dbad.
  match type of Dbad with
  | ~ ?P -> _ => destruct (classic P) as [GD | GD]
  end.
  2:{ apply Raised; [rewrite (Dbad GD); reflexivity |].
      intros (R1 & R2 & _ & _ & Rn). apply GD. intros n Hn.
      destruct (Rn n Hn) as (A1 & A2 & _). fold z1 z2 in A1, A2, R1, R2.
      split; split; assumption. }
  rewrite (Dgood GD). cbn [bind fst snd].
  (* Eq. (19a) *)
  match goal with
  | |- context [jit_div ?a ?b] => destruct (C_zero_dec b) as [Q0 | Q0]
  end.
  { apply Raised; [rewrite jit_div_zero by exact Q0; reflexivity |].
    intros (_ & _ & _ & R & _). fold z2 in R. contradiction. }
  rewrite (jit_div_ok _ _ Q0). cbn [bind].
  rewrite assign_ok by lia. cbn [bind].
  replace (Z.to_nat (Z.of_nat N + 1)) with (S N) by lia.
  unfold range. replace (S N - 1)%nat with N by lia.
  (* upward recurrence for PsiZeta, D3, Q *)
  destruct (FastSphere_layer_up_loop wild x ii x_in x_out z1 z2
              (D1 (over_complex z1) N) (D1 (over_complex z2) N) start N
              (D1_list (over_complex z1) N) (D1_list (over_complex z2) N)
              (mkLayerUp (lp_psizeta_z1 start) (lp_psizeta_z2 start)
                 (ls_d3_z1 s) (ls_d3_z2 s) (update (ls_q s) 0 (lp_q start))))
    as [Ugood Ubad]; try assumption.
  - rewrite length_D1_list. lia.
  - rewrite length_D1_list. lia.
  - intros i Hi. apply nth_D1_list. exact Hi.
  - intros i Hi. apply nth_D1_list. exact Hi.
  - unfold layer_up_inv. cbn [lu_psizeta_z1 lu_psizeta_z2 lu_d3_z1 lu_d3_z2 lu_q].
    rewrite length_update. repeat split; try assumption.
    + replace i with 0%nat by lia. exact T1.
    + replace i with 0%nat by lia. exact T2.
    + replace i with 0%nat by lia. apply nth_update_eq. lia.
  - cbv zeta in Ugood, Ubad.
    unfold start, FastSphere_layer_start in Ugood, Ubad.
    cbn [lp_psizeta_z1 lp_psizeta_z2 lp_q] in Ugood, Ubad.
    fold (FastSphere_layer_start z1 z2) in Ugood, Ubad. fold start in Ugood, Ubad.
    match type of Ubad with
    | ~ ?P -> _ => destruct (classic P) as [GU | GU]
    end.
    2:{ apply Raised; [rewrite (Ubad GU); reflexivity |].
        intros (R1 & R2 & R3 & _ & Rn). apply GU. intros n Hn.
        destruct (Rn n ltac:(lia)) as (_ & _ & B1 & B2 & B3 & B4).
        fold z1 z2 in R1, R2, B3, B4.
        repeat split; assumption. }
    destruct (Ugood GU) as [u [Hu (M3 & M4 & Mq & _ & _ & Hv)]].
    rewrite Hu. cbn [bind].
    destruct (FastSphere_h_update N m_out m_in (ls_ha s)
                (D1_list (over_complex z1) N) (D1_list (over_complex z2) N)
                (lu_d3_z1 u) (lu_d3_z2 u) (lu_q u))
      as [ha [-> [Lha Vha]]]; try assumption; try apply length_D1_list.
    cbn [bind].
    destruct (FastSphere_h_update N m_in m_out (ls_hb s)
                (D1_list (over_complex z1) N) (D1_list (over_complex z2) N)
                (lu_d3_z1 u) (lu_d3_z2 u) (lu_q u))
      as [hb [-> [Lhb Vhb]]]; try assumption; try apply length_D1_list.
    cbn [bind]. split.
    2:{ intros Hnot. exfalso. apply Hnot. unfold FastSphere_layer_runs.
        fold z1 z2.
        destruct (GD 1%nat ltac:(lia)) as [[R1 _] [R2 _]].
        destruct (GU 1%nat ltac:(lia)) as (_ & _ & _ & _ & R3 & _).
        split; [exact R1 |]. split; [exact R2 |]. split; [exact R3 |].
        split; [exact Q0 |].
        intros n Hn. destruct (GD n Hn) as [[_ A1] [_ A2]].
        destruct (GU n ltac:(lia)) as (_ & _ & B1 & B2 & _ & B3 & B4).
        repeat split; assumption. }
    intros _. eexists. split; [reflexivity |].
    split; [| split].
    + unfold layer_ready.
      cbn [ls_d1_z1 ls_d1_z2 ls_d3_z1 ls_d3_z2 ls_q ls_ha ls_hb].
      rewrite !length_D1_list, !nth_D1_list, !D1_top by lia.
      destruct (Hv 0%nat ltac:(lia)) as (V1 & V2 & _).
      repeat split; assumption.
    + cbn [ls_ha]. unfold FastSphere_layer_h, FastSphere_layer_point.
      fold z1 z2. apply list_of_values; [exact Lha |].
      intros i Hi. rewrite Vha by lia.
      destruct (Hv i ltac:(lia)) as (-> & -> & ->).
      rewrite !nth_D1_list by lia. reflexivity.
    + cbn [ls_hb]. unfold FastSphere_layer_h, FastSphere_layer_point.
      fold z1 z2. apply list_of_values; [exact Lhb |].
      intros i Hi. rewrite Vhb by lia.
      destruct (Hv i ltac:(lia)) as (-> & -> & ->).
      rewrite !nth_D1_list by lia. reflexivity.
Qed.

(** ** A whole run of the compiled kernel *)

Lemma FastSphere_layers_outcome (wild : nat -> C) (x : list R) (m : list C)
    (N nlayers : nat) (s : layer_state) :
  (1 <= N)%nat -> (1 <= nlayers)%nat -> length x = nlayers -> length m = nlayers ->
  layer_ready N s ->
  ls_ha s = fst (FastSphere_layers_h x m N 0) ->
  ls_hb s = snd (FastSphere_layers_h x m N 0) ->
  let G := fun ii =>
    FastSphere_layer_runs (nth (ii - 1) x 0) (nth ii x 0) (nth ii m C0) N in
  ((forall ii, (1 <= ii < nlayers)%nat -> G ii) ->
   exists s', foreach (range 1 nlayers) (FastSphere.layer wild x m (Z.of_nat N)) s = Ok s'
              /\ layer_ready N s'
              /\ ls_ha s' = fst (FastSphere_layers_h x m N (nlayers - 1))
              /\ ls_hb s' = snd (FastSphere_layers_h x m N (nlayers - 1)))
  /\ (~ (forall ii, (1 <= ii < nlayers)%nat -> G ii) ->
      foreach (range 1 nlayers) (FastSphere.layer wild x m (Z.of_nat N)) s
      = Raise ZeroDivisionError).
Proof.
  intros HN Hn Lx Lm Hs Ea Eb G. unfold range.
  assert (Hpass : forall ii t, (1 <= ii < 1 + (nlayers - 1))%nat -> layer_ready N t ->
            (G ii ->
             exists t', FastSphere.layer wild x m (Z.of_nat N) ii t = Ok t'
               /\ layer_ready N t'
               /\ ls_ha t' = FastSphere_layer_h (nth (ii - 1) x 0) (nth ii x 0)
                               (nth ii m C0) (nth (ii - 1) m C0) (nth ii m C0) N (ls_ha t)
               /\ ls_hb t' = FastSphere_layer_h (nth (ii - 1) x 0) (nth ii x 0)
                               (nth (ii - 1) m C0) (nth ii m C0) (nth ii m C0) N (ls_hb t))
            /\ (~ G ii ->
                FastSphere.layer wild x m (Z.of_nat N) ii t = Raise ZeroDivisionError)).
  { intros ii t Hii Ht.
    apply FastSphere_layer_outcome; try assumption; apply unchecked_nth; lia. }
  destruct (foreach_seq_checked (FastSphere.layer wild x m (Z.of_nat N))
              (fun k t => layer_ready N t
                          /\ ls_ha t = fst (FastSphere_layers_h x m N (k - 1))
                          /\ ls_hb t = snd (FastSphere_layers_h x m N (k - 1)))
              G ZeroDivisionError (nlayers - 1) 1 s) as [H1 H2].
  - split; [exact Hs | split; [exact Ea | exact Eb]].
  - intros ii t Hii (Ht & Ha & Hb) HG.
    destruct (Hpass ii t Hii Ht) as [P _].
    destruct (P HG) as [t' (Ht' & Hr & Ha' & Hb')].
    exists t'. split; [exact Ht' |]. split; [exact Hr |].
    replace (S ii - 1)%nat with (S (ii - 1)) by lia.
    cbn [FastSphere_layers_h fst snd].
    replace (S (ii - 1)) with ii by lia.
    rewrite Ha', Hb', Ha, Hb. split; reflexivity.
  - intros ii t Hii (Ht & _) HG.
    destruct (Hpass ii t Hii Ht) as [_ P]. apply P, HG.
  - replace (1 + (nlayers - 1))%nat with nlayers in * by lia. split.
    + intros Hall. destruct (H1 Hall) as [s' [Hs' Hr]]. exists s'.
      split; [exact Hs' | exact Hr].
    + exact H2.
Qed.

(** The first phase: seeds and the downward loop of the core. *)
Lemma FastSphere_phase_1_outcome (wild : nat -> C) (x : list R) (m : list C) (N : nat)
    (d1_z1 d1_z2 d3_z1 d3_z2 : list C) :
  (1 <= N)%nat -> x <> [] -> m <> [] ->
  length d1_z1 = S N -> length d1_z2 = S N -> length d3_z1 = S N -> length d3_z2 = S N ->
  let z := (RtoC (nth 0 x 0) * nth 0 m C0)%C in
  let h := D1_list (over_complex z) N in
  (core_defined N z ->
   FastSphere.phase_1 wild x m (Z.of_nat N) d1_z1 d1_z2 d3_z1 d3_z2
   = Ok (h, update d1_z2 N C0, update d3_z1 0 Ci, update d3_z2 0 Ci, h, h))
  /\ (~ core_defined N z ->
      FastSphere.phase_1 wild x m (Z.of_nat N) d1_z1 d1_z2 d3_z1 d3_z2
      = Raise ZeroDivisionError).
Proof.
  intros HN Hx Hm L1 L2 L3 L4 z h.
  unfold FastSphere.phase_1.
  rewrite !setitem_nonneg_ok by lia. cbn [bind].
  rewrite !assign_ok by lia. cbn [bind]. rewrite !Nat2Z.id.
  rewrite (unchecked_nth _ x 0 0) by (destruct x; [congruence | simpl; lia]).
  rewrite (unchecked_nth _ m 0 C0) by (destruct m; [congruence | simpl; lia]).
  fold z.
  destruct (FastSphere_d1_loop z N (update d1_z1 N C0)) as [Dgood Dbad].
  { rewrite length_update. exact L1. }
  { apply nth_update_eq. lia. }
  split.
  - intros [Hz Hd]. rewrite Dgood; [reflexivity |].
    intros n Hn. split; [exact Hz | apply Hd, Hn].
  - intros Hnot. rewrite Dbad; [reflexivity |].
    intros Hall. apply Hnot. split; [apply (Hall 1%nat); lia |].
    intros n Hn. apply (Hall n Hn).
Qed.

(** The compiled kernel on arrays of [N + 1] cells: the table of the closed
    forms when no scalar divisor is zero, [ZeroDivisionError] otherwise. *)
Lemma FastSphere_kernel_outcome (wild : nat -> C) (a_p : list R) (n_p : list C)
    (k_p : list R) (n_m : C) (wavelength : R) (x : list R) (m : list C) (N : nat)
    (ab : list (C * C)) (d1_z1 d1_z2 d3_z1 d3_z2 psi zeta q : list C) :
  (1 <= N)%nat ->
  a_p <> [] -> length x = length a_p -> length m = length a_p ->
  length ab = S N -> length d1_z1 = S N -> length d1_z2 = S N ->
  length d3_z1 = S N -> length d3_z2 = S N ->
  length psi = S N -> length zeta = S N -> length q = S N ->
  (FastSphere_runs x m N ->
   FastSphere._mie_coefficients wild a_p n_p k_p n_m wavelength x m (Z.of_nat N)
     ab d1_z1 d1_z2 d3_z1 d3_z2 psi zeta q
   = Ok (let hs := FastSphere_layers_h x m N (length a_p - 1) in
         table N N (last x 0) (last m C0) (fst hs) (snd hs)))
  /\ (~ FastSphere_runs x m N ->
      FastSphere._mie_coefficients wild a_p n_p k_p n_m wavelength x m (Z.of_nat N)
        ab d1_z1 d1_z2 d3_z1 d3_z2 psi zeta q
      = Raise ZeroDivisionError).
Proof.
  intros HN Ha Lx Lm Lab L1 L2 L3 L4 Lpsi Lzeta Lq.
  assert (Hlen : (0 < length a_p)%nat) by (destruct a_p; [congruence | simpl; lia]).
  assert (Hx : x <> []) by (intros E; rewrite E in Lx; simpl in Lx; lia).
  assert (Hm : m <> []) by (intros E; rewrite E in Lm; simpl in Lm; lia).
  unfold FastSphere._mie_coefficients.
  destruct (FastSphere_phase_1_outcome wild x m N d1_z1 d1_z2 d3_z1 d3_z2
              HN Hx Hm L1 L2 L3 L4) as [Pgood Pbad]. cbv zeta in Pgood, Pbad.
  set (z := (RtoC (nth 0 x 0) * nth 0 m C0)%C) in *.
  destruct (classic (core_defined N z)) as [GC | GC].
  2:{ rewrite (Pbad GC). cbn [bind]. split; [| reflexivity].
      intros (R & _). contradiction. }
  rewrite (Pgood GC). cbn [bind].
  destruct (FastSphere_layers_outcome wild x m N (length a_p)
              (mkLayer (D1_list (over_complex z) N)
                 (update d1_z2 N C0) (update d3_z1 0 Ci) (update d3_z2 0 Ci) q
                 (D1_list (over_complex z) N) (D1_list (over_complex z) N)))
    as [Lgood Lbad]; try assumption; try lia; try reflexivity.
  { unfold layer_ready.
    cbn [ls_d1_z1 ls_d1_z2 ls_d3_z1 ls_d3_z2 ls_q ls_ha ls_hb].
    rewrite !length_D1_list, !length_update, !nth_D1_list, !D1_top by lia.
    repeat split; try assumption; try reflexivity; apply nth_update_eq; lia. }
  cbv zeta in Lgood, Lbad.
  match type of Lbad with
  | ~ ?P -> _ => destruct (classic P) as [GL | GL]
  end.
  2:{ rewrite (Lbad GL). cbn [bind]. split; [| reflexivity].
      intros (_ & R & _). exfalso. apply GL. intros ii Hii. apply R. lia. }
  destruct (Lgood GL)
    as [s [-> [(M1 & M2 & M3 & M4 & Mq & Ma & Mb & S1 & S2 & T1 & T2) [Ea Eb]]]].
  cbn [bind]. cbv zeta. rewrite <- Ea, <- Eb.
  destruct (FastSphere_into_medium_outcome wild N x m ab (ls_d1_z1 s) (ls_d3_z1 s)
              psi zeta (ls_ha s) (ls_hb s)) as [Mgood Mbad]; try assumption.
  split.
  - intros (_ & _ & R). apply Mgood, R.
  - intros Hnot. apply Mbad. intros R. apply Hnot.
    split; [exact GC |]. split; [| exact R].
    intros ii Hii. apply GL. lia.
Qed.

(** The JIT-kernel entry point on a non-empty input of matching lengths and
    non-zero wavelength: it returns the table of the closed forms when no
    scalar divisor of the kernel is zero, and raises [ZeroDivisionError]
    otherwise. *)
Lemma FastSphere_mie_coefficients_outcome (uninit : nat -> C) (a_p : list R)
    (n_p : list C) (k_p : list R) (n_m : C) (wavelength : R) :
  a_p <> [] -> length n_p = length a_p -> length k_p = length a_p ->
  wavelength <> 0 ->
  let x := FastSphere_x a_p n_m wavelength in
  let m := FastSphere_m n_p k_p n_m in
  let N := Z.to_nat (spec_select x m) in
  (FastSphere_runs x m N ->
   FastSphere.mie_coefficients uninit a_p n_p k_p n_m wavelength
   = Ok (FastSphere_table a_p n_p k_p n_m wavelength))
  /\ (~ FastSphere_runs x m N ->
      FastSphere.mie_coefficients uninit a_p n_p k_p n_m wavelength
      = Raise ZeroDivisionError).
Proof.
  intros Ha Ln Lk Hw x m N. unfold FastSphere.mie_coefficients, FastSphere_table.
  destruct (Req_dec_T wavelength 0) as [E | _]; [contradiction |]. cbn [bind].
  rewrite broadcast_same by congruence. cbn [bind].
  fold (FastSphere_x a_p n_m wavelength). fold (FastSphere_m n_p k_p n_m).
  fold x m.
  assert (Lx : length x = length a_p) by (unfold x, FastSphere_x; apply length_map).
  assert (Lm : length m = length a_p)
    by (unfold m, FastSphere_m; rewrite length_map, length_zip_with; lia).
  assert (Hx : x <> []).
  { intros E. rewrite E in Lx. destruct a_p; [congruence | discriminate]. }
  rewrite FastSphere_wiscombe_yang_spec by congruence. cbn [bind].
  pose proof (spec_select_ge_1 x m) as HN.
  fold N. set (nmax := spec_select x m) in *.
  assert (EN : nmax = Z.of_nat N) by (unfold N; lia).
  assert (HN1 : (1 <= N)%nat) by (unfold N; lia).
  destruct (np_empty_rows_ok uninit (nmax + 1)) as [ab [-> Lab]]; [lia |].
  destruct (np_empty_ok uninit (nmax + 1)) as [e [-> L]]; [lia |].
  cbn [bind].
  replace (Z.to_nat (nmax + 1)) with (S N) in * by lia.
  rewrite EN.
  apply FastSphere_kernel_outcome; assumption.
Qed.

(** ** The entry points *)

Lemma bind_ok {A B : Type} (c : result A) (k : A -> result B) (b : B) :
  bind c k = Ok b -> exists a, c = Ok a /\ k a = Ok b.
Proof.
  destruct c as [a | e]; simpl; intros H; [| discriminate].
  exists a. split; [reflexivity | exact H].
Qed.

Ltac invert_binds :=
  repeat match goal with
         | H : bind _ _ = Ok _ |- _ =>
             apply bind_ok in H; destruct H as [? [? H]]
         end.






(** The selector of the JIT-kernel implementation on an empty [x]: the
    reduction [xm.max()] of an empty array raises, or the broadcast of
    [x * m] does. *)
Lemma FastSphere_wiscombe_yang_empty (m : list C) :
  FastSphere.wiscombe_yang [] m = Raise ValueError.
Proof.
  unfold FastSphere.wiscombe_yang, abs_prod. cbv zeta.
  destruct m as [| m0 [| m1 m']]; reflexivity.
Qed.

(** One relative index for any number of size parameters is broadcast. *)
Lemma FastSphere_wiscombe_yang_broadcast (x : list R) (m0 : C) :
  x <> [] -> exists N, FastSphere.wiscombe_yang x [m0] = Ok N /\ (1 <= N)%Z.
Proof.
  intros Hx. unfold FastSphere.wiscombe_yang, abs_prod. cbv zeta.
  assert (Hb : forall l : list R, l <> [] ->
            exists v, broadcast (fun u v => Cabs (RtoC u * v)) l [m0] = Ok v /\ v <> []).
  { intros l Hl. unfold broadcast.
    destruct l as [| a [| b l']]; [congruence | |].
    - cbn. eexists. split; [reflexivity | discriminate].
    - cbn. eexists. split; [reflexivity | discriminate]. }
  destruct (Hb x Hx) as [v [-> Hv]]. cbn [bind].
  destruct (Hb (roll_left x)) as [v' [-> Hv']].
  { intros E. apply (f_equal (@length R)) in E. rewrite length_roll_left in E.
    destruct x; [congruence | discriminate]. }
  cbn [bind]. rewrite !np_max_maximum by assumption. cbn [bind].
  rewrite py_max_floats. cbn [bind]. unfold py_int_of.
  assert (H1 : 1 <= Rmax (wiscombe (Rabs (last x 0))) (Rmax (maximum v) (maximum v'))).
  { apply Rle_trans with (wiscombe (Rabs (last x 0))); [| apply Rmax_l].
    apply wiscombe_ge_1, Rabs_pos. }
  rewrite py_int_nonneg by lra. eexists. split; [reflexivity |].
  apply Zfloor_lub. exact H1.
Qed.

(** ** What the compiled kernel does not check *)

(** The loop over the layers reads [x] and [m] unchecked: whatever their
    lengths, it finishes or raises [ZeroDivisionError]. *)
Lemma FastSphere_layers_accept (wild : nat -> C) (x : list R) (m : list C)
    (N nlayers : nat) (s : layer_state) :
  (1 <= N)%nat -> layer_ready N s ->
  (exists s', foreach (range 1 nlayers) (FastSphere.layer wild x m (Z.of_nat N)) s = Ok s'
              /\ layer_ready N s')
  \/ foreach (range 1 nlayers) (FastSphere.layer wild x m (Z.of_nat N)) s
     = Raise ZeroDivisionError.
Proof.
  intros HN Hs. unfold range.
  pose (G := fun ii =>
          FastSphere_layer_runs (unchecked (fun i => Re (wild i)) x (ii - 1))
            (unchecked (fun i => Re (wild i)) x ii) (unchecked wild m ii) N).
  destruct (foreach_seq_checked (FastSphere.layer wild x m (Z.of_nat N))
              (fun _ t => layer_ready N t) G ZeroDivisionError (nlayers - 1) 1 s Hs)
    as [H1 H2].
  - intros ii t Hii Ht HG.
    destruct (FastSphere_layer_outcome wild x m N ii _ _ _ _ t
                eq_refl eq_refl eq_refl eq_refl HN Ht) as [P _].
    destruct (P HG) as [t' (Ht' & Hr & _)]. exists t'. split; assumption.
  - intros ii t Hii Ht HG.
    destruct (FastSphere_layer_outcome wild x m N ii _ _ _ _ t
                eq_refl eq_refl eq_refl eq_refl HN Ht) as [_ P].
    apply P, HG.
  - destruct (classic (forall n, (1 <= n < 1 + (nlayers - 1))%nat -> G n)) as [A | A].
    + left. destruct (H1 A) as [s' [E Hr]]. exists s'. split; assumption.
    + right. apply H2, A.
Qed.

Lemma FastSphere_kernel_accepts (wild : nat -> C) (a_p : list R) (n_p : list C)
    (k_p : list R) (n_m : C) (wavelength : R) (x : list R) (m : list C) (N : nat)
    (ab : list (C * C)) (d1_z1 d1_z2 d3_z1 d3_z2 psi zeta q : list C) :
  (1 <= N)%nat -> x <> [] -> m <> [] ->
  length ab = S N -> length d1_z1 = S N -> length d1_z2 = S N ->
  length d3_z1 = S N -> length d3_z2 = S N ->
  length psi = S N -> length zeta = S N -> length q = S N ->
  is_ok (FastSphere._mie_coefficients wild a_p n_p k_p n_m wavelength x m (Z.of_nat N)
           ab d1_z1 d1_z2 d3_z1 d3_z2 psi zeta q)
  \/ FastSphere._mie_coefficients wild a_p n_p k_p n_m wavelength x m (Z.of_nat N)
       ab d1_z1 d1_z2 d3_z1 d3_z2 psi zeta q
     = Raise ZeroDivisionError.
Proof.
  intros HN Hx Hm Lab L1 L2 L3 L4 Lpsi Lzeta Lq.
  unfold FastSphere._mie_coefficients.
  destruct (FastSphere_phase_1_outcome wild x m N d1_z1 d1_z2 d3_z1 d3_z2
              HN Hx Hm L1 L2 L3 L4) as [Pgood Pbad]. cbv zeta in Pgood, Pbad.
  set (z := (RtoC (nth 0 x 0) * nth 0 m C0)%C) in *.
  destruct (classic (core_defined N z)) as [GC | GC].
  2:{ right. rewrite (Pbad GC). reflexivity. }
  rewrite (Pgood GC). cbn [bind].
  destruct (FastSphere_layers_accept wild x m N (length a_p)
              (mkLayer (D1_list (over_complex z) N)
                 (update d1_z2 N C0) (update d3_z1 0 Ci) (update d3_z2 0 Ci) q
                 (D1_list (over_complex z) N) (D1_list (over_complex z) N)) HN)
    as [[s [-> (M1 & M2 & M3 & M4 & Mq & Ma & Mb & S1 & S2 & T1 & T2)]] | ->].
  { unfold layer_ready.
    cbn [ls_d1_z1 ls_d1_z2 ls_d3_z1 ls_d3_z2 ls_q ls_ha ls_hb].
    rewrite !length_D1_list, !length_update, !nth_D1_list, !D1_top by lia.
    repeat split; try assumption; try reflexivity; apply nth_update_eq; lia. }
  2:{ right. reflexivity. }
  cbn [bind].
  destruct (FastSphere_into_medium_outcome wild N x m ab (ls_d1_z1 s) (ls_d3_z1 s)
              psi zeta (ls_ha s) (ls_hb s)) as [Mgood Mbad]; try assumption.
  destruct (classic (FastSphere_medium_runs N (last x 0))) as [GM | GM].
  - left. rewrite (Mgood GM). eexists. reflexivity.
  - right. apply Mbad, GM.
Qed.

(** ** Small spheres

    Facts used to show that a run on a sphere much smaller than the
    wavelength meets no zero divisor. *)

Lemma C_nonzero_Im (a : C) : Im a <> 0 -> a <> C0.
Proof. intros H E. apply H. rewrite E. reflexivity. Qed.

Lemma C_nonzero_Re (a : C) : Re a <> 0 -> a <> C0.
Proof. intros H E. apply H. rewrite E. reflexivity. Qed.

Lemma Cinv_nonzero (a : C) : a <> C0 -> Cinv a <> C0.
Proof.
  intros Ha E. assert (H : (Cinv a * a)%C = C1) by (field; exact Ha).
  rewrite E in H. apply (f_equal Re) in H. simpl in H. lra.
Qed.

Lemma Cdiv_nonzero (a b : C) : a <> C0 -> b <> C0 -> (a / b)%C <> C0.
Proof.
  intros Ha Hb. unfold Cdiv. apply Cmul_nonzero; [exact Ha |].
  apply Cinv_nonzero, Hb.
Qed.

Lemma C1_nonzero : C1 <> C0.
Proof. apply C_nonzero_Re. simpl. lra. Qed.

Lemma Ci_nonzero : Ci <> C0.
Proof. apply C_nonzero_Im. simpl. lra. Qed.

Lemma Cabs_RtoC (u : R) : Cabs (RtoC u) = Rabs u.
Proof.
  unfold Cabs, Cnorm2. simpl.
  replace (u * u + 0 * 0) with (Rsqr u) by (unfold Rsqr; ring).
  apply sqrt_Rsqr_abs.
Qed.

Lemma spec_select_single (x0 : R) (m0 : C) :
  spec_select [x0] [m0]
  = Zfloor (Rmax (IZR (spec_ns (Rabs x0))) (Rabs x0 * Cabs m0)).
Proof.
  unfold spec_select. cbn [length seq map last].
  change ((0 + 1) mod 1)%nat with 0%nat. cbn [nth maximum fold_right].
  rewrite Cabs_scale.
  rewrite (Rmax_left (Rabs x0 * Cabs m0) (Rabs x0 * Cabs m0)) by lra.
  reflexivity.
Qed.

Lemma spec_select_double (x0 : R) (m0 : C) :
  spec_select [x0; x0] [m0; m0] = spec_select [x0] [m0].
Proof.
  unfold spec_select. cbn [length seq map last].
  change ((0 + 1) mod 2)%nat with 1%nat. change ((1 + 1) mod 2)%nat with 0%nat.
  change ((0 + 1) mod 1)%nat with 0%nat.
  cbn [nth maximum fold_right].
  assert (E : forall a, Rmax a a = a) by (intros a; apply Rmax_left; lra).
  rewrite !E. reflexivity.
Qed.


Lemma spec_select_1 : spec_select [1] [C1] = 6%Z.
Proof.
  rewrite spec_select_single_unit by lra.
  assert (Hns : spec_ns 1 = 6%Z).
  { unfold spec_ns. destruct (Rle_dec 1 8); [| lra].
    pose proof (cube_root_lower 1 1 ltac:(lra) ltac:(simpl; lra)).
    pose proof (cube_root_upper 1 1 ltac:(lra) ltac:(simpl; lra)).
    apply Zfloor_eq. lra. }
  rewrite Hns, Rmax_left by lra. apply ZfloorZ.
Qed.

Lemma small_layered_sphere_order (x0 mu : R) :
  0 < x0 <= 0.008 -> 0 < mu -> mu * x0 <= 1 ->
  spec_select [x0] [RtoC mu] = 1%Z.
Proof.
  intros Hx Hmu Hz. rewrite spec_select_single, Cabs_RtoC.
  rewrite !Rabs_pos_eq by lra.
  assert (Hns : spec_ns x0 = 1%Z).
  { unfold spec_ns. destruct (Rle_dec x0 8); [| lra].
    pose proof (float_pow_nonneg x0 (1 / 3)).
    pose proof (cube_root_upper 0.2 x0 ltac:(lra) ltac:(simpl; lra)).
    apply Zfloor_eq. lra. }
  rewrite Hns, Rmax_left by lra. apply ZfloorZ.
Qed.

(** Eq. (18d): [D3] differs from [D1] wherever [psizeta] is defined. *)
Lemma D3_differs_from_D1 (D p : C) : p <> C0 -> (D - (D + Ci / p))%C <> C0.
Proof.
  intros Hp.
  replace (D - (D + Ci / p))%C with (- Ci / p)%C by (field; exact Hp).
  apply Cdiv_nonzero; [| exact Hp].
  apply C_nonzero_Im. simpl. lra.
Qed.

Lemma D1_one_term_divisor (z : R) :
  0 < z -> (D1 (over_float z) 1 1 + over_float z 1)%C <> C0.
Proof.
  intros Hz. rewrite D1_top. unfold over_float, C0. rewrite RtoC_add.
  assert (0 < 1 / z) by (apply Rdiv_lt_0_compat; lra).
  apply RtoC_nonzero. simpl. lra.
Qed.

Lemma D1_one_term_value (z : R) :
  D1 (over_float z) 1 0 = RtoC (1 / z - 1 / (0 + 1 / z)).
Proof.
  rewrite (D1_step _ 1 0) by lia. rewrite D1_top. unfold over_float, C0, C1.
  rewrite RtoC_add, RtoC_div, RtoC_sub. simpl. reflexivity.
Qed.

(** Eq. (18a) as the JIT kernel writes it does not vanish for a real
    argument [0 < z < pi/2]. *)
Lemma FastSphere_psizeta_start_nonzero (z : R) :
  0 < z < PI / 2 ->
  (RtoC 0.5 * (C1 - Cexp (mkC 0 2 * RtoC (Re (RtoC z)))
                    * RtoC (exp (- 2 * Im (RtoC z)))))%C <> C0.
Proof.
  intros Hz. apply Cmul_nonzero; [apply RtoC_nonzero; lra |].
  apply C_nonzero_Im. simpl.
  replace (0 * 0 + 2 * z) with (2 * z) by ring.
  pose proof (exp_pos (0 * z - 2 * 0)).
  pose proof (exp_pos (- 2 * 0)).
  pose proof (sin_gt_0 (2 * z) ltac:(lra) ltac:(lra)).
  assert (0 < exp (0 * z - 2 * 0) * sin (2 * z) * exp (- 2 * 0))
    by (apply Rmult_lt_0_compat; [apply Rmult_lt_0_compat |]; assumption).
  lra.
Qed.

(** Eq. (19a): its divisor does not vanish for a real argument
    [0 < z < pi/2]. *)
Lemma FastSphere_q_start_divisor_nonzero (z : R) :
  0 < z < PI / 2 ->
  (Cexp (- mkC 0 2 * RtoC (Re (RtoC z))) - RtoC (exp (- 2 * Im (RtoC z))))%C <> C0.
Proof.
  intros Hz. apply C_nonzero_Im. simpl.
  replace (- 0 * 0 + - (2) * z) with (- (2 * z)) by ring.
  rewrite sin_neg.
  pose proof (exp_pos (- 0 * z - - (2) * 0)).
  pose proof (sin_gt_0 (2 * z) ltac:(lra) ltac:(lra)).
  assert (0 < exp (- 0 * z - - (2) * 0) * sin (2 * z))
    by (apply Rmult_lt_0_compat; assumption).
  lra.
Qed.

Lemma psizeta_first_pass_nonzero (z : R) :
  0 < z < PI / 2 ->
  (RtoC 0.5 * (C1 - Cexp (mkC 0 2 * RtoC (Re (RtoC z)))
                    * RtoC (exp (- 2 * Im (RtoC z))))
   * ((over_float z 1 - D1 (over_float z) 1 0) * (over_float z 1 - Ci)))%C <> C0.
Proof.
  intros Hz.
  apply Cmul_nonzero; [apply FastSphere_psizeta_start_nonzero; exact Hz |].
  apply Cmul_nonzero.
  - rewrite (D1_step (over_float z) 1 0) by lia.
    replace (over_float z 1
             - (over_float z 1 - C1 / (D1 (over_float z) 1 1 + over_float z 1)))%C
      with (C1 / (D1 (over_float z) 1 1 + over_float z 1))%C by ring.
    apply Cdiv_nonzero; [apply C1_nonzero | apply D1_one_term_divisor; lra].
  - apply C_nonzero_Im. unfold over_float. simpl. lra.
Qed.

Lemma length_FastSphere_layer_h (x_in x_out : R) (ma mb m_out : C) (N : nat)
    (h : list C) :
  length (FastSphere_layer_h x_in x_out ma mb m_out N h) = S N.
Proof. unfold FastSphere_layer_h. rewrite length_map, length_seq. reflexivity. Qed.

(** A layer whose two boundaries and two indices coincide leaves [H_a] and
    [H_b] as the core computed them. *)
Lemma FastSphere_layer_h_degenerate (x0 : R) (m0 : C) (N : nat) :
  let h := FastSphere_core_h (RtoC x0 * m0) N in
  FastSphere_layer_defined x0 x0 m0 m0 N h h ->
  FastSphere_layer_h x0 x0 m0 m0 m0 N h = h.
Proof.
  intros h (_ & _ & _ & _ & _ & Hdiv).
  apply (nth_ext _ _ C0 C0).
  - rewrite length_FastSphere_layer_h. unfold h, FastSphere_core_h.
    rewrite length_D1_list. reflexivity.
  - intros n Hn. rewrite length_FastSphere_layer_h in Hn.
    destruct (Hdiv n ltac:(lia)) as [Ha _]. revert Ha.
    unfold FastSphere_layer_h.
    rewrite (nth_map_in _ _ _ _ 0%nat) by (rewrite length_seq; lia).
    rewrite seq_nth by lia. cbn [Nat.add].
    unfold h at 1 2 3. rewrite !nth_FastSphere_core_h by lia.
    replace (RtoC x0 * m0)%C with (m0 * RtoC x0)%C by ring.
    unfold h_formula, h_divisor.
    generalize (D1 (over_complex (m0 * RtoC x0)) N n).
    generalize (lp_d3_z1 (FastSphere_layer_point x0 x0 m0 N n)).
    generalize (lp_d3_z2 (FastSphere_layer_point x0 x0 m0 N n)).
    generalize (lp_q (FastSphere_layer_point x0 x0 m0 N n)).
    intros q d3_z2 d3_z1 D Hne. field. exact Hne.
Qed.

Lemma small_matched_layer_defined (x_in x_out mu : R) :
  0 < x_in -> 0 < x_out -> 0 < mu -> mu * x_in <= 1 -> mu * x_out <= 1 ->
  let h := FastSphere_core_h (RtoC x_in * RtoC mu) 1 in
  FastSphere_layer_defined x_in x_out (RtoC mu) (RtoC mu) 1 h h.
Proof.
  intros Hin Hout Hmu Hz2 Hz1 h. pose proof PI2_1 as Hpi.
  set (z1 := mu * x_out) in *. set (z2 := mu * x_in) in *.
  assert (Hz10 : 0 < z1) by (unfold z1; apply Rmult_lt_0_compat; assumption).
  assert (Hz20 : 0 < z2) by (unfold z2; apply Rmult_lt_0_compat; assumption).
  assert (Ez1 : (RtoC mu * RtoC x_out)%C = RtoC z1) by (unfold z1; apply RtoC_mul).
  assert (Ez2 : (RtoC mu * RtoC x_in)%C = RtoC z2) by (unfold z2; apply RtoC_mul).
  assert (Eh : forall n, (n <= 1)%nat -> nth n h C0 = D1 (over_float z2) 1 n).
  { intros n Hn. unfold h. rewrite nth_FastSphere_core_h by exact Hn.
    replace (RtoC x_in * RtoC mu)%C with (RtoC z2)
      by (unfold z2; rewrite RtoC_mul; f_equal; ring).
    apply D1_real. }
  assert (Hpz1 : lp_psizeta_z1 (FastSphere_layer_point x_in x_out (RtoC mu) 1 1) <> C0).
  { unfold FastSphere_layer_point.
    cbn [FastSphere_layer_at FastSphere_layer_start lp_psizeta_z1 lp_d3_z1].
    rewrite Ez1, !D1_real.
    change (NtoC 1 / RtoC z1)%C with (over_complex (RtoC z1) 1).
    rewrite over_complex_real.
    apply psizeta_first_pass_nonzero. lra. }
  assert (Hpz2 : lp_psizeta_z2 (FastSphere_layer_point x_in x_out (RtoC mu) 1 1) <> C0).
  { unfold FastSphere_layer_point.
    cbn [FastSphere_layer_at FastSphere_layer_start lp_psizeta_z2 lp_d3_z2].
    rewrite Ez2, !D1_real.
    change (NtoC 1 / RtoC z2)%C with (over_complex (RtoC z2) 1).
    rewrite over_complex_real.
    apply psizeta_first_pass_nonzero. lra. }
  unfold FastSphere_layer_defined. rewrite Ez1, Ez2.
  split; [apply RtoC_nonzero; lra |].
  split; [apply RtoC_nonzero; lra |].
  split; [lra |].
  split; [apply FastSphere_q_start_divisor_nonzero; lra |].
  split.
  - intros n Hn. replace n with 1%nat by lia.
    rewrite !D1_real, !over_complex_real.
    split; [apply D1_one_term_divisor; lra |].
    split; [apply D1_one_term_divisor; lra |].
    split; [exact Hpz1 |]. split; [exact Hpz2 |].
    split.
    + rewrite D1_top. unfold NtoC, C0. rewrite RtoC_mul, RtoC_add.
      apply RtoC_nonzero. simpl. lra.
    + unfold FastSphere_layer_point.
      cbn [Nat.sub FastSphere_layer_at FastSphere_layer_start lp_d3_z1].
      apply C_nonzero_Re. simpl. lra.
  - intros n Hn.
    assert (Hdiv : h_divisor (RtoC mu) (RtoC mu) (nth n h C0)
                     (D1 (over_complex (RtoC z2)) 1 n)
                     (lp_d3_z2 (FastSphere_layer_point x_in x_out (RtoC mu) 1 n))
                     (lp_q (FastSphere_layer_point x_in x_out (RtoC mu) 1 n)) <> C0).
    { rewrite (Eh n Hn), D1_real. unfold h_divisor.
      replace (RtoC mu * D1 (over_float z2) 1 n
               - RtoC mu * lp_d3_z2 (FastSphere_layer_point x_in x_out (RtoC mu) 1 n)
               - lp_q (FastSphere_layer_point x_in x_out (RtoC mu) 1 n)
                 * (RtoC mu * D1 (over_float z2) 1 n
                    - RtoC mu * D1 (over_float z2) 1 n))%C
        with (RtoC mu
              * (D1 (over_float z2) 1 n
                 - lp_d3_z2 (FastSphere_layer_point x_in x_out (RtoC mu) 1 n)))%C
        by ring.
      apply Cmul_nonzero; [apply RtoC_nonzero; lra |].
      destruct n as [| [| n']]; [| | lia].
      - unfold FastSphere_layer_point.
        cbn [FastSphere_layer_at FastSphere_layer_start lp_d3_z2].
        rewrite D1_one_term_value. apply C_nonzero_Im. simpl. lra.
      - revert Hpz2. unfold FastSphere_layer_point.
        cbn [FastSphere_layer_at FastSphere_layer_start lp_psizeta_z2 lp_d3_z2].
        rewrite Ez2, !D1_real.
        generalize (D1 (over_float z2) 1 1).
        intros D Hne. apply D3_differs_from_D1. exact Hne. }
    split; exact Hdiv.
Qed.

Lemma broadcast_mismatch {A B D : Type} (f : A -> B -> D) (a : list A) (b : list B) :
  (2 <= length a)%nat -> (2 <= length b)%nat -> length a <> length b ->
  broadcast f a b = Raise ValueError.
Proof.
  intros Ha Hb Hne. unfold broadcast.
  destruct (Nat.eqb_spec (length a) (length b)); [contradiction |].
  destruct a as [| a0 [| a1 a']]; simpl in Ha; try lia.
  destruct b as [| b0 [| b1 b']]; simpl in Hb; try lia. reflexivity.
Qed.

(** [sin] vanishes on [(-pi, pi)] at 0 only. *)
Lemma sin_nonzero (t : R) : t <> 0 -> - PI < t < PI -> sin t <> 0.
Proof.
  intros Ht Hr. destruct (Rlt_dec 0 t).
  - pose proof (sin_gt_0 t ltac:(lra) ltac:(lra)). lra.
  - pose proof (sin_gt_0 (- t) ltac:(lra) ltac:(lra)) as H.
    rewrite sin_neg in H. lra.
Qed.

(** Eq. (18a) does not vanish for [0 < |z1| < pi/2]. *)
Lemma psizeta_start_nonzero (z1 : R) :
  z1 <> 0 -> - (PI / 2) < z1 < PI / 2 ->
  (RtoC 0.5 * (C1 - Cexp (mkC 0 2 * RtoC z1)))%C <> C0.
Proof.
  intros Hz Hr. apply Cmul_nonzero; [apply RtoC_nonzero; lra |].
  apply C_nonzero_Im. simpl.
  replace (0 * 0 + 2 * z1) with (2 * z1) by ring.
  replace (0 * z1 - 2 * 0) with 0 by ring. rewrite exp_0.
  pose proof (sin_nonzero (2 * z1) ltac:(lra) ltac:(lra)). lra.
Qed.

(** With one term, the core meets no zero divisor when [z] is not zero. *)
Lemma core_defined_one_term (z : C) : z <> C0 -> core_defined 1 z.
Proof.
  intros Hz. split; [exact Hz |]. intros n Hn. replace n with 1%nat by lia.
  rewrite D1_top.
  replace (C0 + over_complex z 1)%C with (over_complex z 1) by ring.
  unfold over_complex. apply Cdiv_nonzero; [| exact Hz].
  apply RtoC_nonzero. simpl. lra.
Qed.

(** With one term, the last phase meets no zero divisor for
    [0 < |x| < pi/2]. *)
Lemma medium_runs_one_term (x : R) :
  x <> 0 -> - (PI / 2) < x < PI / 2 -> FastSphere_medium_runs 1 x.
Proof.
  intros Hx Hr. unfold FastSphere_medium_runs.
  assert (Hd : (D1 (over_float x) 1 1 + over_float x 1)%C <> C0).
  { rewrite D1_top.
    replace (C0 + over_float x 1)%C with (over_float x 1) by ring.
    unfold over_float. apply RtoC_nonzero. simpl. unfold Rdiv.
    apply Rmult_integral_contrapositive_currified; [lra |].
    apply Rinv_neq_0_compat, Hx. }
  split; [exact Hx |]. split.
  - intros n Hn. replace n with 1%nat by lia. exact Hd.
  - intros n Hn. replace n with 1%nat by lia.
    cbn [medium_at mp_psizeta mp_d3].
    apply Cmul_nonzero; [apply psizeta_start_nonzero; assumption |].
    apply Cmul_nonzero.
    + rewrite (D1_step (over_float x) 1 0) by lia.
      replace (over_float x 1
               - (over_float x 1 - C1 / (D1 (over_float x) 1 1 + over_float x 1)))%C
        with (C1 / (D1 (over_float x) 1 1 + over_float x 1))%C by ring.
      apply Cdiv_nonzero; [apply C1_nonzero | exact Hd].
    + apply C_nonzero_Im. unfold over_float. simpl. lra.
Qed.

(** A homogeneous sphere with one term *)
Lemma small_sphere_runs (x0 : R) (m0 : C) :
  x0 <> 0 -> - (PI / 2) < x0 < PI / 2 -> m0 <> C0 -> FastSphere_runs [x0] [m0] 1.
Proof.
  intros Hx Hr Hm. split; [| split].
  - cbn [nth]. apply core_defined_one_term.
    apply Cmul_nonzero; [apply RtoC_nonzero, Hx | exact Hm].
  - cbn [length]. intros ii Hii. lia.
  - cbn [last]. apply medium_runs_one_term; assumption.
Qed.

Lemma small_sphere_order (x0 : R) (m0 : C) :
  Rabs x0 <= 0.008 -> Rabs x0 * Cabs m0 <= 1 -> spec_select [x0] [m0] = 1%Z.
Proof.
  intros Hx Hz. rewrite spec_select_single.
  pose proof (Rabs_pos x0) as H0.
  assert (Hns : spec_ns (Rabs x0) = 1%Z).
  { unfold spec_ns. destruct (Rle_dec (Rabs x0) 8); [| lra].
    pose proof (float_pow_nonneg (Rabs x0) (1 / 3)).
    pose proof (cube_root_upper 0.2 (Rabs x0) ltac:(lra) ltac:(simpl; lra)).
    apply Zfloor_eq. lra. }
  rewrite Hns, Rmax_left by lra. apply ZfloorZ.
Qed.

(** The scalar divisors of a layer are among those that
    [FastSphere_layer_defined] lists. *)
Lemma FastSphere_layer_defined_runs (x_in x_out : R) (m_in m_out : C) (N : nat)
    (ha hb : list C) :
  FastSphere_layer_defined x_in x_out m_in m_out N ha hb ->
  FastSphere_layer_runs x_in x_out m_out N.
Proof.
  intros (H1 & H2 & H3 & H4 & H5 & _). repeat split; try assumption; apply H5; assumption.
Qed.


(** The sphere of radius 0.0001 with index 1.5 in water, at wavelength
    0.447, and the same sphere with a core of radius 0.00005 *)
Lemma small_example_size (s : R) :
  0 < s <= 0.0001 ->
  0 < 2 * PI / 0.447 * Re (RtoC 1.339) * s <= 0.008.
Proof.
  intros Hs. simpl. pose proof PI_RGT_0. pose proof PI_4.
  assert (0 < 2 * PI / 0.447 * 1.339) by lra.
  split; [apply Rmult_lt_0_compat; lra |].
  apply Rle_trans with (2 * PI / 0.447 * 1.339 * 0.0001); [| lra].
  apply Rmult_le_compat_l; lra.
Qed.

Lemma small_example_index :
  ((RtoC 1.5 + Ci * RtoC 0) / RtoC 1.339)%C = RtoC (1.5 / 1.339).
Proof.
  replace (RtoC 1.5 + Ci * RtoC 0)%C with (RtoC 1.5) by (apply C_eq; simpl; ring).
  apply RtoC_div.
Qed.

(** A homogeneous sphere much smaller than the wavelength: the JIT-kernel
    entry point returns the table of the closed forms. *)
Lemma FastSphere_small_sphere_returns (uninit : nat -> C) (a_p : R) (n_p : C)
    (k_p : R) (n_m : C) (wavelength : R) :
  wavelength <> 0 ->
  let x0 := 2 * PI / wavelength * Re n_m * a_p in
  let m0 := ((n_p + Ci * RtoC k_p) / n_m)%C in
  x0 <> 0 -> Rabs x0 <= 0.008 -> m0 <> C0 -> Rabs x0 * Cabs m0 <= 1 ->
  FastSphere.mie_coefficients uninit [a_p] [n_p] [k_p] n_m wavelength
  = Ok (FastSphere_table [a_p] [n_p] [k_p] n_m wavelength).
Proof.
  intros Hw x0 m0 Hx Hs Hm Hz.
  apply FastSphere_mie_coefficients_outcome; try reflexivity; try assumption;
    [discriminate |].
  change (FastSphere_x [a_p] n_m wavelength) with [x0].
  change (FastSphere_m [n_p] [k_p] n_m) with [m0].
  rewrite (small_sphere_order x0 m0 Hs Hz). change (Z.to_nat 1) with 1%nat.
  pose proof PI2_1 as Hpi.
  apply small_sphere_runs; try assumption.
  pose proof (Rabs_def2 x0 (PI / 2) ltac:(lra)). lra.
Qed.

Lemma small_example_returns (uninit : nat -> C) (a_p wavelength : R) :
  (a_p = 0.0001 \/ a_p = - 0.0001) -> (wavelength = 0.447 \/ wavelength = - 0.447) ->
  FastSphere.mie_coefficients uninit [a_p] [RtoC 1.5] [0] (RtoC 1.339) wavelength
  = Ok (FastSphere_table [a_p] [RtoC 1.5] [0] (RtoC 1.339) wavelength).
Proof.
  intros Ha Hw.
  pose proof (small_example_size 0.0001 ltac:(lra)) as Hx. simpl in Hx.
  assert (Hx0 : Rabs (2 * PI / wavelength * Re (RtoC 1.339) * a_p)
                = 2 * PI / 0.447 * 1.339 * 0.0001).
  { simpl. destruct Ha as [-> | ->], Hw as [-> | ->].
    - apply Rabs_pos_eq. lra.
    - replace (2 * PI / - 0.447 * 1.339 * 0.0001)
        with (- (2 * PI / 0.447 * 1.339 * 0.0001)) by lra.
      rewrite Rabs_Ropp. apply Rabs_pos_eq. lra.
    - replace (2 * PI / 0.447 * 1.339 * - 0.0001)
        with (- (2 * PI / 0.447 * 1.339 * 0.0001)) by lra.
      rewrite Rabs_Ropp. apply Rabs_pos_eq. lra.
    - replace (2 * PI / - 0.447 * 1.339 * - 0.0001)
        with (2 * PI / 0.447 * 1.339 * 0.0001) by lra.
      apply Rabs_pos_eq. lra. }
  apply FastSphere_small_sphere_returns.
  - destruct Hw as [-> | ->]; lra.
  - intros E. rewrite E, Rabs_R0 in Hx0. lra.
  - rewrite Hx0. lra.
  - rewrite small_example_index. apply RtoC_nonzero. lra.
  - rewrite Hx0, small_example_index, Cabs_RtoC, Rabs_pos_eq by lra. lra.
Qed.


(** ** The claims on the coefficient engine *)

(** On a non-empty input of matching lengths and non-zero wavelength the
    JIT-kernel entry point returns a table or raises [ZeroDivisionError]. *)
Lemma FastSphere_mie_coefficients_returns_or_divides (uninit : nat -> C)
    (a_p : list R) (n_p : list C) (k_p : list R) (n_m : C) (wavelength : R) :
  a_p <> [] -> length n_p = length a_p -> length k_p = length a_p ->
  wavelength <> 0 ->
  FastSphere.mie_coefficients uninit a_p n_p k_p n_m wavelength
  = Ok (FastSphere_table a_p n_p k_p n_m wavelength)
  \/ FastSphere.mie_coefficients uninit a_p n_p k_p n_m wavelength
     = Raise ZeroDivisionError.
Proof.
  intros Ha Ln Lk Hw.
  destruct (FastSphere_mie_coefficients_outcome uninit a_p n_p k_p n_m wavelength
              Ha Ln Lk Hw) as [Hgood Hbad].
  cbv zeta in Hgood, Hbad.
  match type of Hbad with
  | ~ ?P -> _ => destruct (classic P) as [G | G]
  end.
  - left. apply Hgood, G.
  - right. apply Hbad, G.
Qed.



(** C3, as the code has it.  On a non-empty input of matching lengths,
    non-zero wavelength and non-zero index of the medium, both entry points
    run the first phase before anything else is done to the arrays they
    allocated (the array-oriented one on a single layer, the only input
    for which it reaches that phase).  With
    [z = x_0 m_0], the JIT kernel seeds cell [N] of [D1] with 0, runs
    [D1[n-1] = n/z - 1/(D1[n] + n/z)] for [n = N .. 1] and takes
    [H_a = H_b = D1[0..N]], unless [z] or a divisor [D1[n] + n/z] is zero,
    when the compiled code raises [ZeroDivisionError]; the array-oriented
    implementation keeps one more cell: it seeds cell [N+1] with 0, runs the
    same recurrence for [n = N+1 .. 1] and takes the cells [0..N] as
    [H_a = H_b]. *)
Theorem core_seed_and_recurrence (uninit : nat -> C) (a_p : list R) (n_p : list C)
    (k_p : list R) (n_m : C) (wavelength : R) :
  a_p <> [] -> length n_p = length a_p -> length k_p = length a_p ->
  wavelength <> 0 -> n_m <> C0 ->
  (let x := FastSphere_x a_p n_m wavelength in
   let m := FastSphere_m n_p k_p n_m in
   let z := (RtoC (nth 0 x 0) * nth 0 m C0)%C in
   let N := Z.to_nat (spec_select x m) in
   exists ab d1_z1 d1_z2 d3_z1 d3_z2 psi zeta q,
     FastSphere.mie_coefficients uninit a_p n_p k_p n_m wavelength
     = ('(d1_z1, d1_z2, d3_z1, d3_z2, ha, hb) <-
          FastSphere.phase_1 uninit x m (Z.of_nat N) d1_z1 d1_z2 d3_z1 d3_z2 ;;
        s <- foreach (range 1 (length a_p)) (FastSphere.layer uninit x m (Z.of_nat N))
               (mkLayer d1_z1 d1_z2 d3_z1 d3_z2 q ha hb) ;;
        FastSphere.into_medium uninit x m (Z.of_nat N) ab (ls_d1_z1 s) (ls_d3_z1 s)
          psi zeta (ls_ha s) (ls_hb s))
     /\ (core_defined N z ->
         exists d1 d2 d3 d4,
           FastSphere.phase_1 uninit x m (Z.of_nat N) d1_z1 d1_z2 d3_z1 d3_z2
           = Ok (d1, d2, d3, d4, d1, d1)
           /\ length d1 = S N /\ nth N d1 C0 = C0
           /\ forall n, (1 <= n <= N)%nat ->
                nth (n - 1) d1 C0 = (NtoC n / z - C1 / (nth n d1 C0 + NtoC n / z))%C)
     /\ (~ core_defined N z ->
         FastSphere.phase_1 uninit x m (Z.of_nat N) d1_z1 d1_z2 d3_z1 d3_z2
         = Raise ZeroDivisionError))
  /\ (forall a n, a_p = [a] -> n_p = [n] ->
      let x := [2 * PI * Re n_m / wavelength * a] in
      let m := [(n / n_m)%C] in
      let z := (RtoC (nth 0 x 0) * nth 0 m C0)%C in
      let N := Z.to_nat (spec_select x m) in
      exists ab d1_z1 d1_z2 d3_z1 d3_z2 psi zeta q,
        Sphere.mie_coefficients uninit a_p n_p n_m wavelength
        = ('(d1_z1, d1_z2, d3_z1, d3_z2, ha, hb) <-
             Sphere.phase_1 x m (Z.of_nat N) d1_z1 d1_z2 d3_z1 d3_z2 ;;
           s <- foreach (range 1 (length a_p)) (Sphere.layer x m (Z.of_nat N))
                  (mkLayer d1_z1 d1_z2 d3_z1 d3_z2 q ha hb) ;;
           into_medium (Z.to_nat (Z.of_nat N + 1)) x m (Z.of_nat N) ab (ls_d1_z1 s)
             (ls_d3_z1 s) psi zeta (ls_ha s) (ls_hb s))
        /\ exists d1 d2 d3 d4 h,
             Sphere.phase_1 x m (Z.of_nat N) d1_z1 d1_z2 d3_z1 d3_z2
             = Ok (d1, d2, d3, d4, h, h)
             /\ length d1 = S (S N) /\ nth (S N) d1 C0 = C0
             /\ (forall n, (1 <= n <= S N)%nat ->
                   nth (n - 1) d1 C0
                   = (NtoC n / z - C1 / (nth n d1 C0 + NtoC n / z))%C)
             /\ length h = S N /\ forall i, (i <= N)%nat -> nth i h C0 = nth i d1 C0).
Proof.
  intros Ha Ln Lk Hw _. split.
  - intros x m z N.
    assert (Lx : length x = length a_p) by (unfold x, FastSphere_x; apply length_map).
    assert (Lm : length m = length a_p)
      by (unfold m, FastSphere_m; rewrite length_map, length_zip_with; lia).
    assert (Hx : x <> []).
    { intros E. rewrite E in Lx. destruct a_p; [congruence | discriminate]. }
    assert (Hm : m <> []).
    { intros E. rewrite E in Lm. destruct a_p; [congruence | discriminate]. }
    pose proof (spec_select_ge_1 x m) as HN.
    assert (EN : spec_select x m = Z.of_nat N) by (unfold N; lia).
    assert (HN1 : (1 <= N)%nat) by (unfold N; lia).
    destruct (np_empty_rows_ok uninit (Z.of_nat N + 1)) as [ab [Eab Lab]]; [lia |].
    destruct (np_empty_ok uninit (Z.of_nat N + 1)) as [e [Ee L]]; [lia |].
    replace (Z.to_nat (Z.of_nat N + 1)) with (S N) in * by lia.
    exists ab, e, e, e, e, e, e, e. split; [| split].
    + unfold FastSphere.mie_coefficients.
      destruct (Req_dec_T wavelength 0) as [E | _]; [contradiction |]. cbn [bind].
      rewrite broadcast_same by congruence. cbn [bind].
      fold (FastSphere_x a_p n_m wavelength). fold (FastSphere_m n_p k_p n_m).
      fold x m.
      rewrite FastSphere_wiscombe_yang_spec by congruence. cbn [bind].
      rewrite EN, Eab, Ee. cbn [bind]. reflexivity.
    + intros Hdef.
      destruct (FastSphere_phase_1_outcome uninit x m N e e e e HN1 Hx Hm L L L L)
        as [Pgood _]. cbv zeta in Pgood. fold z in Pgood.
      exists (D1_list (over_complex z) N), (update e N C0), (update e 0 Ci),
        (update e 0 Ci).
      split; [apply Pgood, Hdef |]. split; [apply length_D1_list |].
      split; [rewrite nth_D1_list by lia; apply D1_top |].
      intros n Hn. rewrite !nth_D1_list by lia.
      rewrite (D1_step (over_complex z) N (n - 1)) by lia.
      replace (S (n - 1)) with n by lia. reflexivity.
    + intros Hdef.
      destruct (FastSphere_phase_1_outcome uninit x m N e e e e HN1 Hx Hm L L L L)
        as [_ Pbad]. apply Pbad, Hdef.
  - intros a n -> -> x m z N.
    pose proof (spec_select_ge_1 x m) as HN.
    assert (EN : spec_select x m = Z.of_nat N) by (unfold N; lia).
    destruct (np_empty_rows_ok uninit (Z.of_nat N + 1)) as [ab [Eab Lab]]; [lia |].
    destruct (np_empty_ok uninit (Z.of_nat N + 2)) as [d [Ed Ld]]; [lia |].
    destruct (np_empty_ok uninit (Z.of_nat N + 1)) as [e [Ee L]]; [lia |].
    replace (Z.to_nat (Z.of_nat N + 2)) with (S (S N)) in * by lia.
    replace (Z.to_nat (Z.of_nat N + 1)) with (S N) in * by lia.
    exists ab, d, d, e, e, e, e, e. split.
    + unfold Sphere.mie_coefficients.
      destruct (Req_dec_T wavelength 0) as [E | _]; [contradiction |].
      cbn [bind map]. fold x m.
      unfold x at 1, m at 1. rewrite Sphere_wiscombe_yang_single. fold x m.
      cbn [bind]. rewrite EN, Eab, Ed, Ee. cbn [bind].
      replace (Z.to_nat (Z.of_nat N + 1)) with (S N) by lia. reflexivity.
    + exists (D1_list (over_complex z) (S N)), (update d (S N) C0), (update e 0 Ci),
        (update e 0 Ci), (map (D1 (over_complex z) (S N)) (seq 0 (S N))).
      split.
      { unfold Sphere.phase_1.
        rewrite !setitem_last_ok by (apply (nonempty_of_length _ (S N)); exact Ld).
        cbn [bind]. rewrite !assign_ok by lia. cbn [bind].
        rewrite Ld. replace (S (S N) - 1)%nat with (S N) by lia.
        unfold Sphere.core, x, m. cbn [item nth_error bind].
        replace (Z.to_nat (Z.of_nat N + 1)) with (S N) by lia.
        fold x m. change (RtoC (2 * PI * Re n_m / wavelength * a) * (n / n_m))%C with z.
        rewrite d1_step_loop
          by (rewrite ?length_update; try assumption; apply nth_update_eq; lia).
        cbn [bind]. rewrite removelast_D1_list. reflexivity. }
      split; [apply length_D1_list |].
      split; [rewrite nth_D1_list by lia; apply D1_top |].
      split.
      * intros k Hk. rewrite !nth_D1_list by lia.
        rewrite (D1_step (over_complex z) (S N) (k - 1)) by lia.
        replace (S (k - 1)) with k by lia. reflexivity.
      * split; [rewrite length_map, length_seq; reflexivity |].
        intros i Hi. rewrite nth_D1_list by lia.
        rewrite (nth_map_in _ _ _ _ 0%nat) by (rewrite length_seq; lia).
        rewrite seq_nth by lia. reflexivity.
Qed.

Lemma core_seed_and_recurrence_witness :
  let x := FastSphere_x [0.0001] (RtoC 1.339) 0.447 in
  let m := FastSphere_m [RtoC 1.5] [0] (RtoC 1.339) in
  let z := (RtoC (nth 0 x 0) * nth 0 m C0)%C in
  exists d1_z1 d1_z2 d3_z1 d3_z2 d1 d2 d3 d4,
    FastSphere.phase_1 (fun _ => C1) x m 1 d1_z1 d1_z2 d3_z1 d3_z2
    = Ok (d1, d2, d3, d4, d1, d1)
    /\ length d1 = 2%nat /\ nth 1 d1 C0 = C0
    /\ nth 0 d1 C0 = (NtoC 1 / z - C1 / (nth 1 d1 C0 + NtoC 1 / z))%C.
Proof.
  intros x m z.
  destruct (proj1 (core_seed_and_recurrence (fun _ => C1) [0.0001] [RtoC 1.5] [0]
                     (RtoC 1.339) 0.447 ltac:(discriminate) eq_refl eq_refl
                     ltac:(lra) ltac:(apply RtoC_nonzero; lra)))
    as (ab & d1_z1 & d1_z2 & d3_z1 & d3_z2 & psi & zeta & q & _ & Hgood & _).
  fold x m z in Hgood.
  pose proof (small_example_size 0.0001 ltac:(lra)) as Hx.
  assert (EN : spec_select x m = 1%Z).
  { unfold x, m. cbn [FastSphere_x FastSphere_m map zip_with combine fst snd].
    rewrite small_example_index.
    apply small_sphere_order; rewrite ?Cabs_RtoC, !Rabs_pos_eq by lra; lra. }
  rewrite EN in Hgood. change (Z.to_nat 1) with 1%nat in Hgood.
  destruct Hgood as (d1 & d2 & d3 & d4 & E & L & S0 & Hrec).
  - apply core_defined_one_term. unfold z, x, m.
    cbn [FastSphere_x FastSphere_m map zip_with combine fst snd nth].
    rewrite small_example_index.
    apply Cmul_nonzero; apply RtoC_nonzero; lra.
  - exists d1_z1, d1_z2, d3_z1, d3_z2, d1, d2, d3, d4.
    split; [exact E |]. split; [exact L |]. split; [exact S0 |].
    apply (Hrec 1%nat). lia.
Defined.

(** C3, as stated, fails on the array-oriented implementation: for the
    single layer of radius 1 and index 1 in a medium of index 1, at
    wavelength [2 pi] ([x = [1]], [m = [1]]), the selector returns [N = 6],
    the entry point runs its first phase on an array [D1] of 8 cells, the
    seed 0 sits in cell 7 and cell [N = 6] holds [7 - 1/7]. *)
Lemma Sphere_core_seed_is_above_N :
  Sphere.wiscombe_yang [1] [C1] = Ok 6%Z
  /\ exists ab d1_z1 d1_z2 d3_z1 d3_z2 psi zeta q,
       Sphere.mie_coefficients (fun _ => C1) [1] [C1] C1 (2 * PI)
       = ('(d1_z1, d1_z2, d3_z1, d3_z2, ha, hb) <-
            Sphere.phase_1 [1] [C1] 6 d1_z1 d1_z2 d3_z1 d3_z2 ;;
          s <- foreach (range 1 1) (Sphere.layer [1] [C1] 6)
                 (mkLayer d1_z1 d1_z2 d3_z1 d3_z2 q ha hb) ;;
          into_medium 7 [1] [C1] 6 ab (ls_d1_z1 s) (ls_d3_z1 s) psi zeta
            (ls_ha s) (ls_hb s))
       /\ exists d1 d2 d3 d4 h,
            Sphere.phase_1 [1] [C1] 6 d1_z1 d1_z2 d3_z1 d3_z2 = Ok (d1, d2, d3, d4, h, h)
            /\ length d1 = 8%nat /\ nth 7 d1 C0 = C0
            /\ nth 6 d1 C0 = RtoC (48 / 7)
            /\ nth 6 d1 C0 <> C0.
Proof.
  assert (Hsel : Sphere.wiscombe_yang [1] [C1] = Ok 6%Z).
  { rewrite Sphere_wiscombe_yang_single, spec_select_1. reflexivity. }
  split; [exact Hsel |].
  assert (E : nth 6 (D1_list (over_complex (RtoC 1 * C1)) 7) C0 = RtoC (48 / 7)).
  { rewrite nth_D1_list by lia.
    rewrite (D1_step _ 7 6) by lia. rewrite D1_top.
    unfold over_complex, NtoC, C0, C1.
    rewrite RtoC_mul, RtoC_div, RtoC_add, RtoC_div, RtoC_sub.
    f_equal. simpl. field. }
  exists (map (fun i => (C1, C1)) (seq 0 7)), (repeat C1 8), (repeat C1 8),
    (repeat C1 7), (repeat C1 7), (repeat C1 7), (repeat C1 7), (repeat C1 7).
  split.
  - unfold Sphere.mie_coefficients.
    destruct (Req_dec_T (2 * PI) 0) as [E0 | _];
      [pose proof PI_RGT_0; lra |].
    cbn [bind map length].
    replace (2 * PI * Re C1 / (2 * PI) * 1) with 1
      by (simpl; field; pose proof PI_RGT_0; lra).
    replace (C1 / C1)%C with C1 by (field; apply C1_nonzero).
    rewrite Hsel. cbn [bind]. reflexivity.
  - exists (D1_list (over_complex (RtoC 1 * C1)) 7),
      (update (repeat C1 8) 7 C0), (update (repeat C1 7) 0 Ci),
      (update (repeat C1 7) 0 Ci),
      (map (D1 (over_complex (RtoC 1 * C1)) 7) (seq 0 7)).
    split; [| split; [| split; [| split]]].
    + unfold Sphere.phase_1.
      rewrite !setitem_last_ok by discriminate. cbn [bind].
      rewrite !assign_ok by (simpl; lia). cbn [bind].
      unfold Sphere.core. cbn [item nth_error bind].
      replace (Z.to_nat (6 + 1)) with 7%nat by lia.
      rewrite d1_step_loop by reflexivity.
      cbn [bind]. rewrite removelast_D1_list. reflexivity.
    + apply length_D1_list.
    + rewrite nth_D1_list by lia. apply D1_top.
    + exact E.
    + rewrite E. intros H. apply (f_equal Re) in H. simpl in H. lra.
Qed.
(** An empty layer list raises in the selector of the JIT kernel. *)
Lemma FastSphere_mie_coefficients_empty (uninit : nat -> C) (n_p : list C)
    (k_p : list R) (n_m : C) (wavelength : R) :
  wavelength <> 0 ->
  FastSphere.mie_coefficients uninit [] n_p k_p n_m wavelength = Raise ValueError.
Proof.
  intros Hw. unfold FastSphere.mie_coefficients.
  destruct (Req_dec_T wavelength 0); [contradiction |]. cbn [bind].
  destruct (broadcast _ n_p k_p) as [nk | e] eqn:Eb; cbn [bind map].
  - rewrite FastSphere_wiscombe_yang_empty. reflexivity.
  - unfold broadcast in Eb.
    destruct (length n_p =? length k_p)%nat; [discriminate |].
    destruct n_p as [| ? [| ? ?]]; destruct k_p as [| ? [| ? ?]];
      try discriminate; injection Eb as <-; reflexivity.
Qed.


(** A radius 0 makes the compiled kernel divide by zero. *)
Lemma FastSphere_zero_radius (uninit : nat -> C) (a_p : list R) (n_p : list C)
    (k_p : list R) (n_m : C) (wavelength : R) :
  In 0 a_p -> length n_p = length a_p -> length k_p = length a_p ->
  wavelength <> 0 ->
  FastSphere.mie_coefficients uninit a_p n_p k_p n_m wavelength
  = Raise ZeroDivisionError.
Proof.
  intros Hin Ln Lk Hw.
  assert (Ha : a_p <> []) by (intros E; rewrite E in Hin; exact Hin).
  apply FastSphere_mie_coefficients_outcome; try assumption.
  destruct (In_nth a_p 0 0 Hin) as [ii [Hii Eii]].
  set (x := FastSphere_x a_p n_m wavelength).
  assert (Ex : nth ii x 0 = 0).
  { unfold x, FastSphere_x.
    rewrite (nth_map_in (fun a_j => 2 * PI / wavelength * Re n_m * a_j) a_p ii 0 0)
      by exact Hii.
    rewrite Eii. ring. }
  assert (Lx : length x = length a_p) by (unfold x, FastSphere_x; apply length_map).
  intros (Hcore & Hlayers & _).
  destruct ii as [| j].
  - destruct Hcore as [Hz _]. apply Hz. rewrite Ex. apply C_eq; simpl; ring.
  - destruct (Hlayers (S j) ltac:(lia)) as (_ & _ & Hout & _).
    apply Hout, Ex.
Qed.

(** One index and one absorption for any number of radii: the selector
    broadcasts them and the compiled kernel reads [m] unchecked. *)
Lemma FastSphere_single_index_accepted (uninit : nat -> C) (a_p : list R) (n : C)
    (k : R) (n_m : C) (wavelength : R) :
  a_p <> [] -> wavelength <> 0 ->
  is_ok (FastSphere.mie_coefficients uninit a_p [n] [k] n_m wavelength)
  \/ FastSphere.mie_coefficients uninit a_p [n] [k] n_m wavelength
     = Raise ZeroDivisionError.
Proof.
  intros Ha Hw. unfold FastSphere.mie_coefficients.
  destruct (Req_dec_T wavelength 0) as [E | _]; [contradiction |].
  cbn [bind broadcast length Nat.eqb zip_with combine map fst snd].
  set (x := map (fun a_j => 2 * PI / wavelength * Re n_m * a_j) a_p).
  assert (Hx : x <> []).
  { intros E. apply (f_equal (@length R)) in E. unfold x in E.
    rewrite length_map in E. destruct a_p; [congruence | discriminate]. }
  destruct (FastSphere_wiscombe_yang_broadcast x ((n + Ci * RtoC k) / n_m)%C Hx)
    as [nmax [-> HN]].
  cbn [bind].
  set (N := Z.to_nat nmax).
  assert (EN : nmax = Z.of_nat N) by (unfold N; lia).
  destruct (np_empty_rows_ok uninit (nmax + 1)) as [ab [-> Lab]]; [lia |].
  destruct (np_empty_ok uninit (nmax + 1)) as [e [-> L]]; [lia |].
  cbn [bind].
  replace (Z.to_nat (nmax + 1)) with (S N) in * by lia.
  rewrite EN.
  apply FastSphere_kernel_accepts; try assumption; [lia | discriminate].
Qed.

(** C8, as the code has it.  Neither entry point validates its input.  An
    empty layer list raises in the truncation selector, before any array is
    allocated: [IndexError] from [x[-1]] in the array-oriented
    implementation, [ValueError] from [xm.max()] in the JIT-kernel one.  A
    zero wavelength raises [ZeroDivisionError] in the computation of the
    wave number.  In the JIT-kernel implementation radii and indices of
    different lengths, both at least 2, raise the [ValueError] of
    broadcasting in the selector, while a single index for any number of
    radii is accepted.  The sign of a radius or of the wavelength is not
    looked at: in the array-oriented implementation every single-layer
    input of non-zero wavelength yields a table; in the JIT-kernel
    implementation every non-empty input of non-zero wavelength and
    non-zero index of the medium, of matching lengths or with a single
    index, yields a table unless a scalar divisor of the recurrences is
    zero, which raises [ZeroDivisionError] after the arrays were allocated,
    as a radius 0 does. *)
Theorem malformed_input_as_handled :
  (forall uninit n_p n_m wavelength,
      wavelength <> 0 ->
      Sphere.wiscombe_yang [] (map (fun n_j => (n_j / n_m)%C) n_p) = Raise IndexError
      /\ Sphere.mie_coefficients uninit [] n_p n_m wavelength = Raise IndexError)
  /\ (forall uninit n_p k_p n_m wavelength,
      wavelength <> 0 ->
      (forall m, FastSphere.wiscombe_yang [] m = Raise ValueError)
      /\ FastSphere.mie_coefficients uninit [] n_p k_p n_m wavelength
         = Raise ValueError)
  /\ (forall uninit a_p n_p n_m,
      Sphere.mie_coefficients uninit a_p n_p n_m 0 = Raise ZeroDivisionError)
  /\ (forall uninit a_p n_p k_p n_m,
      FastSphere.mie_coefficients uninit a_p n_p k_p n_m 0 = Raise ZeroDivisionError)
  /\ (forall uninit a_p n_p k_p n_m wavelength,
      wavelength <> 0 -> length k_p = length n_p ->
      (2 <= length a_p)%nat -> (2 <= length n_p)%nat -> length a_p <> length n_p ->
      FastSphere.mie_coefficients uninit a_p n_p k_p n_m wavelength = Raise ValueError)
  /\ (forall uninit a_p n_p n_m wavelength,
      wavelength <> 0 ->
      is_ok (Sphere.mie_coefficients uninit [a_p] [n_p] n_m wavelength))
  /\ (forall uninit a_p n_p k_p n_m wavelength,
      a_p <> [] -> wavelength <> 0 -> n_m <> C0 ->
      (length n_p = length a_p /\ length k_p = length a_p)
      \/ (length n_p = 1%nat /\ length k_p = 1%nat) ->
      is_ok (FastSphere.mie_coefficients uninit a_p n_p k_p n_m wavelength)
      \/ FastSphere.mie_coefficients uninit a_p n_p k_p n_m wavelength
         = Raise ZeroDivisionError)
  /\ (forall uninit a_p n_p k_p n_m wavelength,
      In 0 a_p -> length n_p = length a_p -> length k_p = length a_p ->
      wavelength <> 0 -> n_m <> C0 ->
      FastSphere.mie_coefficients uninit a_p n_p k_p n_m wavelength
      = Raise ZeroDivisionError).
Proof.
  split; [| split; [| split; [| split; [| split; [| split; [| split]]]]]].
  - intros uninit n_p n_m wavelength Hw. split; [reflexivity |].
    unfold Sphere.mie_coefficients.
    destruct (Req_dec_T wavelength 0); [contradiction | reflexivity].
  - intros uninit n_p k_p n_m wavelength Hw.
    split; [exact FastSphere_wiscombe_yang_empty |].
    apply FastSphere_mie_coefficients_empty. exact Hw.
  - intros uninit a_p n_p n_m. unfold Sphere.mie_coefficients.
    destruct (Req_dec_T 0 0); [reflexivity | contradiction].
  - intros uninit a_p n_p k_p n_m. unfold FastSphere.mie_coefficients.
    destruct (Req_dec_T 0 0); [reflexivity | contradiction].
  - intros uninit a_p n_p k_p n_m wavelength Hw Lk La Ln Hne.
    unfold FastSphere.mie_coefficients.
    destruct (Req_dec_T wavelength 0); [contradiction |]. cbn [bind].
    rewrite broadcast_same by congruence. cbn [bind].
    unfold FastSphere.wiscombe_yang. cbv zeta.
    unfold abs_prod at 1. rewrite broadcast_mismatch; [reflexivity | | |];
      rewrite ?length_map, ?length_zip_with; lia.
  - intros uninit a_p n_p n_m wavelength Hw. eexists.
    apply Sphere_mie_coefficients_single. exact Hw.
  - intros uninit a_p n_p k_p n_m wavelength Ha Hw _ [[Ln Lk] | [Ln Lk]].
    + destruct (FastSphere_mie_coefficients_returns_or_divides uninit a_p n_p k_p n_m
                  wavelength Ha Ln Lk Hw) as [E | E].
      * left. eexists. exact E.
      * right. exact E.
    + destruct n_p as [| n [| ? ?]]; try discriminate.
      destruct k_p as [| k [| ? ?]]; try discriminate.
      apply FastSphere_single_index_accepted; assumption.
  - intros uninit a_p n_p k_p n_m wavelength H0 Ln Lk Hw _.
    apply FastSphere_zero_radius; assumption.
Qed.

Lemma malformed_input_as_handled_witness :
  Sphere.mie_coefficients (fun _ => C0) [] [C1] C1 1 = Raise IndexError
  /\ FastSphere.mie_coefficients (fun _ => C0) [] [C1] [0] C1 1 = Raise ValueError
  /\ Sphere.mie_coefficients (fun _ => C0) [1] [C1] C1 0 = Raise ZeroDivisionError
  /\ is_ok (Sphere.mie_coefficients (fun _ => C0) [-1] [C1] C1 1)
  /\ FastSphere.mie_coefficients (fun _ => C0) [0; 1] [C1; C1] [0; 0] C1 1
     = Raise ZeroDivisionError.
Proof.
  split; [| split; [| split; [| split]]].
  - apply (proj1 malformed_input_as_handled). lra.
  - apply (proj1 (proj2 malformed_input_as_handled)). lra.
  - apply (proj1 (proj2 (proj2 malformed_input_as_handled))).
  - apply (proj1 (proj2 (proj2 (proj2 (proj2 (proj2 malformed_input_as_handled)))))).
    lra.
  - apply (proj2 (proj2 (proj2 (proj2 (proj2 (proj2 (proj2
             malformed_input_as_handled))))))); try reflexivity;
      [left; reflexivity | lra | apply C1_nonzero].
Defined.

(** C8, as stated, fails: a negative radius, and a negative wavelength, are
    malformed and both implementations return a table for them. *)
Lemma nonpositive_input_is_accepted :
  malformed [-1] [RtoC 1.5] 0.447
  /\ is_ok (Sphere.mie_coefficients (fun _ => C0) [-1] [RtoC 1.5] (RtoC 1.339) 0.447)
  /\ malformed [- 0.0001] [RtoC 1.5] 0.447
  /\ is_ok (FastSphere.mie_coefficients (fun _ => C0) [- 0.0001] [RtoC 1.5] [0]
              (RtoC 1.339) 0.447)
  /\ malformed [0.75] [RtoC 1.5] (-0.447)
  /\ is_ok (Sphere.mie_coefficients (fun _ => C0) [0.75] [RtoC 1.5] (RtoC 1.339)
              (-0.447))
  /\ malformed [0.0001] [RtoC 1.5] (-0.447)
  /\ is_ok (FastSphere.mie_coefficients (fun _ => C0) [0.0001] [RtoC 1.5] [0]
              (RtoC 1.339) (-0.447))
  /\ ~ (forall a_p n_p n_m wavelength,
          malformed a_p n_p wavelength ->
          is_error (Sphere.mie_coefficients (fun _ => C0) a_p n_p n_m wavelength))
  /\ ~ (forall a_p n_p k_p n_m wavelength,
          malformed a_p n_p wavelength ->
          is_error (FastSphere.mie_coefficients (fun _ => C0) a_p n_p k_p n_m
                      wavelength)).
Proof.
  assert (M1 : malformed [-1] [RtoC 1.5] 0.447).
  { right. right. left. exists (-1). split; [left; reflexivity | lra]. }
  assert (E1 : is_ok (Sphere.mie_coefficients (fun _ => C0) [-1] [RtoC 1.5]
                        (RtoC 1.339) 0.447)).
  { eexists. apply Sphere_mie_coefficients_single. lra. }
  assert (M2 : malformed [- 0.0001] [RtoC 1.5] 0.447).
  { right. right. left. exists (- 0.0001). split; [left; reflexivity | lra]. }
  assert (E2 : is_ok (FastSphere.mie_coefficients (fun _ => C0) [- 0.0001] [RtoC 1.5]
                        [0] (RtoC 1.339) 0.447)).
  { eexists. apply small_example_returns; [right | left]; reflexivity. }
  split; [exact M1 |]. split; [exact E1 |]. split; [exact M2 |]. split; [exact E2 |].
  split; [right; right; right; lra |].
  split; [eexists; apply Sphere_mie_coefficients_single; lra |].
  split; [right; right; right; lra |].
  split; [eexists; apply small_example_returns; [left | right]; reflexivity |].
  split.
  - intros H. destruct (H _ _ (RtoC 1.339) _ M1) as [e He].
    destruct E1 as [ab Hab]. rewrite Hab in He. discriminate.
  - intros H. destruct (H _ _ [0] (RtoC 1.339) _ M2) as [e He].
    destruct E2 as [ab Hab]. rewrite Hab in He. discriminate.
Qed.

(** ** Two layers in the JIT kernel *)

(** C5.  The array-oriented implementation raises on the two-layer input
    (its selector hands arrays to [max]), so it cannot return the
    single-layer table; in the JIT-kernel implementation a second layer of
    the same radius, index and absorption is a no-op: the two-layer run
    returns what the single-layer run returns, provided no divisor of the
    layer update vanishes. *)
Theorem degenerate_second_layer :
  (forall uninit a_p n_p n_m wavelength,
      is_error (Sphere.mie_coefficients uninit [a_p; a_p] [n_p; n_p] n_m wavelength))
  /\ (forall uninit a_p n_p k_p n_m wavelength,
      let x0 := 2 * PI / wavelength * Re n_m * a_p in
      let m0 := ((n_p + Ci * RtoC k_p) / n_m)%C in
      let N := Z.to_nat (spec_select [x0] [m0]) in
      let h := FastSphere_core_h (RtoC x0 * m0) N in
      FastSphere_layer_defined x0 x0 m0 m0 N h h ->
      FastSphere.mie_coefficients uninit [a_p; a_p] [n_p; n_p] [k_p; k_p] n_m wavelength
      = FastSphere.mie_coefficients uninit [a_p] [n_p] [k_p] n_m wavelength).
Proof.
  split.
  - intros. apply Sphere_mie_coefficients_multilayer. simpl. lia.
  - intros uninit a_p n_p k_p n_m wavelength x0 m0 N h Hdef.
    destruct (Req_dec wavelength 0) as [-> | Hw].
    + unfold FastSphere.mie_coefficients.
      destruct (Req_dec_T 0 0); [cbn [bind]; reflexivity | contradiction].
    + destruct (FastSphere_mie_coefficients_outcome uninit [a_p; a_p] [n_p; n_p]
                  [k_p; k_p] n_m wavelength ltac:(discriminate) eq_refl eq_refl Hw)
        as [Good2 Bad2].
      destruct (FastSphere_mie_coefficients_outcome uninit [a_p] [n_p] [k_p] n_m
                  wavelength ltac:(discriminate) eq_refl eq_refl Hw)
        as [Good1 Bad1].
      cbv zeta in Good1, Bad1, Good2, Bad2.
      change (FastSphere_x [a_p; a_p] n_m wavelength) with [x0; x0] in Good2, Bad2.
      change (FastSphere_m [n_p; n_p] [k_p; k_p] n_m) with [m0; m0] in Good2, Bad2.
      change (FastSphere_x [a_p] n_m wavelength) with [x0] in Good1, Bad1.
      change (FastSphere_m [n_p] [k_p] n_m) with [m0] in Good1, Bad1.
      rewrite spec_select_double in Good2, Bad2. fold N in Good1, Bad1, Good2, Bad2.
      assert (Hiff : FastSphere_runs [x0; x0] [m0; m0] N <-> FastSphere_runs [x0] [m0] N).
      { split; intros (Hc & Hl & Hm); (split; [exact Hc | split; [| exact Hm]]).
        - cbn [length]. intros ii Hii. lia.
        - cbn [length]. intros ii Hii. replace ii with 1%nat by lia. cbn [nth Nat.sub].
          apply (FastSphere_layer_defined_runs x0 x0 m0 m0 N h h Hdef). }
      destruct (classic (FastSphere_runs [x0] [m0] N)) as [G | G].
      * rewrite (Good1 G), (Good2 (proj2 Hiff G)). f_equal.
        unfold FastSphere_table.
        change (FastSphere_x [a_p; a_p] n_m wavelength) with [x0; x0].
        change (FastSphere_m [n_p; n_p] [k_p; k_p] n_m) with [m0; m0].
        change (FastSphere_x [a_p] n_m wavelength) with [x0].
        change (FastSphere_m [n_p] [k_p] n_m) with [m0].
        rewrite spec_select_double. fold N.
        cbn [length Nat.sub FastSphere_layers_h fst snd nth last].
        pose proof (FastSphere_layer_h_degenerate x0 m0 N Hdef) as E.
        cbv zeta in E. fold h in E |- *. rewrite E. reflexivity.
      * rewrite (Bad1 G), Bad2; [reflexivity |].
        intros G2. apply G, Hiff, G2.
Qed.

Lemma degenerate_second_layer_witness :
  is_error (Sphere.mie_coefficients (fun _ => C1) [0.0001; 0.0001]
              [RtoC 1.5; RtoC 1.5] (RtoC 1.339) 0.447)
  /\ FastSphere.mie_coefficients (fun _ => C1) [0.0001; 0.0001] [RtoC 1.5; RtoC 1.5]
       [0; 0] (RtoC 1.339) 0.447
     = FastSphere.mie_coefficients (fun _ => C1) [0.0001] [RtoC 1.5] [0]
         (RtoC 1.339) 0.447.
Proof.
  split; [apply (proj1 degenerate_second_layer) |].
  apply (proj2 degenerate_second_layer). cbv zeta.
  pose proof (small_example_size 0.0001 ltac:(lra)) as Hx.
  set (x0 := 2 * PI / 0.447 * Re (RtoC 1.339) * 0.0001) in *.
  rewrite small_example_index.
  assert (Hmu : 0 < 1.5 / 1.339) by lra.
  assert (Hz : 1.5 / 1.339 * x0 <= 1) by lra.
  rewrite (small_layered_sphere_order x0 (1.5 / 1.339) Hx Hmu Hz).
  change (Z.to_nat 1) with 1%nat.
  apply (small_matched_layer_defined x0 x0 (1.5 / 1.339)); lra.
Defined.

(** * Further properties of the engine *)

(** ** Shape of the table and unspecified storage *)

Lemma FastSphere_mie_coefficients_storage (u u' : nat -> C) (a_p : list R)
    (n_p : list C) (k_p : list R) (n_m : C) (wavelength : R) :
  length n_p = length a_p -> length k_p = length a_p ->
  FastSphere.mie_coefficients u a_p n_p k_p n_m wavelength
  = FastSphere.mie_coefficients u' a_p n_p k_p n_m wavelength.
Proof.
  intros Ln Lk.
  destruct (Req_dec wavelength 0) as [-> | Hw].
  { unfold FastSphere.mie_coefficients.
    destruct (Req_dec_T 0 0); [reflexivity | contradiction]. }
  destruct a_p as [| a0 a_p'] eqn:Ea.
  { rewrite !FastSphere_mie_coefficients_empty by exact Hw. reflexivity. }
  rewrite <- Ea in *.
  assert (Ha : a_p <> []) by (rewrite Ea; discriminate).
  destruct (FastSphere_mie_coefficients_outcome u' a_p n_p k_p n_m wavelength
              Ha Ln Lk Hw) as [Good Bad];
    destruct (FastSphere_mie_coefficients_outcome u a_p n_p k_p n_m wavelength
                Ha Ln Lk Hw) as [Good0 Bad0];
    cbv zeta in Good, Bad, Good0, Bad0;
    match type of Bad with
    | ~ ?P -> _ => destruct (classic P) as [G | G]
    end;
    rewrite ?(Good G), ?(Good0 G), ?(Bad G), ?(Bad0 G); reflexivity.
Qed.


Lemma Sphere_mie_coefficients_storage (u u' : nat -> C) (a_p : list R) (n_p : list C)
    (n_m : C) (wavelength : R) :
  length n_p = length a_p ->
  Sphere.mie_coefficients u a_p n_p n_m wavelength
  = Sphere.mie_coefficients u' a_p n_p n_m wavelength.
Proof.
  intros Ln.
  destruct (Req_dec wavelength 0) as [-> | Hw].
  { unfold Sphere.mie_coefficients.
    destruct (Req_dec_T 0 0); [reflexivity | contradiction]. }
  destruct a_p as [| a [| a' a_p]].
  - unfold Sphere.mie_coefficients.
    destruct (Req_dec_T wavelength 0); [contradiction |]. reflexivity.
  - destruct n_p as [| n [| ? ?]]; try discriminate.
    rewrite !Sphere_mie_coefficients_single by exact Hw. reflexivity.
  - unfold Sphere.mie_coefficients.
    destruct (Req_dec_T wavelength 0); [contradiction |]. cbn [bind].
    rewrite Sphere_wiscombe_yang_multilayer by (rewrite length_map; simpl; lia).
    reflexivity.
Qed.

(** X2.  The arrays that [np.empty] returns hold unspecified values; none of
    them reaches the result.  For radius and index arrays of one length, the
    outcome of either entry point (the table, or the exception) is the same
    whatever the allocated buffers contained. *)
Theorem result_ignores_unspecified_storage (u u' : nat -> C) (a_p : list R)
    (n_p : list C) (k_p : list R) (n_m : C) (wavelength : R) :
  length n_p = length a_p -> length k_p = length a_p ->
  FastSphere.mie_coefficients u a_p n_p k_p n_m wavelength
  = FastSphere.mie_coefficients u' a_p n_p k_p n_m wavelength
  /\ Sphere.mie_coefficients u a_p n_p n_m wavelength
     = Sphere.mie_coefficients u' a_p n_p n_m wavelength.
Proof.
  intros Ln Lk. split.
  - apply FastSphere_mie_coefficients_storage; assumption.
  - apply Sphere_mie_coefficients_storage; assumption.
Qed.

Lemma result_ignores_unspecified_storage_witness :
  FastSphere.mie_coefficients (fun _ => C0) [1; 2] [RtoC 1.5; RtoC 1.4] [0; 0]
    (RtoC 1.339) 0.447
  = FastSphere.mie_coefficients (fun n => NtoC n) [1; 2] [RtoC 1.5; RtoC 1.4] [0; 0]
      (RtoC 1.339) 0.447
  /\ Sphere.mie_coefficients (fun _ => C0) [1; 2] [RtoC 1.5; RtoC 1.4] (RtoC 1.339) 0.447
     = Sphere.mie_coefficients (fun n => NtoC n) [1; 2] [RtoC 1.5; RtoC 1.4]
         (RtoC 1.339) 0.447.
Proof.
  apply (result_ignores_unspecified_storage (fun _ => C0) (fun n => NtoC n)
           [1; 2] [RtoC 1.5; RtoC 1.4] [0; 0] (RtoC 1.339) 0.447); reflexivity.
Defined.

(** ** The truncation selector *)

Lemma fold_right_Rmax_ge (a v : R) (t : list R) :
  v = a \/ In v t -> v <= fold_right Rmax a t.
Proof.
  induction t as [| b t IH]; cbn [fold_right In].
  - intros [-> | []]. lra.
  - intros [E | [E | H]].
    + eapply Rle_trans; [apply IH; left; exact E | apply Rmax_r].
    + rewrite E. apply Rmax_l.
    + eapply Rle_trans; [apply IH; right; exact H | apply Rmax_r].
Qed.

Lemma maximum_ge (v : R) (l : list R) : In v l -> v <= maximum l.
Proof.
  destruct l as [| a t]; [intros [] |].
  intros [E | H]; unfold maximum; apply fold_right_Rmax_ge; [left | right]; auto.
Qed.

Lemma fold_right_Rmax_le (a b : R) (t : list R) :
  a <= b -> (forall v, In v t -> v <= b) -> fold_right Rmax a t <= b.
Proof.
  intros Ha. induction t as [| c t IH]; cbn [fold_right]; intros H; [exact Ha |].
  apply Rmax_lub; [apply H; left; reflexivity | apply IH].
  intros v Hv. apply H. right. exact Hv.
Qed.

Lemma maximum_le (b : R) (l : list R) :
  l <> [] -> (forall v, In v l -> v <= b) -> maximum l <= b.
Proof.
  destruct l as [| a t]; [congruence |]. intros _ H. unfold maximum.
  apply fold_right_Rmax_le; [apply H; left; reflexivity |].
  intros v Hv. apply H. right. exact Hv.
Qed.

Lemma spec_ns_lower (xl : R) :
  0 <= xl -> xl + 4 * float_pow xl (1 / 3) < IZR (spec_ns xl).
Proof.
  intros H. unfold spec_ns.
  pose proof (float_pow_nonneg xl (1 / 3)) as Hp.
  destruct (Rle_dec xl 8); [| destruct (Rle_dec xl 4200)];
    match goal with
    | |- _ < IZR (Zfloor ?y) => pose proof (Zfloor_bound y)
    end; lra.
Qed.

(** Whenever a selector returns, it returns the order of [spec_select]. *)
Lemma selector_returns_spec_select (x : list R) (m : list C) (N : Z) :
  length m = length x ->
  FastSphere.wiscombe_yang x m = Ok N \/ Sphere.wiscombe_yang x m = Ok N ->
  x <> [] /\ N = spec_select x m.
Proof.
  intros Lm [H | H].
  - destruct x as [| x0 xs];
      [rewrite FastSphere_wiscombe_yang_empty in H; discriminate H |].
    split; [discriminate |].
    rewrite FastSphere_wiscombe_yang_spec in H by (congruence || discriminate).
    injection H as <-. reflexivity.
  - pose proof (Sphere_wiscombe_yang_ok_single x m N H) as L1.
    destruct x as [| x0 [| ? ?]]; try discriminate.
    destruct m as [| m0 [| ? ?]]; try discriminate.
    split; [discriminate |].
    rewrite Sphere_wiscombe_yang_single in H. injection H as <-. reflexivity.
Qed.

(** X3.  The order that a selector returns lies above the size parameters:
    with [xl = |x[-1]|], [xl + 4 xl^(1/3) < N], and every product
    [|x_j m_j|] and [|x_(j+1 mod L) m_j|] is below [N + 1]. *)
Theorem truncation_order_exceeds_size_parameters (x : list R) (m : list C) (N : Z) :
  length m = length x ->
  FastSphere.wiscombe_yang x m = Ok N \/ Sphere.wiscombe_yang x m = Ok N ->
  Rabs (last x 0) + 4 * float_pow (Rabs (last x 0)) (1 / 3) < IZR N
  /\ forall j, (j < length x)%nat ->
       Cabs (RtoC (nth j x 0) * nth j m C0) < IZR N + 1
       /\ Cabs (RtoC (nth ((j + 1) mod length x) x 0) * nth j m C0) < IZR N + 1.
Proof.
  intros Lm H. destruct (selector_returns_spec_select x m N Lm H) as [Hx ->].
  unfold spec_select.
  set (xm := map (fun j => Cabs (RtoC (nth j x 0) * nth j m C0)) (seq 0 (length x))).
  set (xm' := map (fun j => Cabs (RtoC (nth ((j + 1) mod length x) x 0) * nth j m C0))
                (seq 0 (length x))).
  set (r := Rmax (IZR (spec_ns (Rabs (last x 0)))) (Rmax (maximum xm) (maximum xm'))).
  pose proof (Zfloor_bound r) as [Hlo Hhi].
  split.
  - pose proof (spec_ns_lower (Rabs (last x 0)) (Rabs_pos _)) as Hns.
    pose proof (Zfloor_lub _ r (Rmax_l _ _ : IZR (spec_ns (Rabs (last x 0))) <= r))
      as Hle.
    apply IZR_le in Hle. lra.
  - intros j Hj. split.
    + assert (Hin : Cabs (RtoC (nth j x 0) * nth j m C0) <= maximum xm).
      { apply maximum_ge. unfold xm.
        apply (in_map (fun j => Cabs (RtoC (nth j x 0) * nth j m C0))).
        apply in_seq. lia. }
      pose proof (Rmax_l (maximum xm) (maximum xm')).
      pose proof (Rmax_r (IZR (spec_ns (Rabs (last x 0))))
                    (Rmax (maximum xm) (maximum xm'))).
      fold r in H1. lra.
    + assert (Hin : Cabs (RtoC (nth ((j + 1) mod length x) x 0) * nth j m C0)
                    <= maximum xm').
      { apply maximum_ge. unfold xm'.
        apply (in_map (fun j => Cabs (RtoC (nth ((j + 1) mod length x) x 0)
                                        * nth j m C0))).
        apply in_seq. lia. }
      pose proof (Rmax_r (maximum xm) (maximum xm')).
      pose proof (Rmax_r (IZR (spec_ns (Rabs (last x 0))))
                    (Rmax (maximum xm) (maximum xm'))).
      fold r in H1. lra.
Qed.

Lemma truncation_order_exceeds_size_parameters_witness :
  Rabs (last [1; 2] 0) + 4 * float_pow (Rabs (last [1; 2] 0)) (1 / 3)
  < IZR (spec_select [1; 2] [C1; C1])
  /\ forall j, (j < length [1; 2])%nat ->
       Cabs (RtoC (nth j [1; 2] 0) * nth j [C1; C1] C0)
       < IZR (spec_select [1; 2] [C1; C1]) + 1
       /\ Cabs (RtoC (nth ((j + 1) mod length [1; 2]) [1; 2] 0) * nth j [C1; C1] C0)
          < IZR (spec_select [1; 2] [C1; C1]) + 1.
Proof.
  apply (truncation_order_exceeds_size_parameters [1; 2] [C1; C1]
           (spec_select [1; 2] [C1; C1])).
  - reflexivity.
  - left. apply FastSphere_wiscombe_yang_spec; [discriminate | reflexivity].
Defined.

Lemma zip_with_map_l {A A' B D : Type} (f : A -> B -> D) (g : A' -> A)
    (a : list A') (b : list B) :
  zip_with f (map g a) b = zip_with (fun u v => f (g u) v) a b.
Proof.
  unfold zip_with. revert b.
  induction a as [| a0 a IH]; intros [| b0 b]; cbn [map combine fst snd];
    try reflexivity.
  f_equal. apply IH.
Qed.

Lemma broadcast_map_l {A A' B D : Type} (f : A -> B -> D) (g : A' -> A)
    (a : list A') (b : list B) :
  broadcast f (map g a) b = broadcast (fun u v => f (g u) v) a b.
Proof.
  unfold broadcast. rewrite length_map, zip_with_map_l.
  destruct (length a =? length b)%nat; [reflexivity |].
  destruct a as [| a0 [| a1 a]]; cbn [map]; try reflexivity.
  destruct b as [| b0 [| b1 b]]; try reflexivity.
  cbn [map]. rewrite map_map. reflexivity.
Qed.

Lemma roll_left_map {A B : Type} (g : A -> B) (l : list A) :
  roll_left (map g l) = map g (roll_left l).
Proof.
  destruct l as [| a t]; [reflexivity |]. cbn [map roll_left].
  rewrite map_app. reflexivity.
Qed.

Lemma last_of_map {A B : Type} (g : A -> B) (l : list A) (d : A) :
  last (map g l) (g d) = g (last l d).
Proof.
  induction l as [| a t IH]; [reflexivity |].
  destruct t as [| b t]; [reflexivity |].
  exact IH.
Qed.

Lemma getitem_map_last {A B : Type} (g : A -> B) (l : list A) :
  getitem (map g l) (-1) = match getitem l (-1) with
                           | Ok a => Ok (g a)
                           | Raise e => Raise e
                           end.
Proof.
  destruct l as [| a t]; [reflexivity |].
  rewrite (getitem_last (map g (a :: t)) (g a)) by discriminate.
  rewrite (getitem_last (a :: t) a) by discriminate.
  f_equal. apply last_of_map.
Qed.

Lemma broadcast_ext {A B D : Type} (f f' : A -> B -> D) (a : list A) (b : list B) :
  (forall u v, f u v = f' u v) -> broadcast f a b = broadcast f' a b.
Proof.
  intros E. unfold broadcast, zip_with.
  destruct (length a =? length b)%nat.
  - f_equal. apply map_ext. intros p. apply E.
  - destruct a as [| a0 [| a1 a]]; try reflexivity.
    + f_equal. apply map_ext. intros v. apply E.
    + destruct b as [| b0 [| b1 b]]; try reflexivity.
      f_equal. apply map_ext. intros v. apply E.
Qed.

Lemma abs_prod_opp (x : list R) (m : list C) :
  abs_prod (map Ropp x) m = abs_prod x m.
Proof.
  unfold abs_prod. rewrite broadcast_map_l. apply broadcast_ext.
  intros u v. rewrite !Cabs_scale, Rabs_Ropp. reflexivity.
Qed.

(** X4.  Both selectors look at the size parameters through their absolute
    values only: changing the sign of every entry of [x] changes neither the
    order returned nor the exception raised. *)
Theorem truncation_order_ignores_signs (x : list R) (m : list C) :
  FastSphere.wiscombe_yang (map Ropp x) m = FastSphere.wiscombe_yang x m
  /\ Sphere.wiscombe_yang (map Ropp x) m = Sphere.wiscombe_yang x m.
Proof.
  unfold FastSphere.wiscombe_yang, Sphere.wiscombe_yang. cbv zeta.
  rewrite !roll_left_map, !abs_prod_opp, getitem_map_last.
  replace (last (map Ropp x) 0) with (- last x 0)
    by (rewrite <- Ropp_0 at 2; symmetry; apply last_of_map).
  rewrite Rabs_Ropp. split; [reflexivity |].
  destruct (getitem x (-1)) as [xlast | e]; cbn [bind]; [| reflexivity].
  rewrite Rabs_Ropp. reflexivity.
Qed.

(** [int(ns)] for the float [ns] of the Wiscombe rule *)
Lemma py_int_wiscombe (xl : R) : 0 <= xl -> py_int (wiscombe xl) = spec_ns xl.
Proof.
  intros H. rewrite wiscombe_spec_ns. rewrite py_int_nonneg.
  - apply ZfloorZ.
  - apply IZR_le. pose proof (spec_ns_ge_1 xl H). lia.
Qed.

(** X5.  When no layer is optically denser than the medium ([|m_j| <= 1])
    and no size parameter exceeds the outermost one in absolute value, the
    terms of Yang's criterion never raise the order: the JIT-kernel selector
    returns [int(ns)] for the [ns] of the Wiscombe rule, and so does the
    array-oriented selector on a single layer. *)
Theorem wiscombe_alone_for_weak_indices (x : list R) (m : list C) :
  x <> [] -> length m = length x ->
  (forall j, (j < length x)%nat -> Cabs (nth j m C0) <= 1) ->
  (forall j, (j < length x)%nat -> Rabs (nth j x 0) <= Rabs (last x 0)) ->
  FastSphere.wiscombe_yang x m = Ok (py_int (wiscombe (Rabs (last x 0))))
  /\ (length x = 1%nat ->
      Sphere.wiscombe_yang x m = Ok (py_int (wiscombe (Rabs (last x 0))))).
Proof.
  intros Hx Lm Hm Hxs.
  assert (E : spec_select x m = py_int (wiscombe (Rabs (last x 0)))).
  { rewrite py_int_wiscombe by apply Rabs_pos. unfold spec_select.
    pose proof (spec_ns_lower (Rabs (last x 0)) (Rabs_pos _)) as Hns.
    pose proof (float_pow_nonneg (Rabs (last x 0)) (1 / 3)) as Hp.
    assert (Hlen : (0 < length x)%nat) by (destruct x; [congruence | simpl; lia]).
    assert (Hprod : forall i j, (i < length x)%nat -> (j < length x)%nat ->
                      Cabs (RtoC (nth i x 0) * nth j m C0) <= Rabs (last x 0)).
    { intros i j Hi Hj. rewrite Cabs_scale.
      pose proof (Hm j Hj). pose proof (Hxs i Hi). pose proof (Cabs_nonneg (nth j m C0)).
      pose proof (Rabs_pos (nth i x 0)). nra. }
    rewrite Rmax_left; [apply ZfloorZ |].
    apply Rmax_lub; (apply Rle_trans with (Rabs (last x 0)); [| lra]);
      (apply maximum_le;
       [ destruct (length x); [lia | discriminate]
       | intros v Hv; apply in_map_iff in Hv; destruct Hv as [j [<- Hj]];
         apply in_seq in Hj; apply Hprod; try lia;
         apply Nat.mod_upper_bound; lia ]). }
  split.
  - rewrite <- E. apply FastSphere_wiscombe_yang_spec; assumption.
  - intros L1. rewrite <- E.
    destruct x as [| x0 [| ? ?]]; try discriminate.
    destruct m as [| m0 [| ? ?]]; try discriminate.
    apply Sphere_wiscombe_yang_single.
Qed.

Lemma wiscombe_alone_for_weak_indices_witness :
  FastSphere.wiscombe_yang [1; 2] [C1; C1] = Ok (py_int (wiscombe (Rabs (last [1; 2] 0))))
  /\ (length [1; 2] = 1%nat ->
      Sphere.wiscombe_yang [1; 2] [C1; C1]
      = Ok (py_int (wiscombe (Rabs (last [1; 2] 0))))).
Proof.
  apply (wiscombe_alone_for_weak_indices [1; 2] [C1; C1]).
  - discriminate.
  - reflexivity.
  - intros j Hj. simpl in Hj.
    destruct j as [| [| j]]; [| | lia]; cbn [nth]; rewrite Cabs_C1; lra.
  - intros j Hj. simpl in Hj.
    destruct j as [| [| j]]; [| | lia]; cbn [nth last];
      rewrite !Rabs_pos_eq by lra; lra.
Defined.

(** ** The upward recurrence in the medium *)

(** Eqs. (20a), (21a), (18a): the seeds satisfy
    [psi[0] * zeta[0] = 0.5 * (1 - exp(2j z1))]. *)
Lemma medium_seed_product (z1 : R) :
  (RtoC 0.5 * (C1 - Cexp (mkC 0 2 * RtoC z1)))%C
  = (RtoC (sin z1) * (- Ci * Cexp (Ci * RtoC z1)))%C.
Proof.
  apply C_eq; simpl;
    replace (0 * z1 - 2 * 0) with 0 by ring;
    replace (0 * 0 + 2 * z1) with (2 * z1) by ring;
    replace (0 * z1 - 1 * 0) with 0 by ring;
    replace (0 * 0 + 1 * z1) with z1 by ring;
    rewrite exp_0, ?cos_2a_sin, ?sin_2a; lra.
Qed.

Lemma medium_at_product (z1 : R) (d1 : nat -> C) (n : nat) :
  mp_psizeta (medium_at z1 d1 n)
  = (mp_psi (medium_at z1 d1 n) * mp_zeta (medium_at z1 d1 n))%C.
Proof.
  induction n as [| k IH].
  - apply medium_seed_product.
  - cbn [medium_at mp_psizeta mp_psi mp_zeta]. rewrite IH. ring.
Qed.

(** X6.  The loop of the last phase of the array-oriented implementation
    keeps the running product [psiZeta] equal to [psi[n] * zeta[n]]:
    started as the source starts it, the loop
    [for n in range(1, nmax+1)] returns, leaves
    [psiZeta = psi[nmax] * zeta[nmax]], and has stored
    [d3_z1[n] = d1_z1[n] + 1j / (psi[n] * zeta[n])] for every
    [1 <= n <= nmax]. *)
Theorem medium_psizeta_is_product (z1 : R) (N : nat) (d1_z1 psi zeta d3_z1 : list C) :
  (N < length d1_z1)%nat -> length psi = S N -> length zeta = S N ->
  length d3_z1 = S N -> nth 0 d3_z1 C0 = Ci ->
  exists s,
    (psi <- assign psi 0 (RtoC (sin z1)) ;;
     zeta <- assign zeta 0 (- Ci * Cexp (Ci * RtoC z1))%C ;;
     foreach (range 1 (S N)) (medium_step z1 d1_z1)
       (mkMedium psi zeta (RtoC 0.5 * (C1 - Cexp (mkC 0 2 * RtoC z1)))%C d3_z1)) = Ok s
    /\ ms_psizeta s = (nth N (ms_psi s) C0 * nth N (ms_zeta s) C0)%C
    /\ forall n, (1 <= n <= N)%nat ->
         nth n (ms_d3_z1 s) C0
         = (nth n d1_z1 C0 + Ci / (nth n (ms_psi s) C0 * nth n (ms_zeta s) C0))%C.
Proof.
  intros Hlen Lpsi Lzeta Ld3 Hd3.
  rewrite !assign_ok by lia. cbn [bind]. unfold range.
  replace (S N - 1)%nat with N by lia.
  destruct (medium_loop z1 (fun i => nth i d1_z1 C0) N d1_z1
              (mkMedium (update psi 0 (RtoC (sin z1)))
                 (update zeta 0 (- Ci * Cexp (Ci * RtoC z1))%C)
                 (RtoC 0.5 * (C1 - Cexp (mkC 0 2 * RtoC z1)))%C d3_z1))
    as [s [Hs (_ & _ & _ & Hpz & Hv)]].
  - exact Hlen.
  - reflexivity.
  - unfold medium_inv. cbn [ms_psi ms_zeta ms_psizeta ms_d3_z1].
    rewrite !length_update.
    repeat split; try assumption; try reflexivity;
      replace i with 0%nat by lia; cbn [medium_at mp_psi mp_zeta mp_d3];
      try (apply nth_update_eq; lia); exact Hd3.
  - exists s. split; [exact Hs |].
    replace (S N - 1)%nat with N in Hpz by lia. split.
    + destruct (Hv N ltac:(lia)) as (-> & -> & _). rewrite Hpz.
      apply medium_at_product.
    + intros n Hn. destruct (Hv n ltac:(lia)) as (-> & -> & ->).
      destruct n as [| k]; [lia |].
      rewrite <- medium_at_product. reflexivity.
Qed.

Lemma medium_psizeta_is_product_witness :
  exists s,
    (psi <- assign [C0; C0] 0 (RtoC (sin 1)) ;;
     zeta <- assign [C0; C0] 0 (- Ci * Cexp (Ci * RtoC 1))%C ;;
     foreach (range 1 2) (medium_step 1 [C1; C0])
       (mkMedium psi zeta (RtoC 0.5 * (C1 - Cexp (mkC 0 2 * RtoC 1)))%C [Ci; C0])) = Ok s
    /\ ms_psizeta s = (nth 1 (ms_psi s) C0 * nth 1 (ms_zeta s) C0)%C
    /\ forall n, (1 <= n <= 1)%nat ->
         nth n (ms_d3_z1 s) C0
         = (nth n [C1; C0] C0 + Ci / (nth n (ms_psi s) C0 * nth n (ms_zeta s) C0))%C.
Proof.
  apply (medium_psizeta_is_product 1 1 [C1; C0] [C0; C0] [C0; C0] [Ci; C0]);
    try reflexivity.
  simpl. lia.
Defined.

(** ** The layer update of the array-oriented implementation *)

Lemma assign_length {A : Type} (l l' : list A) (i : nat) (v : A) :
  assign l i v = Ok l' -> length l' = length l.
Proof.
  unfold assign. destruct (i <? length l)%nat; [| discriminate].
  intros E. injection E as <-. apply length_update.
Qed.

Lemma d1_step_length (z : C) (n : nat) (d d' : list C) :
  d1_step z n d = Ok d' -> length d' = length d.
Proof.
  unfold d1_step. intros H. invert_binds. eapply assign_length. exact H.
Qed.

Lemma foreach_d1_step_length (z : C) (ns : list nat) (d d' : list C) :
  foreach ns (d1_step z) d = Ok d' -> length d' = length d.
Proof.
  revert d. induction ns as [| n ns IH]; intros d H; cbn [foreach] in H.
  - injection H as <-. reflexivity.
  - invert_binds. rewrite (IH _ H). eapply d1_step_length. eassumption.
Qed.

Lemma foreach_d1_step_pair_length (z1 z2 : C) (ns : list nat)
    (d d' : list C * list C) :
  foreach ns (d1_step_pair z1 z2) d = Ok d' ->
  length (fst d') = length (fst d) /\ length (snd d') = length (snd d).
Proof.
  revert d. induction ns as [| n ns IH]; intros d H; cbn [foreach] in H.
  - injection H as <-. split; reflexivity.
  - apply bind_ok in H. destruct H as [d0 [H0 H]].
    destruct (IH _ H) as [-> ->].
    unfold d1_step_pair in H0. invert_binds. injection H0 as <-.
    cbn [fst snd]. split; eapply d1_step_length; eassumption.
Qed.

Lemma length_removelast {A : Type} (l : list A) :
  length (removelast l) = (length l - 1)%nat.
Proof.
  rewrite removelast_firstn_len, length_firstn. lia.
Qed.

Ltac step_or_raise :=
  match goal with
  | |- is_error (bind ?c _) =>
      lazymatch c with
      | h_update _ _ _ _ _ _ _ _ _ => fail
      | _ => let E := fresh "E" in
             destruct c eqn:E; cbn [bind]; [| eexists; reflexivity]
      end
  end.

(** X7.  The layer update of Sphere.py cannot succeed on the arrays that
    [mie_coefficients] allocates.  [d1_z1] and [d1_z2] have [nmax+2] cells
    and [ha = d1_z1[0:-1]] has [nmax+1]; Eq. (12),
    [g1 = m[ii]*ha - m[ii-1]*d1_z2], combines the two shapes, so for every
    [nmax >= 1] the core followed by one pass of the loop over the layers
    raises, whatever the layer and the contents of the arrays. *)
Theorem Sphere_layer_shapes_clash (x : list R) (m : list C) (N ii : nat)
    (d1_z1 d1_z2 d3_z1 d3_z2 q : list C) :
  (1 <= N)%nat -> length d1_z1 = S (S N) -> length d1_z2 = S (S N) ->
  is_error ('(d1_z1, ha, hb) <- Sphere.core x m (Z.of_nat N) d1_z1 ;;
            Sphere.layer x m (Z.of_nat N) ii
              (mkLayer d1_z1 d1_z2 d3_z1 d3_z2 q ha hb)).
Proof.
  intros HN L1 L2.
  destruct (Sphere.core x m (Z.of_nat N) d1_z1) as [[[d1 ha] hb] | e] eqn:Ec;
    cbn [bind]; [| eexists; reflexivity].
  assert (Lha : length ha = S N).
  { unfold Sphere.core in Ec. invert_binds. injection Ec as _ <- _.
    rewrite length_removelast.
    match goal with
    | H : foreach _ _ _ = Ok _ |- _ => rewrite (foreach_d1_step_length _ _ _ _ H)
    end. lia. }
  unfold Sphere.layer. cbn [ls_d1_z1 ls_d1_z2 ls_d3_z1 ls_d3_z2 ls_q ls_ha ls_hb].
  repeat step_or_raise.
  match goal with
  | H : foreach _ (d1_step_pair _ _) _ = Ok ?d |- _ =>
      destruct (foreach_d1_step_pair_length _ _ _ _ _ H) as [_ Ld];
      cbn [snd] in Ld
  end.
  unfold h_update. rewrite broadcast_mismatch.
  - cbn [bind]. eexists. reflexivity.
  - rewrite length_scale. lia.
  - rewrite length_scale. lia.
  - rewrite !length_scale. lia.
Qed.

Lemma Sphere_layer_shapes_clash_witness :
  is_error ('(d1_z1, ha, hb) <- Sphere.core [1; 2] [C1; C1] (Z.of_nat 1) [C0; C0; C0] ;;
            Sphere.layer [1; 2] [C1; C1] (Z.of_nat 1) 1
              (mkLayer d1_z1 [C0; C0; C0] [Ci; C0] [Ci; C0] [C0; C0] ha hb)).
Proof.
  apply (Sphere_layer_shapes_clash [1; 2] [C1; C1] 1 1 [C0; C0; C0] [C0; C0; C0]
           [Ci; C0] [Ci; C0] [C0; C0]).
  - lia.
  - reflexivity.
  - reflexivity.
Defined.

(** ** Invariances of the entry points *)

Lemma broadcast_map_both {A A' B B' D : Type} (f : A -> B -> D) (g : A' -> A)
    (g' : B' -> B) (G : D -> D) (f' : A' -> B' -> D) (a : list A') (b : list B') :
  (forall u v, f (g u) (g' v) = G (f' u v)) ->
  broadcast f (map g a) (map g' b)
  = match broadcast f' a b with
    | Ok l => Ok (map G l)
    | Raise e => Raise e
    end.
Proof.
  intros E. unfold broadcast, zip_with. rewrite !length_map.
  destruct (length a =? length b)%nat.
  - f_equal. rewrite map_map. revert b.
    induction a as [| a0 a IH]; intros [| b0 b]; cbn [map combine fst snd];
      try reflexivity.
    rewrite E. f_equal. apply IH.
  - destruct a as [| a0 [| a1 a]].
    + destruct b as [| b0 [| b1 b]]; reflexivity.
    + cbn [map]. f_equal. rewrite !map_map. apply map_ext. intros v. apply E.
    + destruct b as [| b0 [| b1 b]]; cbn [map]; try reflexivity.
      rewrite !E. do 3 f_equal. rewrite !map_map. apply map_ext. intros v. apply E.
Qed.

(** X9.  The coefficients depend on the radii and the wavelength through
    their ratios only: multiplying every radius and the wavelength by one
    non-zero factor changes the outcome of neither entry point (rounding
    apart, which the exact numbers of this development do not show). *)
Theorem outcome_depends_on_radius_over_wavelength (uninit : nat -> C) (a_p : list R)
    (n_p : list C) (k_p : list R) (n_m : C) (wavelength c : R) :
  c <> 0 ->
  FastSphere.mie_coefficients uninit (map (Rmult c) a_p) n_p k_p n_m (c * wavelength)
  = FastSphere.mie_coefficients uninit a_p n_p k_p n_m wavelength
  /\ Sphere.mie_coefficients uninit (map (Rmult c) a_p) n_p n_m (c * wavelength)
     = Sphere.mie_coefficients uninit a_p n_p n_m wavelength.
Proof.
  intros Hc.
  destruct (Req_dec wavelength 0) as [-> | Hw].
  - unfold FastSphere.mie_coefficients, Sphere.mie_coefficients.
    rewrite Rmult_0_r.
    destruct (Req_dec_T 0 0); [| contradiction]. cbn [bind]. split; reflexivity.
  - assert (Hcw : c * wavelength <> 0) by (apply Rmult_integral_contrapositive_currified; assumption).
    unfold FastSphere.mie_coefficients, Sphere.mie_coefficients,
      FastSphere._mie_coefficients.
    destruct (Req_dec_T (c * wavelength) 0); [contradiction |].
    destruct (Req_dec_T wavelength 0); [contradiction |].
    cbn [bind]. rewrite !map_map, !length_map.
    rewrite (map_ext (fun x => 2 * PI / (c * wavelength) * Re n_m * (c * x))
               (fun a_j => 2 * PI / wavelength * Re n_m * a_j))
      by (intros a; field; split; assumption).
    rewrite (map_ext (fun x => 2 * PI * Re n_m / (c * wavelength) * (c * x))
               (fun a_j => 2 * PI * Re n_m / wavelength * a_j))
      by (intros a; field; split; assumption).
    split; reflexivity.
Qed.

Lemma outcome_depends_on_radius_over_wavelength_witness :
  FastSphere.mie_coefficients (fun _ => C0) (map (Rmult 2) [0.5; 0.75])
    [RtoC 1.5; RtoC 1.4] [0; 0] (RtoC 1.339) (2 * 0.447)
  = FastSphere.mie_coefficients (fun _ => C0) [0.5; 0.75] [RtoC 1.5; RtoC 1.4] [0; 0]
      (RtoC 1.339) 0.447
  /\ Sphere.mie_coefficients (fun _ => C0) (map (Rmult 2) [0.5; 0.75])
       [RtoC 1.5; RtoC 1.4] (RtoC 1.339) (2 * 0.447)
     = Sphere.mie_coefficients (fun _ => C0) [0.5; 0.75] [RtoC 1.5; RtoC 1.4]
         (RtoC 1.339) 0.447.
Proof.
  apply (outcome_depends_on_radius_over_wavelength (fun _ => C0) [0.5; 0.75]
           [RtoC 1.5; RtoC 1.4] [0; 0] (RtoC 1.339) 0.447 2).
  lra.
Defined.

(** X10.  The refractive indices enter through their ratios to the medium
    and the wavelength through its value in the medium: multiplying the
    indices and absorptions of the layers, the index of the medium and the
    wavelength by one non-zero real factor changes the outcome of neither
    entry point, for a medium of non-zero index. *)
Theorem outcome_depends_on_relative_index (uninit : nat -> C) (a_p : list R)
    (n_p : list C) (k_p : list R) (n_m : C) (wavelength c : R) :
  c <> 0 -> n_m <> C0 ->
  FastSphere.mie_coefficients uninit a_p (map (Cmul (RtoC c)) n_p) (map (Rmult c) k_p)
    (RtoC c * n_m) (c * wavelength)
  = FastSphere.mie_coefficients uninit a_p n_p k_p n_m wavelength
  /\ Sphere.mie_coefficients uninit a_p (map (Cmul (RtoC c)) n_p) (RtoC c * n_m)
       (c * wavelength)
     = Sphere.mie_coefficients uninit a_p n_p n_m wavelength.
Proof.
  intros Hc Hnm.
  assert (Hcc : RtoC c <> C0) by (apply RtoC_nonzero; exact Hc).
  assert (ERe : Re (RtoC c * n_m) = c * Re n_m) by (simpl; ring).
  destruct (Req_dec wavelength 0) as [-> | Hw].
  - unfold FastSphere.mie_coefficients, Sphere.mie_coefficients.
    rewrite Rmult_0_r.
    destruct (Req_dec_T 0 0); [| contradiction]. cbn [bind]. split; reflexivity.
  - assert (Hcw : c * wavelength <> 0)
      by (apply Rmult_integral_contrapositive_currified; assumption).
    unfold FastSphere.mie_coefficients, Sphere.mie_coefficients,
      FastSphere._mie_coefficients.
    destruct (Req_dec_T (c * wavelength) 0); [contradiction |].
    destruct (Req_dec_T wavelength 0); [contradiction |].
    cbn [bind]. rewrite ERe.
    rewrite (map_ext (fun a_j => 2 * PI / (c * wavelength) * (c * Re n_m) * a_j)
               (fun a_j => 2 * PI / wavelength * Re n_m * a_j))
      by (intros a; field; split; assumption).
    rewrite (map_ext (fun a_j => 2 * PI * (c * Re n_m) / (c * wavelength) * a_j)
               (fun a_j => 2 * PI * Re n_m / wavelength * a_j))
      by (intros a; field; split; assumption).
    split.
    + rewrite (broadcast_map_both _ (Cmul (RtoC c)) (Rmult c) (Cmul (RtoC c))
                 (fun n_j k_j => (n_j + Ci * RtoC k_j)%C)).
      2:{ intros u v. rewrite <- RtoC_mul. ring. }
      destruct (broadcast (fun n_j k_j => (n_j + Ci * RtoC k_j)%C) n_p k_p)
        as [nk | e]; cbn [bind]; [| reflexivity].
      rewrite map_map.
      rewrite (map_ext (fun x => (RtoC c * x / (RtoC c * n_m))%C)
                 (fun v => (v / n_m)%C))
        by (intros v; field; split; assumption).
      reflexivity.
    + rewrite map_map.
      rewrite (map_ext (fun x => (RtoC c * x / (RtoC c * n_m))%C)
                 (fun n_j => (n_j / n_m)%C))
        by (intros v; field; split; assumption).
      reflexivity.
Qed.

Lemma outcome_depends_on_relative_index_witness :
  FastSphere.mie_coefficients (fun _ => C0) [0.5; 0.75]
    (map (Cmul (RtoC 2)) [RtoC 1.5; RtoC 1.4]) (map (Rmult 2) [0; 0.01])
    (RtoC 2 * RtoC 1.339) (2 * 0.447)
  = FastSphere.mie_coefficients (fun _ => C0) [0.5; 0.75] [RtoC 1.5; RtoC 1.4]
      [0; 0.01] (RtoC 1.339) 0.447
  /\ Sphere.mie_coefficients (fun _ => C0) [0.5; 0.75]
       (map (Cmul (RtoC 2)) [RtoC 1.5; RtoC 1.4]) (RtoC 2 * RtoC 1.339) (2 * 0.447)
     = Sphere.mie_coefficients (fun _ => C0) [0.5; 0.75] [RtoC 1.5; RtoC 1.4]
         (RtoC 1.339) 0.447.
Proof.
  apply (outcome_depends_on_relative_index (fun _ => C0) [0.5; 0.75]
           [RtoC 1.5; RtoC 1.4] [0; 0.01] (RtoC 1.339) 0.447 2).
  - lra.
  - apply RtoC_nonzero. lra.
Defined.

(** ** The classes [Sphere] and [FastSphere] *)

Lemma getter_of_asarray {A : Type} (v : pyobj A) :
  exists w,
    (if (size (asarray v) =? 1)%nat
     then a <- asscalar (asarray v) ;; Ok (PyNumber a)
     else Ok (PyArray (asarray v))) = Ok w
    /\ atleast_1d (asarray w) = atleast_1d (asarray v)
    /\ (size (asarray v) = 1%nat -> exists a, w = PyNumber a)
    /\ (size (asarray v) <> 1%nat -> w = PyArray (asarray v)).
Proof.
  assert (Hnum : forall (u : ndarray A) (a : A),
             size u = 1%nat -> asscalar u = Ok a -> atleast_1d u = [a] ->
             exists w,
               (if (size u =? 1)%nat then a <- asscalar u ;; Ok (PyNumber a)
                else Ok (PyArray u)) = Ok w
               /\ atleast_1d (asarray w) = atleast_1d u
               /\ (size u = 1%nat -> exists a, w = PyNumber a)
               /\ (size u <> 1%nat -> w = PyArray u)).
  { intros u a Hs Ha He. exists (PyNumber a). rewrite Hs, Ha, He.
    split; [reflexivity |]. split; [reflexivity |].
    split; [intros _; exists a; reflexivity | intros H; congruence]. }
  assert (Harr : forall u : ndarray A,
             size u <> 1%nat ->
             exists w,
               (if (size u =? 1)%nat then a <- asscalar u ;; Ok (PyNumber a)
                else Ok (PyArray u)) = Ok w
               /\ atleast_1d (asarray w) = atleast_1d u
               /\ (size u = 1%nat -> exists a, w = PyNumber a)
               /\ (size u <> 1%nat -> w = PyArray u)).
  { intros u Hs. exists (PyArray u).
    destruct (Nat.eqb_spec (size u) 1) as [E | _]; [contradiction |].
    split; [reflexivity |]. split; [reflexivity |].
    split; [intros E; contradiction | intros _; reflexivity]. }
  destruct v as [a | [a | [| a [| b l]]]]; cbn [asarray].
  - apply (Hnum (Scalar a) a); reflexivity.
  - apply (Hnum (Scalar a) a); reflexivity.
  - apply Harr. discriminate.
  - apply (Hnum (Vector [a]) a); reflexivity.
  - apply Harr. discriminate.
Qed.

(** X11.  What a property setter of [Sphere] stores, the getter gives back
    with the same elements, and never raises: a number or an array of one
    element comes back as a number (so a one-element array is not returned
    as it was given), any other array comes back as the array.  Setting one
    property leaves the other untouched. *)
Theorem sphere_properties_round_trip (self : SphereClass.Sphere) :
  (forall v : pyobj R,
      exists w, SphereClass.a_p (SphereClass.set_a_p self v) = Ok w
        /\ atleast_1d (asarray w) = atleast_1d (asarray v)
        /\ (size (asarray v) = 1%nat -> exists a, w = PyNumber a)
        /\ (size (asarray v) <> 1%nat -> w = PyArray (asarray v))
        /\ SphereClass.n_p (SphereClass.set_a_p self v) = SphereClass.n_p self)
  /\ (forall v : pyobj C,
      exists w, SphereClass.n_p (SphereClass.set_n_p self v) = Ok w
        /\ atleast_1d (asarray w) = atleast_1d (asarray v)
        /\ (size (asarray v) = 1%nat -> exists n, w = PyNumber n)
        /\ (size (asarray v) <> 1%nat -> w = PyArray (asarray v))
        /\ SphereClass.a_p (SphereClass.set_n_p self v) = SphereClass.a_p self).
Proof.
  split; intros v; destruct (getter_of_asarray v) as [w (Hw & He & H1 & Hn)];
    exists w; (split; [exact Hw |]); (split; [exact He |]);
    (split; [exact H1 |]); (split; [exact Hn | reflexivity]).
Qed.

Lemma class_getters (self : SphereClass.Sphere) (a : pyobj R) (n : pyobj C) :
  exists a' n',
    SphereClass.a_p (SphereClass.set_n_p (SphereClass.set_a_p self a) n) = Ok a'
    /\ SphereClass.n_p (SphereClass.set_n_p (SphereClass.set_a_p self a) n) = Ok n'
    /\ atleast_1d (asarray a') = atleast_1d (asarray a)
    /\ atleast_1d (asarray n') = atleast_1d (asarray n).
Proof.
  destruct (getter_of_asarray a) as [a' (Ha & Ea & _)].
  destruct (getter_of_asarray n) as [n' (Hn & En & _)].
  exists a', n'. repeat split; assumption.
Qed.

(** X12.  [ab] of either class runs its coefficient engine on exactly the
    elements given to the setters.  Hence [Sphere.ab] raises for every
    sphere of two or more layers.  The method [FastSphere.ab] that
    overrides it also reads the attribute [k_p]: on an object to which no
    [k_p] was assigned it raises [AttributeError], and once one was assigned
    it is the JIT-kernel entry point on the stored radii and indices and
    that absorption. *)
Theorem class_ab_runs_engine_on_stored_elements (uninit : nat -> C)
    (self : SphereClass.Sphere) (a : pyobj R) (n : pyobj C) (k : pyobj R)
    (old : option (pyobj R)) (n_m : C) (wavelength : R) :
  let s := SphereClass.set_n_p (SphereClass.set_a_p self a) n in
  SphereClass.ab uninit s n_m wavelength
  = Sphere.mie_coefficients uninit (atleast_1d (asarray a)) (atleast_1d (asarray n))
      n_m wavelength
  /\ FastSphereClass.ab uninit (FastSphereClass.mkFastSphere s None) n_m wavelength
     = Raise AttributeError
  /\ FastSphereClass.ab uninit
       (FastSphereClass.set_k_p (FastSphereClass.mkFastSphere s old) k) n_m wavelength
     = FastSphere.mie_coefficients uninit (atleast_1d (asarray a))
         (atleast_1d (asarray n)) (atleast_1d (asarray k)) n_m wavelength
  /\ ((2 <= size (asarray a))%nat -> is_error (SphereClass.ab uninit s n_m wavelength)).
Proof.
  intros s.
  destruct (class_getters self a n) as [a' [n' (Ha & Hn & Ea & En)]].
  fold s in Ha, Hn.
  assert (E1 : SphereClass.ab uninit s n_m wavelength
               = Sphere.mie_coefficients uninit (atleast_1d (asarray a))
                   (atleast_1d (asarray n)) n_m wavelength).
  { unfold SphereClass.ab. rewrite Ha, Hn. cbn [bind]. rewrite Ea, En. reflexivity. }
  assert (Hsize : forall (A : Type) (v : ndarray A), length (atleast_1d v) = size v)
    by (intros A [? | ?]; reflexivity).
  split; [exact E1 |]. split; [| split].
  - unfold FastSphereClass.ab. cbn [FastSphereClass.sphere]. rewrite Ha, Hn.
    reflexivity.
  - unfold FastSphereClass.ab, FastSphereClass.set_k_p.
    cbn [FastSphereClass.sphere]. rewrite Ha, Hn. cbn [bind].
    unfold FastSphereClass.k_p. cbn [FastSphereClass._k_p bind].
    rewrite Ea, En. reflexivity.
  - intros H2. rewrite E1. apply Sphere_mie_coefficients_multilayer.
    rewrite Hsize. exact H2.
Qed.

(** * Training data *)

Lemma np_rint_mono (r r' : R) : r <= r' -> (np_rint r <= np_rint r')%Z.
Proof.
  intros H. unfold np_rint.
  pose proof (Zfloor_bound r) as [Hl Hu]. pose proof (Zfloor_bound r') as [Hl' Hu'].
  pose proof (Zfloor_le r r' H) as Hf.
  destruct (Z.eq_dec (Zfloor r) (Zfloor r')) as [E | Hne].
  - rewrite <- E in *.
    destruct (Rlt_dec (r - IZR (Zfloor r)) (1 / 2));
      destruct (Rlt_dec (r' - IZR (Zfloor r)) (1 / 2));
      destruct (Rlt_dec (1 / 2) (r - IZR (Zfloor r)));
      destruct (Rlt_dec (1 / 2) (r' - IZR (Zfloor r)));
      destruct (Z.even (Zfloor r)); try lia; lra.
  - assert (Hlt : (Zfloor r + 1 <= Zfloor r')%Z) by lia.
    destruct (Rlt_dec (r - IZR (Zfloor r)) (1 / 2));
      destruct (Rlt_dec (r' - IZR (Zfloor r')) (1 / 2));
      destruct (Rlt_dec (1 / 2) (r - IZR (Zfloor r)));
      destruct (Rlt_dec (1 / 2) (r' - IZR (Zfloor r')));
      destruct (Z.even (Zfloor r)); destruct (Z.even (Zfloor r')); lia.
Qed.

Lemma pow10_pos (d : nat) : 0 < 10 ^ d.
Proof. apply pow_lt. lra. Qed.

Lemma np_around_mono (v v' : R) (d : nat) :
  v <= v' -> np_around v d <= np_around v' d.
Proof.
  intros H. unfold np_around. pose proof (pow10_pos d) as Hp.
  apply Rmult_le_compat_r; [left; apply Rinv_0_lt_compat; exact Hp |].
  apply IZR_le, np_rint_mono. apply Rmult_le_compat_r; lra.
Qed.

(** X13.  [make_value] on a range [[lo, hi, ...]]: it returns, the value
    lies between the rounded ends of the range, both included, and is a
    whole number of units [10**-decimals]; a range whose two ends coincide
    gives the rounded end, as the number alone would, whatever the generator
    draws. *)
Theorem make_value_within_rounded_range (lo hi : R) (rest : list R) (decimals : nat)
    (u : R) :
  0 <= u < 1 ->
  exists v,
    make_value (Numbers (lo :: hi :: rest)) decimals u = Ok v
    /\ np_around (Rmin lo hi) decimals <= v <= np_around (Rmax lo hi) decimals
    /\ (exists k : Z, v = IZR k / 10 ^ decimals)
    /\ (lo = hi -> forall u', Ok v = make_value (Number lo) decimals u').
Proof.
  intros Hu. unfold make_value. cbn [item nth_error bind].
  destruct (Req_dec_T lo hi) as [E | Hne]; cbn [bind].
  - exists (np_around lo decimals). split; [reflexivity |]. subst hi.
    rewrite Rmin_left, Rmax_left by lra.
    split; [lra |]. split; [eexists; reflexivity |]. intros _ u'. reflexivity.
  - exists (np_around (np_random_uniform lo hi u) decimals).
    split; [reflexivity |].
    split; [| split; [eexists; reflexivity | intros E; contradiction]].
    unfold np_random_uniform.
    split; apply np_around_mono; unfold Rmin, Rmax; destruct (Rle_dec lo hi); nra.
Qed.

Lemma make_value_within_rounded_range_witness :
  exists v,
    make_value (Numbers [0.5; 1.5]) 3 (1 / 2) = Ok v
    /\ np_around (Rmin 0.5 1.5) 3 <= v <= np_around (Rmax 0.5 1.5) 3
    /\ (exists k : Z, v = IZR k / 10 ^ 3)
    /\ (0.5 = 1.5 -> forall u', Ok v = make_value (Number 0.5) 3 u').
Proof.
  apply (make_value_within_rounded_range 0.5 1.5 [] 3 (1 / 2)). lra.
Defined.

Lemma length_np_diff (l : list R) : length (np_diff l) = (length l - 1)%nat.
Proof.
  induction l as [| u [| v t] IH]; try reflexivity.
  cbn [np_diff length] in *. rewrite IH. lia.
Qed.

Lemma nth_np_diff (l : list R) (j : nat) :
  (S j < length l)%nat -> nth j (np_diff l) 0 = nth (S j) l 0 - nth j l 0.
Proof.
  revert j. induction l as [| u [| v t] IH]; intros j Hj; cbn [length] in Hj; try lia.
  destruct j as [| j]; [reflexivity |].
  cbn [np_diff nth]. cbn [nth] in IH. rewrite IH by (cbn [length]; lia).
  reflexivity.
Qed.

Lemma nonzero_from_spec (l : list R) (i k : nat) :
  (k < length (nonzero_from i l))%nat ->
  (i + k <= nth k (nonzero_from i l) 0 < i + length l)%nat
  /\ nth (nth k (nonzero_from i l) 0%nat - i) l 0 <> 0.
Proof.
  revert i k. induction l as [| v t IH]; intros i k Hk; cbn [nonzero_from] in *.
  - cbn [length] in Hk. lia.
  - destruct (Req_dec_T v 0) as [E | Hne].
    + destruct (IH (S i) k Hk) as [Hb Hv]. cbn [length]. split; [lia |].
      replace (nth k (nonzero_from (S i) t) 0%nat - i)%nat
        with (S (nth k (nonzero_from (S i) t) 0%nat - S i)) by lia.
      exact Hv.
    + destruct k as [| k]; cbn [nth length].
      * split; [lia |]. rewrite Nat.sub_diag. exact Hne.
      * cbn [length] in Hk. destruct (IH (S i) k ltac:(lia)) as [Hb Hv].
        split; [lia |].
        replace (nth k (nonzero_from (S i) t) 0%nat - i)%nat
          with (S (nth k (nonzero_from (S i) t) 0%nat - S i)) by lia.
        exact Hv.
Qed.

Lemma np_sign_0 : np_sign 0 = 0.
Proof.
  unfold np_sign. destruct (Rlt_dec 0 0); [lra |]. reflexivity.
Qed.

(** X14.  The radius that [feature_extent] derives from a hologram of
    [maxrange] samples never exceeds [maxrange].  It is [maxrange] itself
    when [hologram - 1] changes sign fewer than [nfringes + 1] times;
    otherwise it is an index between [nfringes + 1] and [maxrange - 1] at
    which the sign of [hologram - 1] differs from the sign one sample
    before. *)
Theorem feature_extent_bounds (hologram : list R) (nfringes maxrange : nat) :
  length hologram = maxrange ->
  let changes := np_where (np_diff (map np_sign (map (fun v => v - 1) hologram))) in
  let r := feature_extent hologram nfringes maxrange in
  (r <= maxrange)%nat
  /\ ((length changes < nfringes + 1)%nat -> r = maxrange)
  /\ ((nfringes + 1 <= length changes)%nat ->
      (nfringes + 1 <= r < maxrange)%nat
      /\ np_sign (nth r hologram 0 - 1) <> np_sign (nth (r - 1) hologram 0 - 1)).
Proof.
  intros Hlen changes r. unfold feature_extent in r.
  set (b := map (fun v => v - 1) hologram) in *.
  set (d := np_diff (map np_sign b)) in *.
  assert (Lb : length b = maxrange) by (unfold b; rewrite length_map; exact Hlen).
  assert (Ld : length d = (maxrange - 1)%nat)
    by (unfold d; rewrite length_np_diff, length_map; lia).
  subst r changes. rewrite length_map.
  destruct (Nat.ltb_spec (length (np_where d)) (nfringes + 1)) as [Hfew | Hmany].
  - split; [lia |]. split; [reflexivity | lia].
  - rewrite (nth_map_in _ _ _ _ 0%nat) by lia.
    destruct (nonzero_from_spec d 0 nfringes ltac:(unfold np_where in Hmany; lia))
      as [Hb Hv].
    fold (np_where d) in Hb, Hv. rewrite Nat.sub_0_r in Hv.
    set (i := nth nfringes (np_where d) 0%nat) in *.
    split; [lia |]. split; [lia |]. intros _. split; [lia |].
    replace (i + 1 - 1)%nat with i by lia.
    unfold d in Hv. rewrite nth_np_diff in Hv by (rewrite length_map; lia).
    rewrite !(nth_map_in np_sign _ _ 0 0) in Hv by lia.
    unfold b in Hv.
    rewrite !(nth_map_in (fun v => v - 1) _ _ 0 0) in Hv by lia.
    replace (S i) with (i + 1)%nat in Hv by lia.
    intros E. apply Hv. rewrite E. ring.
Qed.

Lemma feature_extent_bounds_witness :
  let changes := np_where (np_diff (map np_sign (map (fun v => v - 1) [2; 0; 2; 0]))) in
  let r := feature_extent [2; 0; 2; 0] 1 4 in
  (r <= 4)%nat
  /\ ((length changes < 1 + 1)%nat -> r = 4%nat)
  /\ ((1 + 1 <= length changes)%nat ->
      (1 + 1 <= r < 4)%nat
      /\ np_sign (nth r [2; 0; 2; 0] 0 - 1)
         <> np_sign (nth (r - 1) [2; 0; 2; 0] 0 - 1)).
Proof.
  apply (feature_extent_bounds [2; 0; 2; 0] 1 4). reflexivity.
Defined.

(** * Sampling masks *)

Lemma py_index_in_range (n : nat) (e : Z) :
  (- Z.of_nat n <= e < Z.of_nat n)%Z ->
  exists j, py_index n e = Ok j /\ (j < n)%nat.
Proof.
  intros H. unfold py_index.
  destruct (Z.leb_spec 0 e) as [Hp | Hneg].
  - destruct (Z.ltb_spec e (Z.of_nat n)) as [_ | Hge]; [| lia].
    exists (Z.to_nat e). split; [reflexivity | lia].
  - destruct (Z.leb_spec 0 (e + Z.of_nat n)) as [_ | Hlt]; [| lia].
    exists (Z.to_nat (e + Z.of_nat n)). split; [reflexivity | lia].
Qed.

Lemma py_index_bound (n : nat) (e : Z) (j : nat) :
  py_index n e = Ok j -> (j < n)%nat /\ (- Z.of_nat n <= e < Z.of_nat n)%Z.
Proof.
  unfold py_index.
  destruct (Z.leb_spec 0 e) as [Hp | Hneg].
  - destruct (Z.ltb_spec e (Z.of_nat n)) as [Hlt | Hge]; [| discriminate].
    intros E. injection E as <-. lia.
  - destruct (Z.leb_spec 0 (e + Z.of_nat n)) as [Hle | Hlt]; [| discriminate].
    intros E. injection E as <-. lia.
Qed.

Lemma excluded_dec (n : nat) (idx : list Z) (i : nat) :
  excluded n idx i \/ ~ excluded n idx i.
Proof.
  induction idx as [| e idx IH].
  - right. intros (e & [] & _).
  - destruct IH as [(e' & Hin & E) | Hn].
    + left. exists e'. split; [right; exact Hin | exact E].
    + destruct (py_index n e) as [j | err] eqn:Ej.
      * destruct (Nat.eq_dec j i) as [-> | Hne].
        -- left. exists e. split; [left; reflexivity | exact Ej].
        -- right. intros (e' & [<- | Hin] & E); [congruence |].
           apply Hn. exists e'. split; assumption.
      * right. intros (e' & [<- | Hin] & E); [congruence |].
        apply Hn. exists e'. split; assumption.
Qed.

Lemma assign_each_ok (idx : list Z) (l l' : list R) (v : R) :
  assign_each l idx v = Ok l' ->
  length l' = length l
  /\ (forall e, In e idx -> (- Z.of_nat (length l) <= e < Z.of_nat (length l))%Z)
  /\ (forall i, excluded (length l) idx i -> nth i l' 0 = v)
  /\ (forall i, ~ excluded (length l) idx i -> nth i l' 0 = nth i l 0).
Proof.
  revert l. induction idx as [| e idx IH]; intros l H; cbn [assign_each] in H.
  - injection H as <-. split; [reflexivity |]. split; [intros e []|].
    split; [intros i (e & [] & _) | reflexivity].
  - apply bind_ok in H. destruct H as [l1 [H1 H]].
    unfold setitem in H1. apply bind_ok in H1. destruct H1 as [j [Hj H1]].
    destruct (py_index_bound _ _ _ Hj) as [Hjn He].
    rewrite assign_ok in H1 by exact Hjn. injection H1 as <-.
    destruct (IH _ H) as (Hlen & Hrange & Hex & Hnex).
    rewrite length_update in Hlen, Hrange, Hex, Hnex.
    split; [exact Hlen |]. split; [| split].
    + intros e' [<- | Hin]; [exact He | apply Hrange; exact Hin].
    + intros i (e' & [<- | Hin] & Hi).
      * assert (i = j) by congruence. subst i.
        destruct (excluded_dec (length l) idx j) as [Hx | Hx].
        -- apply Hex. exact Hx.
        -- rewrite Hnex by exact Hx. apply nth_update_eq. exact Hjn.
      * apply Hex. exists e'. split; assumption.
    + intros i Hi.
      assert (Hi' : ~ excluded (length l) idx i).
      { intros (e' & Hin & E). apply Hi. exists e'. split; [right; exact Hin | exact E]. }
      rewrite Hnex by exact Hi'. apply nth_update_neq.
      intros E. apply Hi. exists e. split; [left; reflexivity | congruence].
Qed.

Lemma assign_each_total (idx : list Z) (l : list R) (v : R) :
  (forall e, In e idx -> (- Z.of_nat (length l) <= e < Z.of_nat (length l))%Z) ->
  exists l', assign_each l idx v = Ok l'.
Proof.
  revert l. induction idx as [| e idx IH]; intros l H; cbn [assign_each].
  - eexists. reflexivity.
  - destruct (py_index_in_range (length l) e (H e (or_introl eq_refl))) as [j [Hj Hjn]].
    unfold setitem. rewrite Hj. cbn [bind]. rewrite assign_ok by exact Hjn.
    cbn [bind]. apply IH. rewrite length_update. intros e' Hin.
    apply H. right. exact Hin.
Qed.

Lemma np_sum_div (t : R) (l : list R) :
  np_sum (map (fun i => i / t) l) = np_sum l / t.
Proof.
  induction l as [| a l IH]; cbn [map np_sum fold_right].
  - unfold Rdiv. ring.
  - fold (np_sum (map (fun i => i / t) l)). fold (np_sum l). rewrite IH.
    unfold Rdiv. ring.
Qed.

Lemma np_sum_nonneg (l : list R) :
  (forall i, 0 <= nth i l 0) -> 0 <= np_sum l.
Proof.
  induction l as [| a l IH]; intros H; cbn [np_sum fold_right]; [lra |].
  fold (np_sum l). pose proof (H 0%nat) as H0. cbn [nth] in H0.
  assert (0 <= np_sum l) by (apply IH; intros i; apply (H (S i))). lra.
Qed.

Lemma np_sum_pos (l : list R) (i : nat) :
  (forall j, 0 <= nth j l 0) -> 0 < nth i l 0 -> 0 < np_sum l.
Proof.
  revert i. induction l as [| a l IH]; intros i H Hi.
  - destruct i; cbn [nth] in Hi; lra.
  - cbn [np_sum fold_right]. fold (np_sum l).
    pose proof (H 0%nat) as H0. cbn [nth] in H0.
    assert (Hl : forall j, 0 <= nth j l 0) by (intros j; apply (H (S j))).
    pose proof (np_sum_nonneg l Hl).
    destruct i as [| i]; cbn [nth] in Hi; [lra |].
    pose proof (IH i Hl Hi). lra.
Qed.

Lemma length_normalize (l : list R) : length (normalize l) = length l.
Proof. unfold normalize. apply length_map. Qed.

Lemma nth_normalize (l : list R) (i : nat) :
  nth i (normalize l) 0 = nth i l 0 / np_sum l.
Proof.
  unfold normalize.
  destruct (Nat.lt_ge_cases i (length l)) as [H | H].
  - apply (nth_map_in (fun i => i / np_sum l)). exact H.
  - rewrite !nth_overflow by (rewrite ?length_map; lia). unfold Rdiv. ring.
Qed.

(** Positive weights, the excluded ones set to zero, normalised. *)
Lemma weights_to_probabilities (w : list R) (exclude : list Z) (n : nat) :
  length w = n -> (forall i, (i < n)%nat -> 0 < nth i w 0) ->
  (forall e, In e exclude -> (- Z.of_nat n <= e < Z.of_nat n)%Z) ->
  (exists i, (i < n)%nat /\ ~ excluded n exclude i) ->
  exists d p,
    assign_each w exclude 0 = Ok d /\ p = normalize d
    /\ length p = n /\ np_sum p = 1
    /\ (forall i, 0 <= nth i p 0)
    /\ (forall i, excluded n exclude i -> nth i p 0 = 0)
    /\ (forall i, (i < n)%nat -> ~ excluded n exclude i ->
                  nth i p 0 = nth i w 0 / np_sum d /\ 0 < nth i p 0).
Proof.
  intros Lw Hpos Hrange [i0 [Hi0 Hn0]]. subst n.
  destruct (assign_each_total exclude w 0 Hrange) as [d Hd].
  destruct (assign_each_ok exclude w d 0 Hd) as (Ld & _ & Hex & Hnex).
  assert (Hd0 : forall i, 0 <= nth i d 0).
  { intros i. destruct (excluded_dec (length w) exclude i) as [Hx | Hx].
    - rewrite (Hex i Hx). lra.
    - rewrite (Hnex i Hx).
      destruct (Nat.lt_ge_cases i (length w)) as [H | H].
      + left. apply Hpos. exact H.
      + rewrite nth_overflow by lia. lra. }
  assert (Hsum : 0 < np_sum d).
  { apply (np_sum_pos d i0 Hd0). rewrite (Hnex i0 Hn0). apply Hpos. exact Hi0. }
  exists d, (normalize d). split; [exact Hd |]. split; [reflexivity |].
  split; [rewrite length_normalize; exact Ld |].
  split.
  { unfold normalize. rewrite np_sum_div. field. lra. }
  split.
  { intros i. rewrite nth_normalize. apply Rmult_le_pos; [apply Hd0 |].
    left. apply Rinv_0_lt_compat. exact Hsum. }
  split.
  { intros i Hx. rewrite nth_normalize, (Hex i Hx). unfold Rdiv. ring. }
  intros i Hi Hx. rewrite nth_normalize, (Hnex i Hx). split; [reflexivity |].
  apply Rdiv_lt_0_compat; [apply Hpos; exact Hi | exact Hsum].
Qed.

Lemma nth_repeat_1 (n i : nat) : (i < n)%nat -> nth i (repeat 1 n) 0 = 1.
Proof.
  intros H. apply nth_repeat_lt. exact H.
Qed.

(** X15.  [uniform_distribution] returns a probability vector that is
    uniform on the pixels that are not excluded: for a first coordinate row
    of [n] pixels, indices to exclude within [-n .. n-1] and at least one
    pixel not excluded, the vector has [n] entries that sum to 1, an
    excluded pixel (negative indices counting from the end) has probability
    0, and all other pixels have one and the same positive probability. *)
Theorem uniform_distribution_is_uniform (self : Mask) (row0 : list R)
    (rest : list (list R)) :
  coordinates self = row0 :: rest ->
  (forall e, In e (_exclude self) ->
             (- Z.of_nat (length row0) <= e < Z.of_nat (length row0))%Z) ->
  (exists i, (i < length row0)%nat /\ ~ excluded (length row0) (_exclude self) i) ->
  exists p,
    uniform_distribution self = Ok p
    /\ length p = length row0 /\ np_sum p = 1
    /\ (forall i, excluded (length row0) (_exclude self) i -> nth i p 0 = 0)
    /\ (forall i j, (i < length row0)%nat -> (j < length row0)%nat ->
          ~ excluded (length row0) (_exclude self) i ->
          ~ excluded (length row0) (_exclude self) j ->
          nth i p 0 = nth j p 0 /\ 0 < nth i p 0).
Proof.
  intros Ec Hrange Hsome.
  destruct (weights_to_probabilities (repeat 1 (length row0)) (_exclude self)
              (length row0)) as [d [p (Hd & -> & Lp & Hs & _ & Hex & Hnex)]];
    try assumption.
  - apply repeat_length.
  - intros i Hi. rewrite nth_repeat_1 by exact Hi. lra.
  - exists (normalize d). unfold uniform_distribution. rewrite Ec.
    cbn [item nth_error bind]. rewrite Hd. cbn [bind].
    split; [reflexivity |]. split; [exact Lp |]. split; [exact Hs |].
    split; [exact Hex |].
    intros i j Hi Hj Hxi Hxj.
    destruct (Hnex i Hi Hxi) as [Ei Hpi]. destruct (Hnex j Hj Hxj) as [Ej _].
    split; [| exact Hpi].
    rewrite Ei, Ej, !nth_repeat_1 by assumption. reflexivity.
Qed.

Lemma uniform_distribution_is_uniform_witness :
  exists p,
    uniform_distribution (mkMask [[0; 1; 2]; [0; 0; 0]] 0.1 "uniform"%string [(-1)%Z] [])
    = Ok p
    /\ length p = length [0; 1; 2] /\ np_sum p = 1
    /\ (forall i, excluded (length [0; 1; 2]) [(-1)%Z] i -> nth i p 0 = 0)
    /\ (forall i j, (i < length [0; 1; 2])%nat -> (j < length [0; 1; 2])%nat ->
          ~ excluded (length [0; 1; 2]) [(-1)%Z] i ->
          ~ excluded (length [0; 1; 2]) [(-1)%Z] j ->
          nth i p 0 = nth j p 0 /\ 0 < nth i p 0).
Proof.
  apply (uniform_distribution_is_uniform
           (mkMask [[0; 1; 2]; [0; 0; 0]] 0.1 "uniform"%string [(-1)%Z] [])
           [0; 1; 2] [[0; 0; 0]]).
  - reflexivity.
  - cbn [_exclude length]. intros e [<- | []]. simpl. lia.
  - exists 0%nat. split; [simpl; lia |].
    cbn [_exclude length]. intros (e & [<- | []] & H). discriminate H.
Defined.

Lemma np_max_ok (l : list R) : l <> [] -> exists v, np_max l = Ok v.
Proof. destruct l; [congruence |]. intros _. eexists. reflexivity. Qed.

Lemma np_min_ok (l : list R) : l <> [] -> exists v, np_min l = Ok v.
Proof. destruct l; [congruence |]. intros _. eexists. reflexivity. Qed.

Lemma extent_and_center_ok (self : Mask) (row0 row1 : list R) (rest : list (list R))
    (img_size : nat) :
  coordinates self = row0 :: row1 :: rest -> row0 <> [] -> row1 <> [] ->
  exists ext_size center, extent_and_center self img_size = Ok (ext_size, center).
Proof.
  intros Ec H0 H1. unfold extent_and_center. rewrite Ec. cbn [item nth_error bind].
  destruct (np_max_ok row1 H1) as [a ->]. destruct (np_max_ok row0 H0) as [b ->].
  destruct (np_min_ok row0 H0) as [c ->]. destruct (np_min_ok row1 H1) as [d ->].
  cbn [bind]. eexists. eexists. reflexivity.
Qed.

Lemma distance_to_ok (self : Mask) (row0 row1 : list R) (rest : list (list R))
    (center : Z * Z) (i : nat) :
  coordinates self = row0 :: row1 :: rest ->
  (i < length row0)%nat -> (i < length row1)%nat ->
  exists dist, distance_to self center i = Ok dist.
Proof.
  intros Ec H0 H1. unfold distance_to. rewrite Ec. cbn [item nth_error bind].
  rewrite (item_nth row0 i 0) by exact H0. cbn [bind].
  rewrite (item_nth row1 i 0) by exact H1. cbn [bind].
  eexists. reflexivity.
Qed.

(** A loop over the pixels that multiplies each weight by a positive factor
    keeps all weights positive. *)
Lemma positive_weights_loop (n : nat) (body : nat -> list R -> result (list R)) :
  (forall i d, (i < n)%nat -> length d = n -> (forall j, (j < n)%nat -> 0 < nth j d 0) ->
     exists d', body i d = Ok d' /\ length d' = n
                /\ forall j, (j < n)%nat -> 0 < nth j d' 0) ->
  exists w, foreach (range 0 n) body (repeat 1 n) = Ok w /\ length w = n
            /\ forall j, (j < n)%nat -> 0 < nth j w 0.
Proof.
  intros Hbody. unfold range. rewrite Nat.sub_0_r.
  destruct (foreach_seq_rule body
              (fun _ d => length d = n /\ forall j, (j < n)%nat -> 0 < nth j d 0)
              n 0 (repeat 1 n)) as [w [Hw Hinv]].
  - split; [apply repeat_length |]. intros j Hj. rewrite nth_repeat_1 by exact Hj. lra.
  - intros i d Hi [Ld Hd]. destruct (Hbody i d ltac:(lia) Ld Hd) as [d' (E & L & P)].
    exists d'. split; [exact E |]. split; assumption.
  - exists w. split; [exact Hw |]. exact Hinv.
Qed.

Lemma scaled_weight (d : list R) (i : nat) (c : R) (n : nat) :
  (i < n)%nat -> length d = n -> (forall j, (j < n)%nat -> 0 < nth j d 0) -> 0 < c ->
  exists d', (d_i <- item d i ;; assign d i (d_i * c)) = Ok d' /\ length d' = n
             /\ forall j, (j < n)%nat -> 0 < nth j d' 0.
Proof.
  intros Hi Ld Hd Hc. rewrite (item_nth d i 0) by lia. cbn [bind].
  rewrite assign_ok by lia. eexists. split; [reflexivity |].
  split; [rewrite length_update; exact Ld |].
  intros j Hj. destruct (Nat.eq_dec i j) as [<- | Hne].
  - rewrite nth_update_eq by lia. apply Rmult_lt_0_compat; [apply Hd; exact Hi | exact Hc].
  - rewrite nth_update_neq by exact Hne. apply Hd. exact Hj.
Qed.

(** X16.  The distributions named 'uniform' and 'donut' are probability
    vectors.  For coordinates whose first two rows have [n >= 1] pixels
    each, indices to exclude within [-n .. n-1] and at least one pixel not
    excluded, [get_distribution] returns for these names [n] non-negative
    numbers that sum to 1, zero at the excluded pixels and positive
    elsewhere; for 'radial_gaussian', whose weights are values of [exp], it
    returns [n] numbers; any other name of a distribution raises
    [ValueError]. *)
Theorem distributions_are_probabilities (self : Mask) (row0 row1 : list R)
    (rest : list (list R)) :
  coordinates self = row0 :: row1 :: rest ->
  (1 <= length row0)%nat -> length row1 = length row0 ->
  (forall e, In e (_exclude self) ->
             (- Z.of_nat (length row0) <= e < Z.of_nat (length row0))%Z) ->
  (exists i, (i < length row0)%nat /\ ~ excluded (length row0) (_exclude self) i) ->
  (In (settings_distribution self) ["uniform"; "donut"]%string ->
   exists p,
     get_distribution self = Ok p
     /\ length p = length row0 /\ np_sum p = 1
     /\ (forall i, 0 <= nth i p 0)
     /\ (forall i, excluded (length row0) (_exclude self) i -> nth i p 0 = 0)
     /\ (forall i, (i < length row0)%nat ->
                   ~ excluded (length row0) (_exclude self) i -> 0 < nth i p 0))
  /\ (settings_distribution self = "radial_gaussian"%string ->
      exists p, get_distribution self = Ok p /\ length p = length row0)
  /\ (~ In (settings_distribution self) ["uniform"; "donut"; "radial_gaussian"]%string ->
      get_distribution self = Raise ValueError).
Proof.
  intros Ec Hn L1 Hrange Hsome.
  set (n := length row0) in *.
  assert (Hr0 : row0 <> []) by (intros E; subst row0; simpl in n; lia).
  assert (Hr1 : row1 <> []) by (intros E; subst row1; simpl in L1; lia).
  (* what remains once the weights are known *)
  assert (Hfinish : forall w, length w = n -> (forall i, (i < n)%nat -> 0 < nth i w 0) ->
            exists p, (distribution <- assign_each w (_exclude self) 0 ;;
                       Ok (normalize distribution)) = Ok p
              /\ length p = n /\ np_sum p = 1
              /\ (forall i, 0 <= nth i p 0)
              /\ (forall i, excluded n (_exclude self) i -> nth i p 0 = 0)
              /\ (forall i, (i < n)%nat -> ~ excluded n (_exclude self) i ->
                            0 < nth i p 0)).
  { intros w Lw Hw.
    destruct (weights_to_probabilities w (_exclude self) n Lw Hw Hrange Hsome)
      as [d [p (Hd & -> & Lp & Hs & H0 & Hex & Hnex)]].
    exists (normalize d). rewrite Hd. cbn [bind].
    split; [reflexivity |]. split; [exact Lp |]. split; [exact Hs |].
    split; [exact H0 |]. split; [exact Hex |].
    intros i Hi Hx. apply (Hnex i Hi Hx). }
  split; [| split].
  - intros Hname. unfold get_distribution.
    destruct (String.eqb_spec (settings_distribution self) "uniform"%string) as [_ | N1].
    { unfold uniform_distribution. rewrite Ec. cbn [item nth_error bind]. fold n.
      apply Hfinish; [apply repeat_length |].
      intros i Hi. rewrite nth_repeat_1 by exact Hi. lra. }
    destruct (String.eqb_spec (settings_distribution self) "donut"%string) as [_ | N2].
    { unfold donut_distribution. rewrite Ec. cbn [item nth_error bind]. fold n.
      destruct (extent_and_center_ok self row0 row1 rest n Ec Hr0 Hr1)
        as [ext [center ->]].
      cbn [bind].
      match goal with
      | |- context [foreach (range 0 n) ?body _] =>
          destruct (positive_weights_loop n body) as [w (-> & Lw & Hw)]
      end.
      - intros i d Hi Ld Hd.
        destruct (distance_to_ok self row0 row1 rest center i Ec) as [dist ->];
          [exact Hi | rewrite L1; exact Hi |].
        cbn [bind].
        destruct (Rgtb dist (IZR ext * (1 / 2 - 0.3))
                  && Rgtb (IZR ext * (1 / 2 - 0.1)) dist).
        + apply scaled_weight; try assumption. lra.
        + exists d. split; [reflexivity |]. split; assumption.
      - cbn [bind]. apply Hfinish; assumption. }
    exfalso. cbn [In] in Hname.
    destruct Hname as [E | [E | []]]; congruence.
  - intros Hname. unfold get_distribution. rewrite Hname.
    cbn [String.eqb Ascii.eqb Bool.eqb].
    cut (exists p, radial_gaussian self = Ok p
                   /\ length p = n /\ np_sum p = 1
                   /\ (forall i, 0 <= nth i p 0)
                   /\ (forall i, excluded n (_exclude self) i -> nth i p 0 = 0)
                   /\ (forall i, (i < n)%nat -> ~ excluded n (_exclude self) i ->
                                 0 < nth i p 0)).
    { intros [p (Hp & Lp & _)]. exists p. split; assumption. }
    { unfold radial_gaussian. rewrite Ec. cbn [item nth_error bind]. fold n.
      destruct (extent_and_center_ok self row0 row1 rest n Ec Hr0 Hr1)
        as [ext [center ->]].
      cbn [bind].
      match goal with
      | |- context [foreach (range 0 n) ?body _] =>
          destruct (positive_weights_loop n body) as [w (-> & Lw & Hw)]
      end.
      - intros i d Hi Ld Hd.
        destruct (distance_to_ok self row0 row1 rest center i Ec) as [dist ->];
          [exact Hi | rewrite L1; exact Hi |].
        cbn [bind]. apply scaled_weight; try assumption.
        unfold gaussian. apply exp_pos.
      - cbn [bind]. apply Hfinish; assumption. }
  - intros Hname. unfold get_distribution.
    destruct (String.eqb_spec (settings_distribution self) "uniform"%string) as [E | _].
    { exfalso. apply Hname. rewrite E. left. reflexivity. }
    destruct (String.eqb_spec (settings_distribution self) "donut"%string) as [E | _].
    { exfalso. apply Hname. rewrite E. right. left. reflexivity. }
    destruct (String.eqb_spec (settings_distribution self) "radial_gaussian"%string)
      as [E | _].
    { exfalso. apply Hname. rewrite E. right. right. left. reflexivity. }
    reflexivity.
Qed.

Lemma distributions_are_probabilities_witness :
  (In "donut"%string ["uniform"; "donut"]%string ->
   exists p,
     get_distribution (mkMask [[0; 1; 2]; [0; 0; 0]] 0.1 "donut"%string [(-1)%Z] [])
     = Ok p
     /\ length p = length [0; 1; 2] /\ np_sum p = 1
     /\ (forall i, 0 <= nth i p 0)
     /\ (forall i, excluded (length [0; 1; 2]) [(-1)%Z] i -> nth i p 0 = 0)
     /\ (forall i, (i < length [0; 1; 2])%nat ->
                   ~ excluded (length [0; 1; 2]) [(-1)%Z] i -> 0 < nth i p 0))
  /\ ("donut"%string = "radial_gaussian"%string ->
      exists p,
        get_distribution (mkMask [[0; 1; 2]; [0; 0; 0]] 0.1 "donut"%string [(-1)%Z] [])
        = Ok p
        /\ length p = length [0; 1; 2])
  /\ (~ In "donut"%string ["uniform"; "donut"; "radial_gaussian"]%string ->
      get_distribution (mkMask [[0; 1; 2]; [0; 0; 0]] 0.1 "donut"%string [(-1)%Z] [])
      = Raise ValueError).
Proof.
  apply (distributions_are_probabilities
           (mkMask [[0; 1; 2]; [0; 0; 0]] 0.1 "donut"%string [(-1)%Z] [])
           [0; 1; 2] [0; 0; 0] []).
  - reflexivity.
  - simpl. lia.
  - reflexivity.
  - cbn [_exclude length]. intros e [<- | []]. simpl. lia.
  - exists 0%nat. split; [simpl; lia |].
    cbn [_exclude length]. intros (e & [<- | []] & H). discriminate H.
Defined.

Lemma StronglySorted_arange (a n : nat) :
  StronglySorted Z.lt (map Z.of_nat (seq a n)).
Proof.
  revert a. induction n as [| n IH]; intros a; cbn [seq map]; constructor.
  - apply IH.
  - apply Forall_forall. intros z Hz. apply in_map_iff in Hz.
    destruct Hz as [k [<- Hk]]. apply in_seq in Hk. lia.
Qed.

Lemma StronglySorted_filter {A : Type} (R : A -> A -> Prop) (f : A -> bool)
    (l : list A) :
  StronglySorted R l -> StronglySorted R (filter f l).
Proof.
  induction 1 as [| a l Hs IH Ha]; cbn [filter]; [constructor |].
  destruct (f a); [| exact IH]. constructor; [exact IH |].
  apply Forall_forall. intros x Hx. apply filter_In in Hx.
  rewrite Forall_forall in Ha. apply Ha. apply Hx.
Qed.

(** X17.  [initialize_sample] without a draw.  With [percentpix == 1] it
    consults neither the generator nor the name of the distribution: the
    sample is, in ascending order and without repetition, every index
    [0 <= z < totalpix] that is not itself an entry of [exclude] (so a
    negative entry of [exclude], which the distributions count from the
    end, excludes nothing here).  With [percentpix <= 0] or
    [percentpix > 1] the method raises [ValueError]. *)
Theorem initialize_sample_without_draw (choice : nat -> Z -> list R -> result (list Z))
    (self : Mask) (row0 : list R) (rest : list (list R)) :
  coordinates self = row0 :: rest ->
  (settings_percentpix self = 1 ->
   exists m,
     initialize_sample choice self = Ok m
     /\ coordinates m = coordinates self /\ _exclude m = _exclude self
     /\ (forall z, In z (_sampled_index m)
                   <-> (0 <= z < Z.of_nat (length row0))%Z /\ ~ In z (_exclude self))
     /\ StronglySorted Z.lt (_sampled_index m))
  /\ (settings_percentpix self <= 0 \/ 1 < settings_percentpix self ->
      initialize_sample choice self = Raise ValueError).
Proof.
  intros Ec. unfold initialize_sample. rewrite Ec. cbn [item nth_error bind].
  split.
  - intros E1. destruct (Req_dec_T (settings_percentpix self) 1) as [_ | N]; [| contradiction].
    eexists. split; [reflexivity |]. cbn [coordinates _exclude _sampled_index].
    split; [reflexivity |]. split; [reflexivity |]. split.
    + intros z. rewrite filter_In, in_map_iff, negb_true_iff.
      split.
      * intros [[k [<- Hk]] Hex]. apply in_seq in Hk. split; [lia |].
        intros Hin.
        assert (Ht : existsb (Z.eqb (Z.of_nat k)) (_exclude self) = true).
        { apply existsb_exists. exists (Z.of_nat k). split; [exact Hin |].
          apply Z.eqb_refl. }
        congruence.
      * intros [Hz Hnin]. split.
        -- exists (Z.to_nat z). split; [lia |]. apply in_seq. lia.
        -- destruct (existsb (Z.eqb z) (_exclude self)) eqn:Ex; [| reflexivity].
           apply existsb_exists in Ex. destruct Ex as [e [Hin He]].
           apply Z.eqb_eq in He. subst e. contradiction.
    + apply StronglySorted_filter, StronglySorted_arange.
  - intros Hr.
    destruct (Req_dec_T (settings_percentpix self) 1) as [E | _]; [lra |].
    destruct (Rle_dec (settings_percentpix self) 0) as [_ | Hn0]; [reflexivity |].
    destruct (Rgt_dec (settings_percentpix self) 1) as [_ | Hn1]; [reflexivity |].
    lra.
Qed.

Lemma initialize_sample_without_draw_witness :
  (settings_percentpix (mkMask [[0; 1; 2]; [0; 0; 0]] 1 "nonsense"%string [(-1)%Z] []) = 1 ->
   exists m,
     initialize_sample (fun _ _ _ => Raise ValueError)
       (mkMask [[0; 1; 2]; [0; 0; 0]] 1 "nonsense"%string [(-1)%Z] []) = Ok m
     /\ coordinates m
        = coordinates (mkMask [[0; 1; 2]; [0; 0; 0]] 1 "nonsense"%string [(-1)%Z] [])
     /\ _exclude m
        = _exclude (mkMask [[0; 1; 2]; [0; 0; 0]] 1 "nonsense"%string [(-1)%Z] [])
     /\ (forall z, In z (_sampled_index m)
                   <-> (0 <= z < Z.of_nat (length [0; 1; 2]))%Z
                       /\ ~ In z (_exclude (mkMask [[0; 1; 2]; [0; 0; 0]] 1
                                             "nonsense"%string [(-1)%Z] [])))
     /\ StronglySorted Z.lt (_sampled_index m))
  /\ (settings_percentpix (mkMask [[0; 1; 2]; [0; 0; 0]] 1 "nonsense"%string [(-1)%Z] [])
      <= 0
      \/ 1 < settings_percentpix (mkMask [[0; 1; 2]; [0; 0; 0]] 1 "nonsense"%string
                                    [(-1)%Z] []) ->
      initialize_sample (fun _ _ _ => Raise ValueError)
        (mkMask [[0; 1; 2]; [0; 0; 0]] 1 "nonsense"%string [(-1)%Z] [])
      = Raise ValueError).
Proof.
  apply (initialize_sample_without_draw (fun _ _ _ => Raise ValueError)
           (mkMask [[0; 1; 2]; [0; 0; 0]] 1 "nonsense"%string [(-1)%Z] [])
           [0; 1; 2] [[0; 0; 0]]).
  reflexivity.
Defined.

Lemma traverse_getitem_arange (row : list R) (k a : nat) :
  (a + k <= length row)%nat ->
  traverse (fun x => getitem row x) (map Z.of_nat (seq a k))
  = Ok (firstn k (skipn a row)).
Proof.
  revert a. induction k as [| k IH]; intros a H; cbn [seq map traverse].
  - reflexivity.
  - unfold getitem at 1. rewrite py_index_nonneg by lia. cbn [bind].
    rewrite Nat2Z.id. rewrite (item_nth row a 0) by lia. cbn [bind].
    rewrite IH by lia. cbn [bind]. f_equal.
    assert (E : skipn a row = nth a row 0 :: skipn (S a) row).
    { clear IH. revert a H. induction row as [| r row IHr]; intros a H.
      - cbn [length] in H. lia.
      - destruct a as [| a]; [reflexivity |].
        cbn [skipn nth]. apply IHr. cbn [length] in H. lia. }
    rewrite E. reflexivity.
Qed.

Lemma traverse_rows {A B : Type} (f : A -> result B) (g : A -> B) (rows : list A) :
  (forall row, In row rows -> f row = Ok (g row)) ->
  traverse f rows = Ok (map g rows).
Proof.
  induction rows as [| r rows IH]; intros H; cbn [traverse map]; [reflexivity |].
  rewrite (H r (or_introl eq_refl)). cbn [bind].
  rewrite IH by (intros row Hr; apply H; right; exact Hr). reflexivity.
Qed.

Lemma masked_coords_arange (self : Mask) (n k : nat) :
  (forall row, In row (coordinates self) -> length row = n) -> (k <= n)%nat ->
  _sampled_index self = map Z.of_nat (seq 0 k) ->
  masked_coords self = Ok (map (firstn k) (coordinates self)).
Proof.
  intros Hrows Hk Es. unfold masked_coords. rewrite Es.
  apply traverse_rows. intros row Hr.
  rewrite traverse_getitem_arange by (rewrite (Hrows row Hr); lia). reflexivity.
Qed.

(** X18.  Sampling every pixel gives the coordinates back: for rows of one
    length, [percentpix == 1] and nothing excluded, [initialize_sample]
    followed by [masked_coords] returns the array [coordinates]. *)
Theorem full_sample_keeps_coordinates (choice : nat -> Z -> list R -> result (list Z))
    (self : Mask) (n : nat) :
  coordinates self <> [] ->
  (forall row, In row (coordinates self) -> length row = n) ->
  settings_percentpix self = 1 -> _exclude self = [] ->
  exists m, initialize_sample choice self = Ok m
            /\ masked_coords m = Ok (coordinates self).
Proof.
  intros Hne Hrows E1 Ex.
  destruct (coordinates self) as [| row0 rest] eqn:Ec; [congruence |].
  unfold initialize_sample. rewrite Ec. cbn [item nth_error bind].
  destruct (Req_dec_T (settings_percentpix self) 1) as [_ | N]; [| contradiction].
  eexists. split; [reflexivity |].
  assert (L0 : length row0 = n) by (apply Hrows; left; reflexivity).
  rewrite (masked_coords_arange _ n n).
  - f_equal. cbn [coordinates]. rewrite <- (map_id (row0 :: rest)) at 2.
    apply map_ext_in. intros row Hr. rewrite <- (Hrows row Hr). apply firstn_all.
  - exact Hrows.
  - lia.
  - cbn [_sampled_index]. rewrite Ex, L0. cbn [existsb negb].
    apply forallb_filter_id. apply forallb_forall. reflexivity.
Qed.

Lemma full_sample_keeps_coordinates_witness :
  exists m,
    initialize_sample (fun _ _ _ => Raise ValueError)
      (mkMask [[0; 1; 2]; [5; 6; 7]] 1 "uniform"%string [] [(0)%Z]) = Ok m
    /\ masked_coords m
       = Ok (coordinates (mkMask [[0; 1; 2]; [5; 6; 7]] 1 "uniform"%string [] [(0)%Z])).
Proof.
  apply (full_sample_keeps_coordinates (fun _ _ _ => Raise ValueError)
           (mkMask [[0; 1; 2]; [5; 6; 7]] 1 "uniform"%string [] [(0)%Z]) 3).
  - discriminate.
  - intros row [<- | [<- | []]]; reflexivity.
  - reflexivity.
  - reflexivity.
Defined.

Lemma tenth_of_pixels (n : nat) : py_int (0.1 * INR n) = Z.of_nat (n / 10).
Proof.
  assert (H0 : 0 <= 0.1 * INR n) by (pose proof (pos_INR n); lra).
  rewrite py_int_nonneg by exact H0. apply Zfloor_eq.
  pose proof (Nat.div_mod_eq n 10) as Hd.
  pose proof (Nat.mod_upper_bound n 10 ltac:(lia)) as Hm.
  rewrite INR_IZR_INZ.
  assert (Hlo : (10 * Z.of_nat (n / 10) <= Z.of_nat n)%Z) by lia.
  assert (Hhi : (Z.of_nat n < 10 * Z.of_nat (n / 10) + 10)%Z) by lia.
  apply IZR_le in Hlo. apply IZR_lt in Hhi.
  rewrite plus_IZR, mult_IZR in Hhi. rewrite mult_IZR in Hlo. lra.
Qed.

(** X19.  A mask fresh from the constructor samples the first tenth of the
    pixels, in order: for coordinates of [n] pixels per row the sample is
    [0 .. n // 10 - 1], [masked_coords] returns the first [n // 10] columns
    of [coordinates], and the settings are [percentpix = 0.1] and
    ['radial_gaussian']. *)
Theorem fresh_mask_samples_first_tenth (coords : list (list R)) (exclude : list Z)
    (n : nat) :
  coords <> [] -> (forall row, In row coords -> length row = n) ->
  exists m,
    Mask_init coords exclude = Ok m
    /\ _sampled_index m = map Z.of_nat (seq 0 (n / 10))
    /\ masked_coords m = Ok (map (firstn (n / 10)) coords)
    /\ settings_percentpix m = 0.1
    /\ settings_distribution m = "radial_gaussian"%string.
Proof.
  intros Hne Hrows. destruct coords as [| row0 rest]; [congruence |].
  assert (L0 : length row0 = n) by (apply Hrows; left; reflexivity).
  unfold Mask_init. cbn [item nth_error bind]. rewrite L0, tenth_of_pixels, Nat2Z.id.
  eexists. split; [reflexivity |]. cbn [_sampled_index settings_percentpix
                                         settings_distribution].
  split; [reflexivity |]. split; [| split; reflexivity].
  apply (masked_coords_arange
           (mkMask (row0 :: rest) 0.1 "radial_gaussian"%string exclude
              (map Z.of_nat (seq 0 (n / 10)))) n (n / 10)).
  - exact Hrows.
  - apply Nat.Div0.div_le_upper_bound. lia.
  - reflexivity.
Qed.

Lemma fresh_mask_samples_first_tenth_witness :
  exists m,
    Mask_init [[0; 1; 2]; [5; 6; 7]] [] = Ok m
    /\ _sampled_index m = map Z.of_nat (seq 0 (3 / 10))
    /\ masked_coords m = Ok (map (firstn (3 / 10)) [[0; 1; 2]; [5; 6; 7]])
    /\ settings_percentpix m = 0.1
    /\ settings_distribution m = "radial_gaussian"%string.
Proof.
  apply (fresh_mask_samples_first_tenth [[0; 1; 2]; [5; 6; 7]] [] 3).
  - discriminate.
  - intros row [<- | [<- | []]]; reflexivity.
Defined.

(** * Further properties of the JIT-kernel entry point *)

Lemma zip_with_repeat_r {A B D : Type} (f : A -> B -> D) (a : list A) (b : B) :
  zip_with f a (repeat b (length a)) = map (fun v => f v b) a.
Proof.
  unfold zip_with. induction a as [| a0 a IH]; [reflexivity |].
  cbn [length repeat combine map fst snd]. rewrite IH. reflexivity.
Qed.

Lemma broadcast_scalar_r {A B D : Type} (f : A -> B -> D) (a : list A) (b : B) :
  broadcast f a [b] = broadcast f a (repeat b (length a)).
Proof.
  unfold broadcast at 2. rewrite repeat_length, Nat.eqb_refl, zip_with_repeat_r.
  destruct a as [| a0 [| a1 a]]; reflexivity.
Qed.

(** X20.  One absorption coefficient applies to every layer: with
    [k_p] a single number, [FastSphere.mie_coefficients] behaves as with the
    array that repeats this number once per refractive index. *)
Theorem scalar_absorption_applies_to_every_layer (uninit : nat -> C) (a_p : list R)
    (n_p : list C) (k : R) (n_m : C) (wavelength : R) :
  FastSphere.mie_coefficients uninit a_p n_p [k] n_m wavelength
  = FastSphere.mie_coefficients uninit a_p n_p (repeat k (length n_p)) n_m wavelength.
Proof.
  unfold FastSphere.mie_coefficients, FastSphere._mie_coefficients.
  rewrite broadcast_scalar_r. reflexivity.
Qed.

(** X21.  For a homogeneous sphere, the last row of every table that the
    JIT-kernel entry point returns has [a_nmax = b_nmax]: the seed
    [d1_z1[nmax] = 0] is copied to [ha[nmax]] and [hb[nmax]], so both
    factors of Eqs. (5) and (6) are [nmax/x] in that row. *)
Theorem FastSphere_last_row_has_equal_coefficients (uninit : nat -> C) (a_p : R)
    (n_p : C) (k_p : R) (n_m : C) (wavelength : R) (ab : list (C * C)) :
  FastSphere.mie_coefficients uninit [a_p] [n_p] [k_p] n_m wavelength = Ok ab ->
  exists nmax,
    length ab = S nmax /\ (1 <= nmax)%nat
    /\ fst (nth nmax ab (C0, C1)) = snd (nth nmax ab (C0, C1)).
Proof.
  intros Hab.
  destruct (Req_dec wavelength 0) as [-> | Hw].
  { unfold FastSphere.mie_coefficients in Hab.
    destruct (Req_dec_T 0 0); [discriminate Hab | contradiction]. }
  destruct (FastSphere_mie_coefficients_outcome uninit [a_p] [n_p] [k_p] n_m
              wavelength ltac:(discriminate) eq_refl eq_refl Hw) as [Good Bad].
  cbv zeta in Good, Bad.
  match type of Bad with
  | ~ ?P -> _ => destruct (classic P) as [G | G]
  end; [| rewrite (Bad G) in Hab; discriminate Hab].
  rewrite (Good G) in Hab. injection Hab as <-.
  unfold FastSphere_table.
  change (FastSphere_x [a_p] n_m wavelength)
    with [2 * PI / wavelength * Re n_m * a_p].
  change (FastSphere_m [n_p] [k_p] n_m) with [((n_p + Ci * RtoC k_p) / n_m)%C].
  set (x0 := 2 * PI / wavelength * Re n_m * a_p).
  set (m0 := ((n_p + Ci * RtoC k_p) / n_m)%C).
  pose proof (spec_select_ge_1 [x0] [m0]) as HN.
  set (N := Z.to_nat (spec_select [x0] [m0])).
  cbn [length Nat.sub FastSphere_layers_h fst snd nth last].
  exists N.
  split; [apply length_table |].
  assert (H1 : (1 <= N)%nat) by (unfold N; lia).
  split; [exact H1 |].
  rewrite nth_table by lia. cbn [fst snd]. f_equal.
  unfold fac_a, fac_b. rewrite nth_FastSphere_core_h, D1_top by lia.
  f_equal. apply C_eq; simpl; ring.
Qed.

Lemma FastSphere_last_row_has_equal_coefficients_witness :
  exists nmax,
    length (FastSphere_table [0.0001] [RtoC 1.5] [0] (RtoC 1.339) 0.447) = S nmax
    /\ (1 <= nmax)%nat
    /\ fst (nth nmax (FastSphere_table [0.0001] [RtoC 1.5] [0] (RtoC 1.339) 0.447)
              (C0, C1))
       = snd (nth nmax (FastSphere_table [0.0001] [RtoC 1.5] [0] (RtoC 1.339) 0.447)
                (C0, C1)).
Proof.
  apply (FastSphere_last_row_has_equal_coefficients (fun _ => C0) 0.0001 (RtoC 1.5) 0
           (RtoC 1.339) 0.447).
  apply small_example_returns; left; reflexivity.
Defined.

Lemma spec_select_mono_index (x : list R) (m : list C) (c : R) :
  length m = length x -> 1 <= Rabs c ->
  (spec_select x m <= spec_select x (map (Cmul (RtoC c)) m))%Z.
Proof.
  intros Lm Hc. unfold spec_select. apply Zfloor_le.
  assert (Hle : forall i j, (j < length x)%nat ->
            Cabs (RtoC (nth i x 0) * nth j m C0)
            <= Cabs (RtoC (nth i x 0) * nth j (map (Cmul (RtoC c)) m) C0)).
  { intros i j Hj.
    rewrite (nth_map_in (Cmul (RtoC c)) m j C0 C0) by lia.
    rewrite !Cabs_scale.
    pose proof (Cabs_nonneg (nth j m C0)) as Hm.
    apply Rmult_le_compat_l; [apply Rabs_pos |].
    rewrite <- (Rmult_1_l (Cabs (nth j m C0))) at 1.
    apply Rmult_le_compat_r; assumption. }
  apply Rmax_mono; [lra |].
  apply Rmax_mono.
  - destruct (length x) as [| L] eqn:EL; [cbn [seq map maximum]; lra |].
    rewrite <- EL in *.
    assert (E : forall f g : nat -> R,
               (forall j, (j < length x)%nat -> f j <= g j) ->
               maximum (map f (seq 0 (length x))) <= maximum (map g (seq 0 (length x)))).
    { intros f g Hfg. apply maximum_le.
      - rewrite EL. discriminate.
      - intros v Hv. apply in_map_iff in Hv. destruct Hv as [j [<- Hj]].
        apply in_seq in Hj. eapply Rle_trans; [apply Hfg; lia |].
        apply maximum_ge. apply (in_map g). apply in_seq. lia. }
    apply E. intros j Hj. apply Hle. exact Hj.
  - destruct (length x) as [| L] eqn:EL; [cbn [seq map maximum]; lra |].
    rewrite <- EL in *.
    assert (E : forall f g : nat -> R,
               (forall j, (j < length x)%nat -> f j <= g j) ->
               maximum (map f (seq 0 (length x))) <= maximum (map g (seq 0 (length x)))).
    { intros f g Hfg. apply maximum_le.
      - rewrite EL. discriminate.
      - intros v Hv. apply in_map_iff in Hv. destruct Hv as [j [<- Hj]].
        apply in_seq in Hj. eapply Rle_trans; [apply Hfg; lia |].
        apply maximum_ge. apply (in_map g). apply in_seq. lia. }
    apply E. intros j Hj. apply Hle. exact Hj.
Qed.

(** X22.  A larger index contrast never lowers the order: multiplying every
    relative index by one real factor of absolute value at least 1, the
    size parameters kept, the JIT-kernel selector returns an order that is
    not smaller, and so does the array-oriented selector on a single
    layer. *)
Theorem truncation_order_monotone_in_index (x : list R) (m : list C) (c : R) :
  x <> [] -> length m = length x -> 1 <= Rabs c ->
  (exists N N',
      FastSphere.wiscombe_yang x m = Ok N
      /\ FastSphere.wiscombe_yang x (map (Cmul (RtoC c)) m) = Ok N' /\ (N <= N')%Z)
  /\ (length x = 1%nat ->
      exists N N',
        Sphere.wiscombe_yang x m = Ok N
        /\ Sphere.wiscombe_yang x (map (Cmul (RtoC c)) m) = Ok N' /\ (N <= N')%Z).
Proof.
  intros Hx Lm Hc.
  pose proof (spec_select_mono_index x m c Lm Hc) as Hle.
  split.
  - exists (spec_select x m), (spec_select x (map (Cmul (RtoC c)) m)).
    split; [apply FastSphere_wiscombe_yang_spec; assumption |].
    split; [apply FastSphere_wiscombe_yang_spec; [assumption |] | exact Hle].
    rewrite length_map. exact Lm.
  - intros L1.
    destruct x as [| x0 [| ? ?]]; try discriminate.
    destruct m as [| m0 [| ? ?]]; try discriminate.
    exists (spec_select [x0] [m0]), (spec_select [x0] (map (Cmul (RtoC c)) [m0])).
    split; [apply Sphere_wiscombe_yang_single |].
    split; [apply Sphere_wiscombe_yang_single | exact Hle].
Qed.

Lemma truncation_order_monotone_in_index_witness :
  (exists N N',
      FastSphere.wiscombe_yang [1; 2] [C1; C1] = Ok N
      /\ FastSphere.wiscombe_yang [1; 2] (map (Cmul (RtoC 2)) [C1; C1]) = Ok N'
      /\ (N <= N')%Z)
  /\ (length [1; 2] = 1%nat ->
      exists N N',
        Sphere.wiscombe_yang [1; 2] [C1; C1] = Ok N
        /\ Sphere.wiscombe_yang [1; 2] (map (Cmul (RtoC 2)) [C1; C1]) = Ok N'
        /\ (N <= N')%Z).
Proof.
  apply (truncation_order_monotone_in_index [1; 2] [C1; C1] 2).
  - discriminate.
  - reflexivity.
  - rewrite Rabs_pos_eq; lra.
Defined.
